(** * NYC collision pipeline: a shallow embedding and its properties

    The development follows the scripts of the repository:

    - [feature_engineering.py]: severity score and category, the two
      category look-ups, the temporal features, the location grid and the
      crash rate, the chunked clustering and the class balancing;
    - [database_integration.py]: the borough bounding boxes and the
      severity distribution of the global statistics;
    - [app.py]: the alignment of one input row with the feature names of
      the trained model, the filtered query, the options of the borough
      filter and the sliders of the prediction form;
    - [data_cleaning.py]: duplicates, column names and missing values;
    - [exploratory_data_analysis.py]: the fallback for the primary
      contributing factor;
    - [features_anaylsis/severity_threshold_analysis.py]: the severity
      levels;
    - [machine_learning.py]: the feature names of the model and their file;
    - [download_files.py]: the fetching of the data files.

    Data frames are lists of rows, Python dictionaries are finite maps (or
    association lists where the iteration order matters), integer columns
    are [Z], coordinates are exact rationals [Q] standing for the floats of
    the code, and Python exceptions are an explicit result type. *)

From Stdlib Require Import ZArith QArith Qround Lia Lqa Ascii.
From stdpp Require Import base option list gmap strings pretty fin_maps sorting.

Set Default Proof Using "Type".

(** ** Exceptions *)

(** The exceptions the modelled code can raise. *)
Inductive exn : Set :=
  | KeyError
  | ValueError
  | IndexError.

#[global] Instance exn_eq_dec : EqDecision exn.
Proof. solve_decision. Defined.

Inductive result (A : Type) : Type :=
  | Ok (a : A)
  | Raise (e : exn).

Arguments Ok {A} a.
Arguments Raise {A} e.

Definition bind {A B : Type} (r : result A) (k : A → result B) : result B :=
  match r with
  | Ok a => k a
  | Raise e => Raise e
  end.

Notation "'let*' x ':=' r 'in' k" := (bind r (fun x => k))
  (at level 10, x pattern, r at level 100, k at level 200).

(** [try: ... except e: h] of Python, for one exception class. *)
Definition try_except {A : Type} (r : result A) (e : exn) (h : result A) : result A :=
  match r with
  | Ok a => Ok a
  | Raise e' => if decide (e' = e) then h else Raise e'
  end.

(** ** The rows of the cleaned data set *)

(** One row of [data/clean_collision_data.csv], with the columns the
    feature engineering reads. *)
Record collision : Type := {
  crash_datetime : string;
  latitude : Q;
  longitude : Q;
  number_of_persons_injured : Z;
  number_of_persons_killed : Z;
  number_of_pedestrians_injured : Z;
  number_of_pedestrians_killed : Z;
  number_of_cyclist_injured : Z;
  number_of_cyclist_killed : Z;
  number_of_motorist_injured : Z;
  number_of_motorist_killed : Z;
  contributing_factor_vehicle_1 : string;
  vehicle_type_code_1 : string
}.

(** ** Severity score and category ([feature_engineering.py], step 2) *)

Module Severity.

Local Open Scope Z_scope.

(** [df[[c1, ..., cn]].sum(axis=1)] for one row. *)
Definition sum_axis1 (cells : list Z) : Z := foldr Z.add 0 cells.

Definition total_deaths (r : collision) : Z :=
  sum_axis1 [number_of_persons_killed r; number_of_pedestrians_killed r;
             number_of_cyclist_killed r; number_of_motorist_killed r].

Definition total_injuries (r : collision) : Z :=
  sum_axis1 [number_of_persons_injured r; number_of_pedestrians_injured r;
             number_of_cyclist_injured r; number_of_motorist_injured r].

Definition severity_score (r : collision) : Z :=
  total_deaths r * 5 + total_injuries r.

Definition aggregate_severity (score : Z) : string :=
  if score <=? 4 then "Low"
  else if score <=? 10 then "Medium"
  else "High".

Definition severity_category (r : collision) : string :=
  aggregate_severity (severity_score r).

(** The eight count columns hold non-negative integers. *)
Definition counts_nonneg (r : collision) : Prop :=
  0 ≤ number_of_persons_injured r ∧ 0 ≤ number_of_persons_killed r ∧
  0 ≤ number_of_pedestrians_injured r ∧ 0 ≤ number_of_pedestrians_killed r ∧
  0 ≤ number_of_cyclist_injured r ∧ 0 ≤ number_of_cyclist_killed r ∧
  0 ≤ number_of_motorist_injured r ∧ 0 ≤ number_of_motorist_killed r.

(** A row with the given counts and nothing else of interest. *)
Definition row_of_counts (pi pk di dk ci ck mi mk : Z) : collision :=
  {| crash_datetime := "2020-03-15 07:30:00";
     latitude := 40.7128; longitude := -74.006;
     number_of_persons_injured := pi; number_of_persons_killed := pk;
     number_of_pedestrians_injured := di; number_of_pedestrians_killed := dk;
     number_of_cyclist_injured := ci; number_of_cyclist_killed := ck;
     number_of_motorist_injured := mi; number_of_motorist_killed := mk;
     contributing_factor_vehicle_1 := "Unspecified";
     vehicle_type_code_1 := "Sedan" |}.

(** The row of the end-to-end scenario: one pedestrian killed, two
    motorists injured. *)
Definition scenario_row : collision := row_of_counts 0 0 0 1 0 0 2 0.

Lemma aggregate_severity_cases (score : Z) :
  aggregate_severity score = "Low" ∨
  aggregate_severity score = "Medium" ∨
  aggregate_severity score = "High".
Proof.
  unfold aggregate_severity.
  destruct (score <=? 4); [by left|].
  destruct (score <=? 10); [right; by left|right; by right].
Qed.

(** C1: the category is decided by the score alone, through the three
    thresholds: it is "Low" exactly when the score is at most 4, "Medium"
    exactly when the score is above 4 and at most 10, and "High" exactly
    when the score is above 10; the boundary scores 4, 5, 10 and 11 fall
    in Low, Medium, Medium and High. *)
Theorem severity_category_thresholds :
  (∀ r : collision, severity_category r = aggregate_severity (severity_score r)) ∧
  (∀ score : Z,
     (aggregate_severity score = "Low" ↔ score ≤ 4) ∧
     (aggregate_severity score = "Medium" ↔ 4 < score ≤ 10) ∧
     (aggregate_severity score = "High" ↔ 10 < score)) ∧
  aggregate_severity 4 = "Low" ∧
  aggregate_severity 5 = "Medium" ∧
  aggregate_severity 10 = "Medium" ∧
  aggregate_severity 11 = "High".
Proof.
  split; [done|]. split; [|done].
  intros score. unfold aggregate_severity.
  destruct (Z.leb_spec score 4) as [H4|H4];
    [|destruct (Z.leb_spec score 10) as [H10|H10]];
    (repeat split; intros; try done; try lia).
Qed.

(** C2: on a row whose eight counts are non-negative the score is five
    times the sum of the four death counts plus the sum of the four injury
    counts, and it is not negative; the scenario row (one death, two
    injuries) scores 7 and is "Medium". *)
Theorem severity_score_weighted_sum (r : collision) :
  counts_nonneg r →
  severity_score r =
    5 * (number_of_persons_killed r + number_of_pedestrians_killed r +
         number_of_cyclist_killed r + number_of_motorist_killed r) +
    (number_of_persons_injured r + number_of_pedestrians_injured r +
     number_of_cyclist_injured r + number_of_motorist_injured r) ∧
  0 ≤ severity_score r ∧
  total_deaths scenario_row = 1 ∧
  total_injuries scenario_row = 2 ∧
  severity_score scenario_row = 7 ∧
  severity_category scenario_row = "Medium".
Proof.
  intros (?&?&?&?&?&?&?&?).
  unfold severity_score, total_deaths, total_injuries, sum_axis1; simpl.
  repeat split; try done; lia.
Qed.

Lemma severity_score_weighted_sum_witness :
  counts_nonneg scenario_row ∧
  severity_score scenario_row = 7 ∧
  0 ≤ severity_score scenario_row.
Proof.
  assert (Hnn : counts_nonneg scenario_row).
  { unfold counts_nonneg, scenario_row, row_of_counts; simpl. lia. }
  split; [exact Hnn|].
  destruct (severity_score_weighted_sum scenario_row Hnn) as (_ & Hpos & _ & _ & H7 & _).
  split; [exact H7|exact Hpos].
Defined.

End Severity.

(** ** Category remapping ([feature_engineering.py], steps 1 and 4) *)

Module Remapping.

(** [str.lower()] on the ASCII letters; other characters are kept. *)
Definition lower_ascii (c : ascii) : ascii :=
  let n := nat_of_ascii c in
  if (65 <=? n)%nat && (n <=? 90)%nat then ascii_of_nat (n + 32) else c.

Fixpoint lower (s : string) : string :=
  match s with
  | EmptyString => EmptyString
  | String c s' => String (lower_ascii c) (lower s')
  end.

(** The entries of the dictionary [factor_mapping], in source order. *)
Definition factor_entries : list (string * string) := [
  ("Driver Inattention/Distraction", "Human Error");
  ("Driver Inexperience", "Human Error");
  ("Following Too Closely", "Human Error");
  ("Unsafe Speed", "Human Error");
  ("Failure to Yield Right-of-Way", "Human Error");
  ("Aggressive Driving/Road Rage", "Human Error");
  ("Backing Unsafely", "Human Error");
  ("Fell Asleep", "Human Error");
  ("Fatigued/Drowsy", "Human Error");
  ("Lost Consciousness", "Human Error");
  ("Alcohol Involvement", "Human Error");
  ("Drugs (Illegal)", "Human Error");
  ("Prescription Medication", "Human Error");
  ("Pavement Slippery", "Environmental Factors");
  ("Obstruction/Debris", "Environmental Factors");
  ("View Obstructed/Limited", "Environmental Factors");
  ("Glare", "Environmental Factors");
  ("Outside Car Distraction", "Environmental Factors");
  ("Animals Action", "Environmental Factors");
  ("Pavement Defective", "Environmental Factors");
  ("Brakes Defective", "Mechanical/Vehicle Issues");
  ("Steering Failure", "Mechanical/Vehicle Issues");
  ("Tire Failure/Inadequate", "Mechanical/Vehicle Issues");
  ("Accelerator Defective", "Mechanical/Vehicle Issues");
  ("Headlights Defective", "Mechanical/Vehicle Issues");
  ("Oversized Vehicle", "Mechanical/Vehicle Issues");
  ("Other Lighting Defects", "Mechanical/Vehicle Issues");
  ("Windshield Inadequate", "Mechanical/Vehicle Issues");
  ("Tow Hitch Defective", "Mechanical/Vehicle Issues");
  ("Vehicle Vandalism", "Mechanical/Vehicle Issues");
  ("Physical Disability", "Mechanical/Vehicle Issues");
  ("Traffic Control Disregarded", "Traffic/Regulatory Issues");
  ("Traffic Control Device Improper/Non-Working", "Traffic/Regulatory Issues");
  ("Lane Marking Improper/Inadequate", "Traffic/Regulatory Issues");
  ("Pedestrian/Bicyclist/Other Pedestrian Error/Confusion", "Pedestrian/Cyclist Issues");
  ("Unspecified", "Unknown/Other");
  ("Unknown", "Unknown/Other");
  ("Other Vehicular", "Unknown/Other");
  ("Other Electronic Device", "Unknown/Other");
  ("Cell Phone (hands-free)", "Distracted/Occupied");
  ("Cell Phone (hand-held)", "Distracted/Occupied");
  ("Using On Board Navigation Device", "Distracted/Occupied");
  ("Eating or Drinking", "Distracted/Occupied");
  ("Listening/Using Headphones", "Distracted/Occupied");
  ("Texting", "Distracted/Occupied")
].

Definition factor_mapping : gmap string string := list_to_map factor_entries.

(** The entries of the dictionary [vehicle_mapping], in source order. *)
Definition vehicle_entries : list (string * string) := [
  ("sedan", "Passenger Vehicle");
  ("station wagon/sport utility vehicle", "Passenger Vehicle");
  ("passenger vehicle", "Passenger Vehicle");
  ("sport utility / station wagon", "Passenger Vehicle");
  ("taxi", "Taxi");
  ("pick-up truck", "Truck");
  ("4 dr sedan", "Passenger Vehicle");
  ("box truck", "Truck");
  ("van", "Van");
  ("bus", "Bus");
  ("bike", "Bike")
].

Definition vehicle_mapping : gmap string string := list_to_map vehicle_entries.

(** [Series.map(d)] on one cell: a key absent from the dictionary gives a
    missing value (NaN), here [None]. *)
Definition series_map (d : gmap string string) (cell : string) : option string :=
  d !! cell.

(** [fillna] on one cell. *)
Definition fillna (dflt : string) (cell : option string) : string :=
  match cell with
  | Some v => v
  | None => dflt
  end.

(** [df['contributing_factor_vehicle_1'].map(factor_mapping)]. *)
Definition contributing_factor_category_of (factor : string) : option string :=
  series_map factor_mapping factor.

Definition contributing_factor_category (r : collision) : option string :=
  contributing_factor_category_of (contributing_factor_vehicle_1 r).

(** [str.lower()], [map(vehicle_mapping)], then [fillna] with "Unknown". *)
Definition vehicle_category_of (vehicle_type : string) : string :=
  fillna "Unknown" (series_map vehicle_mapping (lower vehicle_type)).

Definition vehicle_category (r : collision) : string :=
  vehicle_category_of (vehicle_type_code_1 r).

Lemma factor_entries_NoDup : NoDup factor_entries.*1.
Proof. apply (bool_decide_unpack _). vm_compute. reflexivity. Qed.

Lemma vehicle_entries_NoDup : NoDup vehicle_entries.*1.
Proof. apply (bool_decide_unpack _). vm_compute. reflexivity. Qed.

Lemma factor_mapping_lookup (s c : string) :
  factor_mapping !! s = Some c ↔ (s, c) ∈ factor_entries.
Proof.
  unfold factor_mapping. split.
  - apply elem_of_list_to_map_2.
  - apply elem_of_list_to_map_1, factor_entries_NoDup.
Qed.

Lemma vehicle_mapping_lookup (s c : string) :
  vehicle_mapping !! s = Some c ↔ (s, c) ∈ vehicle_entries.
Proof.
  unfold vehicle_mapping. split.
  - apply elem_of_list_to_map_2.
  - apply elem_of_list_to_map_1, vehicle_entries_NoDup.
Qed.

Lemma lower_idempotent (s : string) : lower (lower s) = lower s.
Proof.
  induction s as [|c s IH]; [done|]. simpl. rewrite IH. f_equal.
  clear. destruct c as [[] [] [] [] [] [] [] []]; reflexivity.
Qed.

Lemma vehicle_category_of_cases (s : string) :
  vehicle_category_of s = "Unknown" ∨
  ∃ c, (lower s, c) ∈ vehicle_entries ∧ vehicle_category_of s = c.
Proof.
  unfold vehicle_category_of, series_map.
  destruct (vehicle_mapping !! lower s) as [c|] eqn:E; [right|by left].
  exists c. split; [by apply vehicle_mapping_lookup|done].
Qed.

(** C3, as the code has it: the vehicle type is lower-cased, looked up in
    the fixed table and defaults to "Unknown" when the lower-cased key is
    absent, so that spellings differing in case only get the same category;
    the contributing factor is looked up exactly as spelled, and a string
    that is a key of the fixed table gets the category that the table
    gives it. *)
Theorem category_lookups :
  (∀ s c : string,
     (s, c) ∈ factor_entries → contributing_factor_category_of s = Some c) ∧
  (∀ s c : string,
     (lower s, c) ∈ vehicle_entries → vehicle_category_of s = c) ∧
  (∀ s : string,
     (∀ c, (lower s, c) ∉ vehicle_entries) → vehicle_category_of s = "Unknown") ∧
  (∀ s t : string,
     lower s = lower t → vehicle_category_of s = vehicle_category_of t) ∧
  contributing_factor_category_of "Unsafe Speed" = Some "Human Error" ∧
  contributing_factor_category_of "Unspecified" = Some "Unknown/Other" ∧
  vehicle_category_of "Sedan" = "Passenger Vehicle" ∧
  vehicle_category_of "TAXI" = "Taxi" ∧
  vehicle_category_of "Ambulance" = "Unknown".
Proof.
  split; [|split; [|split; [|split]]].
  - intros s c Hin. by apply factor_mapping_lookup.
  - intros s c Hin. unfold vehicle_category_of, series_map.
    apply vehicle_mapping_lookup in Hin. by rewrite Hin.
  - intros s Hno. destruct (vehicle_category_of_cases s) as [H|(c & Hin & _)]; [done|].
    by destruct (Hno c).
  - intros s t Heq. unfold vehicle_category_of. by rewrite Heq.
  - vm_compute. done.
Qed.

(** C3 as stated fails on the contributing factor: a factor string that is
    not a key of the table gets no category at all rather than
    "Unknown/Other", and the lower-case spelling of a key of the table is
    not found although the key itself is. *)
Lemma unmapped_factor_not_defaulted :
  factor_mapping !! "Turning Improperly" = None ∧
  contributing_factor_category_of "Turning Improperly" = None ∧
  contributing_factor_category_of "Turning Improperly" ≠ Some "Unknown/Other" ∧
  lower "Unsafe Speed" = "unsafe speed" ∧
  contributing_factor_category_of "Unsafe Speed" = Some "Human Error" ∧
  contributing_factor_category_of "unsafe speed" = None.
Proof. vm_compute. repeat split; congruence. Qed.

End Remapping.

(** ** Borough assignment ([database_integration.py]) *)

Module Borough.

(** One bounding box of [borough_ranges]. *)
Record bounds : Type := {
  lat_min : Q;
  lat_max : Q;
  lon_min : Q;
  lon_max : Q
}.

(** The dictionary [borough_ranges]; [get_borough] iterates over its items
    in insertion order, hence an association list. *)
Definition borough_ranges : list (string * bounds) := [
  ("Manhattan",
   {| lat_min := 40.700; lat_max := 40.882; lon_min := -74.019; lon_max := -73.907 |});
  ("Brooklyn",
   {| lat_min := 40.570; lat_max := 40.739; lon_min := -74.041; lon_max := -73.855 |});
  ("Queens",
   {| lat_min := 40.541; lat_max := 40.800; lon_min := -73.962; lon_max := -73.700 |});
  ("Bronx",
   {| lat_min := 40.785; lat_max := 40.910; lon_min := -73.933; lon_max := -73.765 |});
  ("Staten Island",
   {| lat_min := 40.477; lat_max := 40.648; lon_min := -74.255; lon_max := -74.051 |})
].

(** The test of the [if]: both chained comparisons hold. *)
Definition in_bounds (b : bounds) (lat lon : Q) : bool :=
  (Qle_bool (lat_min b) lat && Qle_bool lat (lat_max b)) &&
  (Qle_bool (lon_min b) lon && Qle_bool lon (lon_max b)).

(** The [for] loop with its early [return], over the items that remain. *)
Fixpoint get_borough_from (items : list (string * bounds)) (lat lon : Q) : string :=
  match items with
  | [] => "Unknown"
  | (borough, b) :: rest =>
      if in_bounds b lat lon then borough else get_borough_from rest lat lon
  end.

Definition get_borough (lat lon : Q) : string :=
  get_borough_from borough_ranges lat lon.

(** The six values a record can receive. *)
Definition borough_values : list string :=
  ["Manhattan"; "Brooklyn"; "Queens"; "Bronx"; "Staten Island"; "Unknown"].

(** What the loop returns over [items]: the name of the first box that
    holds the point, or "Unknown" when none does. *)
Inductive first_match (items : list (string * bounds)) (lat lon : Q) : string → Prop :=
  | first_match_found pre borough b post :
      items = pre ++ (borough, b) :: post →
      Forall (λ it, in_bounds it.2 lat lon = false) pre →
      in_bounds b lat lon = true →
      first_match items lat lon borough
  | first_match_none :
      Forall (λ it, in_bounds it.2 lat lon = false) items →
      first_match items lat lon "Unknown".

Lemma in_bounds_spec (b : bounds) (lat lon : Q) :
  in_bounds b lat lon = true ↔
  (lat_min b <= lat)%Q ∧ (lat <= lat_max b)%Q ∧
  (lon_min b <= lon)%Q ∧ (lon <= lon_max b)%Q.
Proof.
  unfold in_bounds. rewrite !andb_true_iff, !Qle_bool_iff. tauto.
Qed.

Lemma get_borough_from_first_match items lat lon :
  first_match items lat lon (get_borough_from items lat lon).
Proof.
  induction items as [|[borough b] rest IH]; simpl.
  - by apply first_match_none.
  - destruct (in_bounds b lat lon) eqn:Hb.
    + by apply (first_match_found _ _ _ [] borough b rest).
    + destruct IH as [pre borough' b' post Heq Hpre Hin|Hall].
      * apply (first_match_found _ _ _ ((borough, b) :: pre) borough' b' post);
          [by rewrite Heq|by constructor|done].
      * apply first_match_none. by constructor.
Qed.

Lemma get_borough_from_values items lat lon :
  get_borough_from items lat lon ∈ "Unknown" :: items.*1.
Proof.
  induction items as [|[borough b] rest IH]; simpl; [by left|].
  destruct (in_bounds b lat lon); [right; by left|].
  apply elem_of_cons in IH as [->|IH]; [by left|]. right; by right.
Qed.

(** C6: for every point the assignment returns one of the five borough
    names or "Unknown"; the value is the name of the first box of the
    ordered list that holds the point, and "Unknown" when no box holds it.
    A point lying in the boxes of Manhattan, Brooklyn and Queens at once is
    assigned to Manhattan, the first of them. *)
Theorem get_borough_total_first_match (lat lon : Q) :
  get_borough lat lon ∈ borough_values ∧
  first_match borough_ranges lat lon (get_borough lat lon) ∧
  (Forall (λ it, in_bounds it.2 lat lon = false) borough_ranges →
   get_borough lat lon = "Unknown") ∧
  (in_bounds {| lat_min := 40.700; lat_max := 40.882;
                lon_min := -74.019; lon_max := -73.907 |} 40.72 (-73.95) = true ∧
   in_bounds {| lat_min := 40.570; lat_max := 40.739;
                lon_min := -74.041; lon_max := -73.855 |} 40.72 (-73.95) = true ∧
   in_bounds {| lat_min := 40.541; lat_max := 40.800;
                lon_min := -73.962; lon_max := -73.700 |} 40.72 (-73.95) = true ∧
   get_borough 40.72 (-73.95) = "Manhattan") ∧
  get_borough 40.6 (-73.95) = "Brooklyn" ∧
  get_borough 0 0 = "Unknown".
Proof.
  split; [|split; [|split; [|by vm_compute]]].
  - pose proof (get_borough_from_values borough_ranges lat lon) as H.
    unfold get_borough.
    change borough_values with (borough_ranges.*1 ++ ["Unknown"]).
    apply elem_of_cons in H as [->|H]; [|by apply elem_of_app; left].
    apply elem_of_app. right. by left.
  - apply get_borough_from_first_match.
  - unfold get_borough. generalize borough_ranges.
    induction 1 as [|[borough b] rest Hb _ IH]; simpl; [done|].
    simpl in Hb. by rewrite Hb.
Qed.

End Borough.

(** ** Temporal features ([feature_engineering.py], step 3) *)

Module Temporal.

Local Open Scope Z_scope.

(** The fields of a pandas [Timestamp] that the features read. *)
Record Timestamp : Type := {
  year : Z;
  month : Z;
  day : Z;
  hour : Z;
  minute : Z;
  second : Z
}.

Definition is_leap_year (y : Z) : bool :=
  ((y mod 4 =? 0) && negb (y mod 100 =? 0)) || (y mod 400 =? 0).

Definition days_in_month (y m : Z) : Z :=
  if m =? 2 then (if is_leap_year y then 29 else 28)
  else if (m =? 4) || (m =? 6) || (m =? 9) || (m =? 11) then 30
  else 31.

(** The fields denote a moment of the calendar; the years are those wholly
    inside the range of a nanosecond [Timestamp]. *)
Definition valid_timestamp (ts : Timestamp) : bool :=
  (1678 <=? year ts) && (year ts <=? 2261) &&
  (1 <=? month ts) && (month ts <=? 12) &&
  (1 <=? day ts) && (day ts <=? days_in_month (year ts) (month ts)) &&
  (0 <=? hour ts) && (hour ts <=? 23) &&
  (0 <=? minute ts) && (minute ts <=? 59) &&
  (0 <=? second ts) && (second ts <=? 59).

(** *** Reading a timestamp *)

Definition digit (c : ascii) : option Z :=
  let n := nat_of_ascii c in
  if (48 <=? n)%nat && (n <=? 57)%nat then Some (Z.of_nat (n - 48)) else None.

(** Reads exactly [n] decimal digits. *)
Fixpoint read_digits (n : nat) (acc : Z) (s : string) : option (Z * string) :=
  match n with
  | O => Some (acc, s)
  | S n' =>
      match s with
      | EmptyString => None
      | String c s' => d ← digit c; read_digits n' (10 * acc + d) s'
      end
  end.

Definition expect (c : ascii) (s : string) : option string :=
  match s with
  | EmptyString => None
  | String c' s' => if decide (c' = c) then Some s' else None
  end.

(** The seconds are optional: ["HH:MM"] and ["HH:MM:SS"] are both read. *)
Definition read_seconds (s : string) : option Z :=
  match s with
  | EmptyString => Some 0
  | _ => s ← expect ":" s; '(ss, s) ← read_digits 2 0 s;
         match s with EmptyString => Some ss | _ => None end
  end.

(** ["YYYY-MM-DD HH:MM"] with optional [":SS"], the form in which the
    cleaning stage writes [crash_datetime]. *)
Definition read_timestamp (s : string) : option Timestamp :=
  '(y, s) ← read_digits 4 0 s; s ← expect "-" s;
  '(mo, s) ← read_digits 2 0 s; s ← expect "-" s;
  '(d, s) ← read_digits 2 0 s; s ← expect " " s;
  '(h, s) ← read_digits 2 0 s; s ← expect ":" s;
  '(mi, s) ← read_digits 2 0 s;
  ss ← read_seconds s;
  Some {| year := y; month := mo; day := d; hour := h; minute := mi; second := ss |}.

(** [pd.to_datetime] on one cell written in that form; a string that does
    not denote a moment is refused. *)
Definition to_datetime (s : string) : result Timestamp :=
  match read_timestamp s with
  | Some ts => if valid_timestamp ts then Ok ts else Raise ValueError
  | None => Raise ValueError
  end.

(** *** The accessors of [.dt] *)

(** The month offsets of Sakamoto's method. *)
Definition sakamoto_arr : list Z := [0; 3; 2; 5; 0; 3; 5; 1; 4; 6; 2; 4].

(** [.dt.dayofweek]: the day of the week of a date of the Gregorian
    calendar, by Sakamoto's method; Monday is 0 and Sunday is 6. *)
Definition dayofweek (y m d : Z) : Z :=
  let y := if m <? 3 then y - 1 else y in
  let day := (y + y / 4 - y / 100 + y / 400 +
              default 0 (sakamoto_arr !! Z.to_nat (m - 1)) + d) mod 7 in
  (day + 6) mod 7.

Definition DAYS_FULL : list string :=
  ["Monday"; "Tuesday"; "Wednesday"; "Thursday"; "Friday"; "Saturday"; "Sunday"].

(** [.dt.day_name()] *)
Definition day_name (ts : Timestamp) : string :=
  default "" (DAYS_FULL !! Z.to_nat (dayofweek (year ts) (month ts) (day ts))).

(** [pd.cut(x, bins, labels, right=False)] on one cell: the label of the
    interval [bins[i] <= x < bins[i+1]] that holds [x], and a missing value
    when [x] is outside all of them. *)
Fixpoint cut_right_open (bins : list Z) (labels : list string) (x : Z) : option string :=
  match bins, labels with
  | lo :: ((hi :: _) as bins'), label :: labels' =>
      if (lo <=? x) && (x <? hi) then Some label
      else cut_right_open bins' labels' x
  | _, _ => None
  end.

Definition day_of_week (ts : Timestamp) : string := day_name ts.

Definition hour_of_day (ts : Timestamp) : Z := hour ts.

Definition time_of_day (ts : Timestamp) : option string :=
  cut_right_open [0; 6; 12; 18; 24] ["Night"; "Morning"; "Afternoon"; "Evening"]
    (hour_of_day ts).

Definition month_of (ts : Timestamp) : Z := month ts.

(** The timestamp of the end-to-end scenario. *)
Definition scenario_timestamp : Timestamp :=
  {| year := 2020; month := 3; day := 15; hour := 7; minute := 30; second := 0 |}.

(** The date that follows a date, for checking [dayofweek] against the
    calendar. *)
Definition next_day (y m d : Z) : Z * Z * Z :=
  if d <? days_in_month y m then (y, m, d + 1)
  else if m <? 12 then (y, m + 1, 1)
  else (y + 1, 1, 1).

Lemma to_datetime_valid (s : string) (ts : Timestamp) :
  to_datetime s = Ok ts → valid_timestamp ts = true.
Proof.
  unfold to_datetime. destruct (read_timestamp s) as [ts'|]; [|done].
  destruct (valid_timestamp ts') eqn:Hv; [|done]. by intros [= <-].
Qed.

Lemma valid_timestamp_ranges (ts : Timestamp) :
  valid_timestamp ts = true →
  1 ≤ month ts ≤ 12 ∧ 1 ≤ day ts ≤ 31 ∧ 0 ≤ hour ts ≤ 23 ∧
  0 ≤ minute ts ≤ 59 ∧ 0 ≤ second ts ≤ 59.
Proof.
  unfold valid_timestamp. rewrite !andb_true_iff, !Z.leb_le.
  intros H. assert (days_in_month (year ts) (month ts) ≤ 31).
  { unfold days_in_month.
    repeat match goal with |- context [if ?b then _ else _] => destruct b end; lia. }
  lia.
Qed.

Lemma dayofweek_range (y m d : Z) : 0 ≤ dayofweek y m d < 7.
Proof. unfold dayofweek. apply Z.mod_pos_bound. lia. Qed.

Lemma day_name_in_week (ts : Timestamp) : day_name ts ∈ DAYS_FULL.
Proof.
  unfold day_name.
  pose proof (dayofweek_range (year ts) (month ts) (day ts)) as Hr.
  destruct (DAYS_FULL !! Z.to_nat (dayofweek (year ts) (month ts) (day ts)))
    as [name|] eqn:E.
  - simpl. by apply list_elem_of_lookup_2 in E.
  - apply lookup_ge_None in E. simpl in E. lia.
Qed.

Lemma in_interval_spec (lo hi x : Z) :
  (lo <=? x) && (x <? hi) = true ↔ lo ≤ x < hi.
Proof. rewrite andb_true_iff, Z.leb_le, Z.ltb_lt. done. Qed.

Ltac case_interval :=
  match goal with
  | |- context [(?lo <=? ?x) && (?x <? ?hi)] =>
      let E := fresh "E" in
      destruct ((lo <=? x) && (x <? hi)) eqn:E;
      [apply in_interval_spec in E
      |apply not_true_iff_false in E; rewrite in_interval_spec in E]
  end.

Lemma time_of_day_buckets (ts : Timestamp) :
  (time_of_day ts = Some "Night" ↔ 0 ≤ hour_of_day ts < 6) ∧
  (time_of_day ts = Some "Morning" ↔ 6 ≤ hour_of_day ts < 12) ∧
  (time_of_day ts = Some "Afternoon" ↔ 12 ≤ hour_of_day ts < 18) ∧
  (time_of_day ts = Some "Evening" ↔ 18 ≤ hour_of_day ts < 24) ∧
  (time_of_day ts = None ↔ hour_of_day ts < 0 ∨ 24 ≤ hour_of_day ts).
Proof.
  unfold time_of_day. generalize (hour_of_day ts) as h. intros h.
  unfold cut_right_open.
  repeat case_interval; repeat split; intros; try done; try lia.
Qed.

(** The day of the week advances by one from each date to the next one,
    across the ends of months and years and through leap days. *)
Lemma dayofweek_next_day (y m d : Z) :
  1 ≤ m ≤ 12 → 1 ≤ d ≤ days_in_month y m →
  dayofweek (next_day y m d).1.1 (next_day y m d).1.2 (next_day y m d).2 =
  (dayofweek y m d + 1) mod 7.
Proof.
  intros Hm Hd. unfold next_day.
  destruct (Z.ltb_spec d (days_in_month y m)) as [Hlt|Hge]; cbn [fst snd].
  - unfold dayofweek. destruct (m <? 3);
      generalize (default 0 (sakamoto_arr !! Z.to_nat (m - 1))); intros e;
      Z.div_mod_to_equations; lia.
  - assert (d = days_in_month y m) as -> by lia. clear Hd Hge.
    assert (m = 1 ∨ m = 2 ∨ m = 3 ∨ m = 4 ∨ m = 5 ∨ m = 6 ∨ m = 7 ∨ m = 8 ∨
            m = 9 ∨ m = 10 ∨ m = 11 ∨ m = 12) as Hcases by lia.
    unfold days_in_month, is_leap_year, dayofweek.
    destruct Hcases as [->|[->|[->|[->|[->|[->|[->|[->|[->|[->|[->| ->]]]]]]]]]]];
      simpl;
      repeat match goal with |- context [?a =? ?b] => destruct (Z.eqb_spec a b) end;
      simpl; Z.div_mod_to_equations; lia.
Qed.

(** The model of [dayofweek] agrees with the calendar on known dates. *)
Example dayofweek_known_dates :
  dayofweek 1970 1 1 = 3 ∧ dayofweek 2000 2 29 = 1 ∧
  dayofweek 2012 7 1 = 6 ∧ dayofweek 2024 12 25 = 2.
Proof. by vm_compute. Qed.

(** C7: a parsed timestamp gets one of the seven weekday names, an hour
    between 0 and 23, a month between 1 and 12, and the time of day of the
    right-open interval holding its hour: Night on [0,6), Morning on
    [6,12), Afternoon on [12,18) and Evening on [18,24); the timestamp
    "2020-03-15 07:30" gives Sunday, hour 7, Morning and month 3. *)
Theorem temporal_features (s : string) (ts : Timestamp) :
  to_datetime s = Ok ts →
  day_of_week ts ∈ DAYS_FULL ∧
  0 ≤ hour_of_day ts ≤ 23 ∧
  1 ≤ month_of ts ≤ 12 ∧
  (time_of_day ts = Some "Night" ↔ 0 ≤ hour_of_day ts < 6) ∧
  (time_of_day ts = Some "Morning" ↔ 6 ≤ hour_of_day ts < 12) ∧
  (time_of_day ts = Some "Afternoon" ↔ 12 ≤ hour_of_day ts < 18) ∧
  (time_of_day ts = Some "Evening" ↔ 18 ≤ hour_of_day ts < 24) ∧
  time_of_day ts ≠ None ∧
  to_datetime "2020-03-15 07:30" = Ok scenario_timestamp ∧
  day_of_week scenario_timestamp = "Sunday" ∧
  hour_of_day scenario_timestamp = 7 ∧
  time_of_day scenario_timestamp = Some "Morning" ∧
  month_of scenario_timestamp = 3.
Proof.
  intros Hparse. apply to_datetime_valid, valid_timestamp_ranges in Hparse.
  destruct (time_of_day_buckets ts) as (Hn & Hm & Ha & He & Hnone).
  unfold hour_of_day, month_of in *.
  split; [apply day_name_in_week|].
  split; [lia|]. split; [lia|].
  split; [done|]. split; [done|]. split; [done|]. split; [done|].
  split; [rewrite Hnone; lia|].
  by vm_compute.
Qed.

Lemma temporal_features_witness :
  to_datetime "2020-03-15 07:30:00" = Ok scenario_timestamp ∧
  day_of_week scenario_timestamp ∈ DAYS_FULL ∧
  time_of_day scenario_timestamp ≠ None.
Proof.
  assert (Hparse : to_datetime "2020-03-15 07:30:00" = Ok scenario_timestamp)
    by reflexivity.
  split; [exact Hparse|].
  destruct (temporal_features _ _ Hparse) as (Hd & _ & _ & _ & _ & _ & _ & Ht & _).
  split; [exact Hd|exact Ht].
Defined.

End Temporal.

(** ** Collision clusters in chunks ([feature_engineering.py], step 7) *)

Module Clustering.

(** The [metric] argument of [DBSCAN]. *)
Inductive metric : Set :=
  | euclidean
  | haversine.

(** [range(start, stop, step)] as the list it iterates over: [ValueError]
    on a zero step, and the length that CPython computes otherwise. *)
Definition range_length (start stop step : Z) : Z :=
  if (0 <? step)%Z then
    if (start <? stop)%Z then ((stop - start - 1) / step + 1)%Z else 0%Z
  else
    if (stop <? start)%Z then ((start - stop - 1) / (- step) + 1)%Z else 0%Z.

Definition range (start stop step : Z) : result (list Z) :=
  if (step =? 0)%Z then Raise ValueError
  else Ok ((λ i : nat, (start + Z.of_nat i * step)%Z) <$>
           seq 0 (Z.to_nat (range_length start stop step))).

(** [dataframe.iloc[start:stop]] for the bounds the loop produces, which
    are not negative: the rows from position [start] up to, and without,
    position [stop], cut at the end of the frame. *)
Definition iloc {A : Type} (dataframe : list A) (start stop : Z) : list A :=
  take (Z.to_nat stop - Z.to_nat start) (drop (Z.to_nat start) dataframe).

(** [chunk[['latitude', 'longitude']].values] *)
Definition coordinates_of (chunk : list collision) : list (Q * Q) :=
  (λ r, (latitude r, longitude r)) <$> chunk.

(** The chunks of the specification: the partition of a sequence into
    contiguous chunks of [size] elements, the last one possibly shorter. *)
Fixpoint partition_chunks_upto {A : Type} (fuel size : nat) (l : list A) : list (list A) :=
  match fuel, l with
  | S fuel', _ :: _ => take size l :: partition_chunks_upto fuel' size (drop size l)
  | _, _ => []
  end.

Definition partition_chunks {A : Type} (size : nat) (l : list A) : list (list A) :=
  partition_chunks_upto (length l) size l.

(** The number of chunks of a frame with [n] rows. *)
Definition chunk_count (n size : nat) : nat :=
  match n with
  | O => O
  | S n' => S (n' / size)
  end.

(** An instance of the library functions for the examples: degrees are
    scaled by a rational approximation of pi/180, and every sample is
    labelled as noise. *)
Definition radians_example (x : Q) : Q := (x * (355 # 20340))%Q.

Definition all_noise (eps : Q) (min_samples : Z) (m : metric) (X : list (Q * Q)) : list Z :=
  (λ _, (-1)%Z) <$> X.

Definition three_rows : list collision :=
  [Severity.row_of_counts 0 0 0 0 0 0 0 0;
   Severity.row_of_counts 1 0 0 0 0 0 1 0;
   Severity.scenario_row].

Section chunked.

(** The two library functions of the loop body: [np.radians] on one
    number, and [DBSCAN(eps, min_samples, metric).fit(X).labels_]. *)
Variable radians : Q → Q.
Variable DBSCAN_fit_labels : Q → Z → metric → list (Q * Q) → list Z.

(** [np.radians] on an array of coordinate pairs. *)
Definition np_radians (coordinates : list (Q * Q)) : list (Q * Q) :=
  (λ p, (radians p.1, radians p.2)) <$> coordinates.

(** The labels of one chunk clustered on its own. *)
Definition cluster_chunk (eps : Q) (min_samples : Z) (chunk : list collision) : list Z :=
  DBSCAN_fit_labels eps min_samples haversine (np_radians (coordinates_of chunk)).

Definition cluster_in_chunks (dataframe : list collision) (chunk_size : Z)
    (eps : Q) (min_samples : Z) : result (list Z) :=
  let* starts := range 0 (Z.of_nat (length dataframe)) chunk_size in
  Ok (foldl (λ total_clusters start,
               let stop := (start + chunk_size)%Z in
               let chunk := iloc dataframe start stop in
               total_clusters ++ cluster_chunk eps min_samples chunk)
            [] starts).

(** The default values of the keyword arguments. *)
Definition eps_default : Q := 0.01.
Definition min_samples_default : Z := 10.

(** [df['collision_cluster'] = cluster_in_chunks(df, chunk_size=10000)] *)
Definition collision_cluster (df : list collision) : result (list Z) :=
  cluster_in_chunks df 10000 eps_default min_samples_default.

(** *** The procedure in the words of the specification *)

(** Cluster each chunk on its own and concatenate the label sequences in
    the order of the chunks. *)
Definition spec_cluster_in_chunks (dataframe : list collision) (size : nat)
    (eps : Q) (min_samples : Z) : list Z :=
  concat (cluster_chunk eps min_samples <$> partition_chunks size dataframe).

Lemma partition_chunks_upto_enough {A : Type} (size fuel1 fuel2 : nat) (l : list A) :
  0 < size → length l ≤ fuel1 → length l ≤ fuel2 →
  partition_chunks_upto fuel1 size l = partition_chunks_upto fuel2 size l.
Proof.
  intros Hsize. revert fuel2 l.
  induction fuel1 as [|fuel1 IH]; intros fuel2 l H1 H2.
  - destruct l; simpl in *; [by destruct fuel2|lia].
  - destruct l as [|x l]; [by destruct fuel2|].
    destruct fuel2 as [|fuel2]; simpl in H2; [lia|].
    cbn [partition_chunks_upto]. f_equal.
    apply IH; rewrite length_drop; simpl in *; lia.
Qed.

Lemma partition_chunks_nil {A : Type} (size : nat) :
  partition_chunks size (@nil A) = [].
Proof. done. Qed.

Lemma partition_chunks_cons {A : Type} (size : nat) (l : list A) :
  0 < size → l ≠ [] →
  partition_chunks size l = take size l :: partition_chunks size (drop size l).
Proof.
  intros Hsize Hne. destruct l as [|x l]; [done|].
  unfold partition_chunks at 1. cbn [length partition_chunks_upto]. f_equal.
  apply partition_chunks_upto_enough; [done| |done].
  rewrite length_drop. simpl. lia.
Qed.

Lemma chunk_count_step (n size : nat) :
  0 < size → 0 < n → chunk_count n size = S (chunk_count (n - size) size).
Proof.
  intros Hsize Hn. destruct n as [|n]; [lia|]. simpl. f_equal.
  destruct (decide (S n ≤ size)) as [Hle|Hgt].
  - replace (S n - size) with 0 by lia. simpl. apply Nat.div_small. lia.
  - destruct (S n - size) as [|m] eqn:Hm; [lia|]. simpl.
    replace n with (m + 1 * size) by lia.
    rewrite Nat.div_add by lia. lia.
Qed.

(** The chunks are the slices that start at the multiples of the size. *)
Lemma partition_chunks_slices {A : Type} (size : nat) (l : list A) :
  0 < size →
  partition_chunks size l =
  (λ i, take size (drop (i * size) l)) <$> seq 0 (chunk_count (length l) size).
Proof.
  intros Hsize. remember (length l) as n eqn:Hn. revert l Hn.
  induction n as [n IH] using lt_wf_ind. intros l Hn.
  destruct (decide (l = [])) as [->|Hne]; [by subst n|].
  assert (0 < n) by (subst n; destruct l; [done|simpl; lia]).
  rewrite partition_chunks_cons, (chunk_count_step n) by done.
  cbn [seq fmap list_fmap]. rewrite Nat.mul_0_l, drop_0. f_equal.
  rewrite (IH (n - size)) by (try rewrite length_drop; lia).
  rewrite <- fmap_S_seq, <- list_fmap_compose.
  apply list_fmap_ext. intros _ i _. simpl.
  by rewrite drop_drop.
Qed.

Lemma concat_partition_chunks {A : Type} (size : nat) (l : list A) :
  0 < size → concat (partition_chunks size l) = l.
Proof.
  intros Hsize. remember (length l) as n eqn:Hn. revert l Hn.
  induction n as [n IH] using lt_wf_ind. intros l Hn.
  destruct (decide (l = [])) as [->|Hne]; [done|].
  assert (0 < n) by (subst n; destruct l; [done|simpl; lia]).
  rewrite partition_chunks_cons by done. simpl.
  rewrite (IH (n - size)) by (try rewrite length_drop; lia).
  apply take_drop.
Qed.

(** A chunk is never empty and never longer than the size, and only the
    last chunk can be shorter. *)
Lemma partition_chunks_lookup {A : Type} (size : nat) (l : list A) (j : nat)
    (chunk : list A) :
  0 < size →
  partition_chunks size l !! j = Some chunk →
  chunk = take size (drop (j * size) l) ∧
  j * size < length l ∧
  length chunk = Nat.min size (length l - j * size).
Proof.
  intros Hsize Hj. rewrite partition_chunks_slices in Hj by done.
  apply list_lookup_fmap_Some in Hj as (i & -> & Hi).
  apply lookup_seq in Hi as [-> Hlt]. simpl in *.
  split; [done|].
  rewrite length_take, length_drop. split; [|done].
  destruct (length l) as [|n]; simpl in Hlt; [lia|].
  assert (j ≤ n / size) as Hle by lia.
  pose proof (Nat.mul_le_mono_r _ _ size Hle).
  pose proof (Nat.Div0.mul_div_le n size). lia.
Qed.

Lemma range_from_zero (n : nat) (step : Z) :
  (0 < step)%Z →
  range 0 (Z.of_nat n) step =
  Ok ((λ i : nat, (0 + Z.of_nat i * step)%Z) <$> seq 0 (chunk_count n (Z.to_nat step))).
Proof.
  intros Hstep. unfold range, range_length.
  destruct (Z.eqb_spec step 0) as [?|_]; [lia|].
  destruct (Z.ltb_spec 0 step) as [_|?]; [|lia].
  do 3 f_equal. destruct n as [|n]; [done|].
  destruct (Z.ltb_spec 0 (Z.of_nat (S n))) as [_|?]; [|lia].
  replace (Z.of_nat (S n) - 0 - 1)%Z with (Z.of_nat n) by lia.
  rewrite <- (Z2Nat.id step) at 1 by lia.
  rewrite <- Nat2Z.inj_div. simpl. lia.
Qed.

Lemma foldl_extend {A B : Type} (f : B → list A) (init : list A) (l : list B) :
  foldl (λ acc x, acc ++ f x) init l = init ++ concat (f <$> l).
Proof.
  revert init. induction l as [|x l IH]; intros init; simpl.
  - by rewrite app_nil_r.
  - by rewrite IH, app_assoc.
Qed.

Lemma iloc_chunk {A : Type} (dataframe : list A) (i : nat) (chunk_size : Z) :
  (0 < chunk_size)%Z →
  iloc dataframe (0 + Z.of_nat i * chunk_size)
       (0 + Z.of_nat i * chunk_size + chunk_size) =
  take (Z.to_nat chunk_size) (drop (i * Z.to_nat chunk_size) dataframe).
Proof.
  intros Hsize. unfold iloc.
  assert (Z.to_nat (0 + Z.of_nat i * chunk_size) = i * Z.to_nat chunk_size) as ->.
  { rewrite Z.add_0_l, Z2Nat.inj_mul, Nat2Z.id by lia. done. }
  f_equal. rewrite Z2Nat.inj_add by lia.
  rewrite Z.add_0_l, Z2Nat.inj_mul, Nat2Z.id by lia. lia.
Qed.

(** The loop computes what the specification describes. *)
Lemma cluster_in_chunks_spec (dataframe : list collision) (chunk_size : Z)
    (eps : Q) (min_samples : Z) :
  (0 < chunk_size)%Z →
  cluster_in_chunks dataframe chunk_size eps min_samples =
  Ok (spec_cluster_in_chunks dataframe (Z.to_nat chunk_size) eps min_samples).
Proof.
  intros Hsize. unfold cluster_in_chunks, spec_cluster_in_chunks.
  rewrite range_from_zero by done. cbn [bind]. f_equal.
  rewrite foldl_extend, app_nil_l. f_equal.
  rewrite partition_chunks_slices by lia.
  rewrite <- !list_fmap_compose. apply list_fmap_ext. intros _ i _. simpl.
  by rewrite iloc_chunk.
Qed.

Lemma spec_cluster_in_chunks_cons (dataframe : list collision) (size : nat)
    (eps : Q) (min_samples : Z) :
  0 < size → dataframe ≠ [] →
  spec_cluster_in_chunks dataframe size eps min_samples =
  cluster_chunk eps min_samples (take size dataframe) ++
  spec_cluster_in_chunks (drop size dataframe) size eps min_samples.
Proof.
  intros Hsize Hne. unfold spec_cluster_in_chunks.
  by rewrite partition_chunks_cons.
Qed.

(** With a library that labels every sample, the concatenation has one
    label per row, and the label of row [i] is the one its own chunk gives
    it. *)
Lemma spec_cluster_in_chunks_rows (dataframe : list collision) (size : nat)
    (eps : Q) (min_samples : Z) :
  (∀ X, length (DBSCAN_fit_labels eps min_samples haversine X) = length X) →
  0 < size →
  length (spec_cluster_in_chunks dataframe size eps min_samples) = length dataframe ∧
  ∀ i, i < length dataframe →
    spec_cluster_in_chunks dataframe size eps min_samples !! i =
    cluster_chunk eps min_samples
      (take size (drop (i / size * size) dataframe)) !! (i mod size).
Proof.
  intros Hfit Hsize.
  assert (Hlen : ∀ chunk, length (cluster_chunk eps min_samples chunk) = length chunk).
  { intros chunk. unfold cluster_chunk, np_radians, coordinates_of.
    by rewrite Hfit, !length_fmap. }
  remember (length dataframe) as n eqn:Hn. revert dataframe Hn.
  induction n as [n IH] using lt_wf_ind. intros dataframe Hn.
  destruct (decide (dataframe = [])) as [->|Hne].
  { subst n. split; [done|]. simpl. lia. }
  assert (0 < n) by (subst n; destruct dataframe; [done|simpl; lia]).
  rewrite spec_cluster_in_chunks_cons by done.
  destruct (IH (n - size) ltac:(lia) (drop size dataframe)) as [IHlen IHrow].
  { rewrite length_drop. lia. }
  split.
  - rewrite length_app, Hlen, IHlen, length_take. lia.
  - intros i Hi. destruct (decide (i < size)) as [Hlt|Hge].
    + rewrite lookup_app_l by (rewrite Hlen, length_take; lia).
      by rewrite Nat.div_small, Nat.mod_small, Nat.mul_0_l, drop_0 by done.
    + rewrite lookup_app_r by (rewrite Hlen, length_take; lia).
      rewrite Hlen, length_take.
      replace (i - size `min` length dataframe) with (i - size) by lia.
      rewrite IHrow by lia. rewrite drop_drop.
      replace i with ((i - size) + 1 * size) at 3 4 by lia.
      rewrite Nat.div_add, Nat.Div0.mod_add by lia.
      do 4 f_equal. lia.
Qed.

(** C4: for a positive chunk size the procedure returns the labels of the
    contiguous chunks of that size, each clustered on its own by DBSCAN
    under the haversine metric on the coordinates in radians, concatenated
    in the order of the chunks; the chunks are the slices starting at the
    multiples of the size and together make up the frame; the call of the
    pipeline uses chunks of 10000 rows, eps 0.01 and min_samples 10; and
    the labels of a chunk are chunk-local: those of a first full chunk and
    those of the rows after it are computed without regard to each
    other. *)
Theorem chunked_clustering_is_concatenation (dataframe : list collision)
    (chunk_size : Z) (eps : Q) (min_samples : Z) :
  (0 < chunk_size)%Z →
  cluster_in_chunks dataframe chunk_size eps min_samples =
    Ok (concat (cluster_chunk eps min_samples <$>
                partition_chunks (Z.to_nat chunk_size) dataframe)) ∧
  concat (partition_chunks (Z.to_nat chunk_size) dataframe) = dataframe ∧
  (∀ j chunk,
     partition_chunks (Z.to_nat chunk_size) dataframe !! j = Some chunk →
     chunk = take (Z.to_nat chunk_size) (drop (j * Z.to_nat chunk_size) dataframe) ∧
     j * Z.to_nat chunk_size < length dataframe ∧
     length chunk =
       Nat.min (Z.to_nat chunk_size) (length dataframe - j * Z.to_nat chunk_size)) ∧
  (∀ chunk,
     cluster_chunk eps min_samples chunk =
     DBSCAN_fit_labels eps min_samples haversine
       ((λ r, (radians (latitude r), radians (longitude r))) <$> chunk)) ∧
  collision_cluster dataframe = cluster_in_chunks dataframe 10000 0.01 10 ∧
  (∀ first rest,
     length first = Z.to_nat chunk_size →
     cluster_in_chunks (first ++ rest) chunk_size eps min_samples =
     let* labels := cluster_in_chunks rest chunk_size eps min_samples in
     Ok (cluster_chunk eps min_samples first ++ labels)).
Proof.
  intros Hsize. assert (0 < Z.to_nat chunk_size) as Hpos by lia.
  split; [by apply cluster_in_chunks_spec|].
  split; [by apply concat_partition_chunks|].
  split; [intros j chunk; by apply partition_chunks_lookup|].
  split.
  { intros chunk. unfold cluster_chunk, np_radians, coordinates_of.
    by rewrite <- list_fmap_compose. }
  split; [done|].
  intros first rest Hfirst. rewrite !cluster_in_chunks_spec by done. cbn [bind].
  rewrite spec_cluster_in_chunks_cons; [|done|destruct first; [simpl in *; lia|done]].
  by rewrite take_app_length', drop_app_length'.
Qed.

(** C10: when the library labels every sample it is given, then for every
    frame and every positive chunk size the procedure returns a list with
    exactly one label per row, and the label at position [i] is the label
    that the chunk holding row [i] gives to that row, the shorter last
    chunk included. *)
Theorem cluster_in_chunks_one_label_per_row (dataframe : list collision)
    (chunk_size : Z) (eps : Q) (min_samples : Z) :
  (∀ X, length (DBSCAN_fit_labels eps min_samples haversine X) = length X) →
  (0 < chunk_size)%Z →
  ∃ labels,
    cluster_in_chunks dataframe chunk_size eps min_samples = Ok labels ∧
    length labels = length dataframe ∧
    ∀ i, i < length dataframe →
      let size := Z.to_nat chunk_size in
      let chunk := take size (drop (i / size * size) dataframe) in
      0 < length chunk ≤ size ∧ i mod size < length chunk ∧
      dataframe !! i = chunk !! (i mod size) ∧
      labels !! i = cluster_chunk eps min_samples chunk !! (i mod size).
Proof.
  intros Hfit Hsize. assert (0 < Z.to_nat chunk_size) as Hpos by lia.
  eexists. split; [by apply cluster_in_chunks_spec|].
  destruct (spec_cluster_in_chunks_rows dataframe (Z.to_nat chunk_size)
              eps min_samples Hfit Hpos) as [Hlen Hrow].
  split; [done|]. intros i Hi. cbn zeta.
  set (size := Z.to_nat chunk_size) in *.
  pose proof (Nat.div_mod_eq i size) as Hdm.
  pose proof (Nat.mod_upper_bound i size ltac:(lia)) as Hmod.
  rewrite length_take, length_drop.
  split; [lia|]. split; [lia|].
  split; [|by apply Hrow].
  rewrite lookup_take_lt, lookup_drop by done. f_equal. lia.
Qed.

End chunked.

Lemma chunked_clustering_is_concatenation_witness :
  (0 < 2)%Z ∧
  cluster_in_chunks radians_example all_noise three_rows 2 0.01 10 =
  Ok (concat (cluster_chunk radians_example all_noise 0.01 10 <$>
              partition_chunks 2 three_rows)).
Proof.
  assert (Hsize : (0 < 2)%Z) by lia.
  split; [exact Hsize|].
  exact (proj1 (chunked_clustering_is_concatenation radians_example all_noise
                  three_rows 2 0.01 10 Hsize)).
Defined.

Lemma cluster_in_chunks_one_label_per_row_witness :
  ∃ labels,
    cluster_in_chunks radians_example all_noise three_rows 2 0.01 10 = Ok labels ∧
    length labels = 3.
Proof.
  assert (Hfit : ∀ X, length (all_noise 0.01 10 haversine X) = length X).
  { intros X. unfold all_noise. apply length_fmap. }
  assert (Hsize : (0 < 2)%Z) by lia.
  destruct (cluster_in_chunks_one_label_per_row radians_example all_noise
              three_rows 2 0.01 10 Hfit Hsize) as (labels & Hrun & Hlen & _).
  exists labels. split; [exact Hrun|exact Hlen].
Defined.

(** The step must not be zero, and a negative chunk size gives no chunk. *)
Lemma cluster_in_chunks_bad_sizes :
  cluster_in_chunks radians_example all_noise three_rows 0 0.01 10 = Raise ValueError ∧
  cluster_in_chunks radians_example all_noise three_rows (-2) 0.01 10 = Ok [].
Proof. by vm_compute. Qed.

End Clustering.

(** ** Class balancing ([feature_engineering.py], step 8) *)

Module Balancing.

(** [_safe_indexing(a, indices)] of scikit-learn on a frame: the rows at
    the given positions, in the order of the positions. *)
Fixpoint safe_indexing {A : Type} (a : list A) (indices : list nat) : result (list A) :=
  match indices with
  | [] => Ok []
  | i :: indices' =>
      match a !! i with
      | None => Raise IndexError
      | Some row => let* rows := safe_indexing a indices' in Ok (row :: rows)
      end
  end.

(** An instance of the generator for the examples: the positions in
    reverse order. *)
Definition shuffle_reversed (seed : Z) (n : nat) : list nat := reverse (seq 0 n).

(** Three "Low" rows, one "Medium" row and one "High" row. *)
Definition five_rows : list collision :=
  [Severity.row_of_counts 0 0 0 0 0 0 0 0;
   Severity.scenario_row;
   Severity.row_of_counts 1 0 0 0 0 0 1 0;
   Severity.row_of_counts 2 1 0 0 0 0 2 1;
   Severity.row_of_counts 3 0 0 0 0 0 0 0].

Section balancing.

(** The rows of the engineered frame and their [severity_category]
    column. *)
Variable Row : Type.
Variable severity_category : Row → string.

(** [RandomState(seed).shuffle(np.arange(n))]: the positions [0 .. n-1]
    in the order the generator seeded with [seed] puts them. *)
Variable shuffle : Z → nat → list nat.

(** [sklearn.utils.resample(a, replace=False, n_samples=..., random_state=...)]:
    refuses to draw more rows than there are, and otherwise takes the rows
    at the first [n_samples] shuffled positions. *)
Definition resample (a : list Row) (n_samples : nat) (random_state : Z) : result (list Row) :=
  let n := length a in
  if (n <? n_samples)%nat then Raise ValueError
  else
    let indices := take n_samples (shuffle random_state n) in
    safe_indexing a indices.

Definition majority_class (df : list Row) : list Row :=
  filter (λ r, severity_category r = "Low") df.

Definition minority_classes (df : list Row) : list Row :=
  filter (λ r, severity_category r ≠ "Low") df.

Definition df_balanced (df : list Row) : result (list Row) :=
  let* majority_downsampled :=
    resample (majority_class df) (length (minority_classes df)) 42 in
  Ok (majority_downsampled ++ minority_classes df).

(** The generator returns a permutation of the positions. *)
Definition shuffle_permutes : Prop :=
  ∀ seed n, shuffle seed n ≡ₚ seq 0 n.

Lemma omap_lookup_seq {A : Type} (a : list A) :
  omap (λ i, a !! i) (seq 0 (length a)) = a.
Proof.
  induction a as [|x a IH]; [done|]. simpl. f_equal.
  rewrite <- IH at 2. rewrite <- fmap_S_seq.
  apply list_omap_ext. apply Forall2_fmap_l, Forall_Forall2_diag.
  by apply Forall_forall.
Qed.

Lemma safe_indexing_in_range {A : Type} (a : list A) (indices : list nat) :
  Forall (λ i, i < length a) indices →
  safe_indexing a indices = Ok (omap (λ i, a !! i) indices) ∧
  length (omap (λ i, a !! i) indices) = length indices.
Proof.
  induction 1 as [|i indices Hi _ [IHrun IHlen]]; [done|].
  apply lookup_lt_is_Some_2 in Hi as [row Hrow]. simpl.
  rewrite Hrow, IHrun. simpl. split; [done|]. f_equal. exact IHlen.
Qed.

Lemma omap_lookup_take {A : Type} (a : list A) (indices : list nat) (k : nat) :
  Forall (λ i, i < length a) indices →
  omap (λ i, a !! i) (take k indices) = take k (omap (λ i, a !! i) indices).
Proof.
  intros Hall. revert k.
  induction Hall as [|i indices Hi _ IH]; intros [|k]; try done.
  apply lookup_lt_is_Some_2 in Hi as [row Hrow]. simpl.
  rewrite Hrow. simpl. by rewrite IH.
Qed.

Lemma filter_all {A : Type} (P : A → Prop) `{!∀ x, Decision (P x)} (l : list A) :
  Forall P l → filter P l = l.
Proof.
  induction 1 as [|x l Hx _ IH]; [done|].
  by rewrite filter_cons_True, IH.
Qed.

Lemma filter_none {A : Type} (P : A → Prop) `{!∀ x, Decision (P x)} (l : list A) :
  Forall (λ x, ¬ P x) l → filter P l = [].
Proof.
  induction 1 as [|x l Hx _ IH]; [done|].
  by rewrite filter_cons_False.
Qed.

Lemma resample_refuses (a : list Row) (n_samples : nat) (random_state : Z) :
  length a < n_samples → resample a n_samples random_state = Raise ValueError.
Proof.
  intros Hlt. unfold resample.
  by destruct (Nat.ltb_spec (length a) n_samples); [|lia].
Qed.

(** Sampling without replacement: the sample has the requested size and
    is a sub-multiset of the frame. *)
Lemma resample_draws (a : list Row) (n_samples : nat) (random_state : Z) :
  shuffle_permutes → n_samples ≤ length a →
  ∃ sample,
    resample a n_samples random_state = Ok sample ∧
    length sample = n_samples ∧ sample ⊆+ a.
Proof.
  intros Hperm Hle. unfold resample.
  destruct (Nat.ltb_spec (length a) n_samples); [lia|].
  specialize (Hperm random_state (length a)).
  assert (Hrange : Forall (λ i, i < length a) (shuffle random_state (length a))).
  { rewrite Hperm. apply Forall_seq. lia. }
  destruct (safe_indexing_in_range a (take n_samples (shuffle random_state (length a))))
    as [Hrun Hlen]; [by apply Forall_take|].
  eexists. split; [exact Hrun|]. split.
  - rewrite Hlen, length_take, Hperm, length_seq. lia.
  - rewrite omap_lookup_take by done.
    apply submseteq_sublist_l.
    exists (omap (λ i, a !! i) (shuffle random_state (length a))).
    split; [apply sublist_take|].
    by rewrite Hperm, omap_lookup_seq.
Qed.

Lemma majority_of_minority (df : list Row) :
  majority_class (minority_classes df) = [].
Proof.
  unfold majority_class, minority_classes. apply filter_none, Forall_forall.
  by intros r [? _]%list_elem_of_filter.
Qed.

Lemma minority_of_minority (df : list Row) :
  minority_classes (minority_classes df) = minority_classes df.
Proof.
  unfold minority_classes. apply filter_all, Forall_forall.
  by intros r [? _]%list_elem_of_filter.
Qed.

(** C5, as the code has it: when the frame has at least as many "Low" rows
    as other rows, the balanced frame has exactly as many "Low" rows as the
    frame has other rows, its "Low" rows are drawn from those of the frame
    without replacement, and its other rows are those of the frame, in the
    same order; when the "Low" rows are fewer than the others, the
    resampling refuses with [ValueError] and there is no balanced frame. *)
Theorem downsampled_majority_matches_minorities (df : list Row) :
  shuffle_permutes →
  (length (minority_classes df) ≤ length (majority_class df) →
   ∃ balanced,
     df_balanced df = Ok balanced ∧
     length (majority_class balanced) = length (minority_classes df) ∧
     majority_class balanced ⊆+ majority_class df ∧
     minority_classes balanced = minority_classes df) ∧
  (length (majority_class df) < length (minority_classes df) →
   df_balanced df = Raise ValueError).
Proof.
  intros Hperm. split.
  - intros Hle. unfold df_balanced.
    destruct (resample_draws (majority_class df) (length (minority_classes df)) 42
                Hperm Hle) as (sample & -> & Hlen & Hsub).
    eexists. split; [done|].
    assert (Hlow : Forall (λ r, severity_category r = "Low") sample).
    { apply Forall_forall. intros r Hr.
      apply (elem_of_submseteq _ _ _ Hr) in Hsub.
      by apply list_elem_of_filter in Hsub as [? _]. }
    assert (majority_class (sample ++ minority_classes df) = sample) as ->.
    { unfold majority_class at 1. rewrite filter_app.
      fold (majority_class (minority_classes df)).
      by rewrite majority_of_minority, app_nil_r, filter_all. }
    split; [done|]. split; [done|].
    unfold minority_classes at 1. rewrite filter_app.
    fold (minority_classes (minority_classes df)).
    rewrite minority_of_minority, filter_none; [done|].
    eapply Forall_impl; [exact Hlow|]. by intros r -> ?.
  - intros Hlt. unfold df_balanced. by rewrite resample_refuses.
Qed.

End balancing.

Lemma shuffle_reversed_permutes : shuffle_permutes shuffle_reversed.
Proof. intros seed n. unfold shuffle_reversed. apply reverse_Permutation. Qed.

Lemma downsampled_majority_matches_minorities_witness :
  shuffle_permutes shuffle_reversed ∧
  length (minority_classes collision Severity.severity_category five_rows) ≤
    length (majority_class collision Severity.severity_category five_rows) ∧
  ∃ balanced,
    df_balanced collision Severity.severity_category shuffle_reversed five_rows =
      Ok balanced ∧
    length (majority_class collision Severity.severity_category balanced) = 2.
Proof.
  split; [exact shuffle_reversed_permutes|].
  assert (Hle : length (minority_classes collision Severity.severity_category five_rows) ≤
                length (majority_class collision Severity.severity_category five_rows)).
  { vm_compute. lia. }
  split; [exact Hle|].
  destruct (proj1 (downsampled_majority_matches_minorities collision
                     Severity.severity_category shuffle_reversed five_rows
                     shuffle_reversed_permutes) Hle)
    as (balanced & Hrun & Hlen & _).
  exists balanced. split; [exact Hrun|exact Hlen].
Defined.

(** C5 as stated fails on a frame whose "Low" rows are fewer than its other
    rows: on the frame made of the one "Medium" row of the scenario there
    is no "Low" row to draw, the resampling raises [ValueError], and no
    balanced frame with one "Low" row comes out. *)
Lemma no_balanced_frame_when_low_is_scarce :
  Severity.severity_category Severity.scenario_row = "Medium" ∧
  majority_class collision Severity.severity_category [Severity.scenario_row] = [] ∧
  minority_classes collision Severity.severity_category [Severity.scenario_row] =
    [Severity.scenario_row] ∧
  df_balanced collision Severity.severity_category shuffle_reversed
    [Severity.scenario_row] = Raise ValueError ∧
  ¬ ∃ balanced,
      df_balanced collision Severity.severity_category shuffle_reversed
        [Severity.scenario_row] = Ok balanced ∧
      length (majority_class collision Severity.severity_category balanced) =
      length (minority_classes collision Severity.severity_category
                [Severity.scenario_row]).
Proof.
  assert (Hrun : df_balanced collision Severity.severity_category shuffle_reversed
                   [Severity.scenario_row] = Raise ValueError) by by vm_compute.
  split; [by vm_compute|]. split; [by vm_compute|]. split; [by vm_compute|].
  split; [exact Hrun|].
  intros (balanced & Hok & _). rewrite Hrun in Hok. discriminate.
Qed.

End Balancing.

(** ** Location grid and crash rate ([feature_engineering.py], steps 5 and 6) *)

Module Location.

(** Rounding to the nearest integer, ties to the even one, as [np.round]
    does. *)
Definition round_half_even (x : Q) : Z :=
  let f := Qfloor x in
  match (x - inject_Z f ?= 1 # 2)%Q with
  | Lt => f
  | Gt => (f + 1)%Z
  | Eq => if Z.even f then f else (f + 1)%Z
  end.

(** [Series.round(3)]: the value is kept as its number of thousandths. *)
Definition round3 (x : Q) : Z := round_half_even (x * 1000).

Definition digit_char (d : nat) : string :=
  String (ascii_of_nat (48 + d)) EmptyString.

(** The decimals of [f] thousandths, without trailing zeros. *)
Definition decimals (f : nat) : string :=
  let d2 := f / 100 in
  let d1 := (f / 10) mod 10 in
  let d0 := f mod 10 in
  if decide (d0 ≠ 0) then digit_char d2 +:+ digit_char d1 +:+ digit_char d0
  else if decide (d1 ≠ 0) then digit_char d2 +:+ digit_char d1
  else digit_char d2.

(** [astype(str)] on a coordinate rounded to three decimals: the shortest
    decimal that denotes the float, with the sign of the value that was
    rounded (a negative value that rounds to zero prints as "-0.0"). *)
Definition str_rounded (x : Q) : string :=
  let m := Z.abs_nat (round3 x) in
  (match (x ?= 0)%Q with Lt => "-" | _ => "" end) +:+
  pretty (m / 1000) +:+ "." +:+ decimals (m mod 1000).

Definition lat_rounded (r : collision) : Z := round3 (latitude r).
Definition lon_rounded (r : collision) : Z := round3 (longitude r).

Definition location_grid (r : collision) : string :=
  str_rounded (latitude r) +:+ ", " +:+ str_rounded (longitude r).

(** *** [groupby('location_grid')['severity_score'].transform('mean')] *)

(** The pass over the frame: the sum and the count of the scores of each
    cell. *)
Definition accumulate (groups : gmap string (Z * nat)) (r : collision) :
    gmap string (Z * nat) :=
  let '(total, count) := default (0%Z, 0) (groups !! location_grid r) in
  <[location_grid r := ((total + Severity.severity_score r)%Z, S count)]> groups.

Definition group_totals (df : list collision) : gmap string (Z * nat) :=
  foldl accumulate ∅ df.

Definition group_mean (totals : Z * nat) : Q :=
  (inject_Z totals.1 / inject_Z (Z.of_nat totals.2))%Q.

(** The mean of each cell, broadcast to the rows of the cell; a row whose
    cell has no group would get a missing value. *)
Definition crash_rate (df : list collision) : list (option Q) :=
  let groups := group_totals df in
  (λ r, group_mean <$> groups !! location_grid r) <$> df.

(** *** The crash rate in the words of the specification *)

(** The arithmetic mean of a sequence of scores. *)
Definition arithmetic_mean (scores : list Z) : Q :=
  (inject_Z (foldr Z.add 0%Z scores) / inject_Z (Z.of_nat (length scores)))%Q.

(** The records of the frame that share the cell of [r]. *)
Definition same_cell (df : list collision) (r : collision) : list collision :=
  filter (λ r', location_grid r' = location_grid r) df.

(** What the pass adds to the entry of a cell: the scores of the rows of
    that cell. *)
Definition add_scores (entry : option (Z * nat)) (scores : list Z) : option (Z * nat) :=
  match scores with
  | [] => entry
  | _ :: _ =>
      let '(total, count) := default (0%Z, 0) entry in
      Some ((total + foldr Z.add 0%Z scores)%Z, count + length scores)
  end.

Lemma round_half_even_near (x : Q) :
  (inject_Z (round_half_even x) - (1 # 2) <= x)%Q ∧
  (x <= inject_Z (round_half_even x) + (1 # 2))%Q.
Proof.
  unfold round_half_even.
  pose proof (Qfloor_le x) as Hlo. pose proof (Qlt_floor x) as Hhi.
  rewrite inject_Z_plus in Hhi.
  change (inject_Z 1) with 1%Q in Hhi.
  destruct (Qcompare_spec (x - inject_Z (Qfloor x)) (1 # 2)) as [Heq|Hlt|Hgt].
  - destruct (Z.even (Qfloor x)); rewrite ?inject_Z_plus;
      change (inject_Z 1) with 1%Q; split; lra.
  - split; lra.
  - rewrite inject_Z_plus. change (inject_Z 1) with 1%Q. split; lra.
Qed.

Lemma foldl_accumulate_lookup (groups : gmap string (Z * nat))
    (df : list collision) (cell : string) :
  foldl accumulate groups df !! cell =
  add_scores (groups !! cell)
    (Severity.severity_score <$> filter (λ r, location_grid r = cell) df).
Proof.
  revert groups. induction df as [|r df IH]; intros groups; [done|].
  cbn [foldl]. rewrite IH. unfold accumulate.
  destruct (decide (location_grid r = cell)) as [Hcell|Hcell].
  - rewrite filter_cons_True by done. rewrite Hcell.
    destruct (default (0%Z, 0) (groups !! cell)) as [total count] eqn:Hentry.
    rewrite lookup_insert_eq. cbn [fmap list_fmap add_scores]. rewrite Hentry.
    destruct (filter _ df) as [|r' rows]; cbn [fmap list_fmap add_scores default foldr length].
    + do 2 f_equal; lia.
    + do 2 f_equal; lia.
  - rewrite filter_cons_False by done.
    destruct (default (0%Z, 0) (groups !! location_grid r)) as [total count].
    by rewrite lookup_insert_ne.
Qed.

Lemma group_totals_lookup (df : list collision) (r : collision) :
  r ∈ df →
  group_totals df !! location_grid r =
  Some (foldr Z.add 0%Z (Severity.severity_score <$> same_cell df r),
        length (same_cell df r)).
Proof.
  intros Hin. unfold group_totals. rewrite foldl_accumulate_lookup, lookup_empty.
  fold (same_cell df r).
  assert (r ∈ same_cell df r) as Hr by by apply list_elem_of_filter.
  destruct (same_cell df r) as [|r' rows]; [by apply elem_of_nil in Hr|].
  cbn [fmap list_fmap add_scores default].
  rewrite Z.add_0_l, Nat.add_0_l. cbn [length]. by rewrite length_fmap.
Qed.

(** C8: the key of a row is built from its latitude and its longitude,
    each rounded to the nearest thousandth; the crash rate of a row is the
    arithmetic mean of the severity scores of all the rows of the frame
    that share its key; and the rows of one cell all carry the same crash
    rate. *)
Theorem crash_rate_is_cell_mean (df : list collision) :
  (∀ r,
     location_grid r =
       str_rounded (latitude r) +:+ ", " +:+ str_rounded (longitude r) ∧
     (inject_Z (lat_rounded r) - (1 # 2) <= latitude r * 1000)%Q ∧
     (latitude r * 1000 <= inject_Z (lat_rounded r) + (1 # 2))%Q ∧
     (inject_Z (lon_rounded r) - (1 # 2) <= longitude r * 1000)%Q ∧
     (longitude r * 1000 <= inject_Z (lon_rounded r) + (1 # 2))%Q) ∧
  location_grid Severity.scenario_row = "40.713, -74.006" ∧
  length (crash_rate df) = length df ∧
  (∀ i r,
     df !! i = Some r →
     crash_rate df !! i =
     Some (Some (arithmetic_mean (Severity.severity_score <$> same_cell df r)))) ∧
  (∀ i j r r',
     df !! i = Some r → df !! j = Some r' →
     location_grid r = location_grid r' →
     crash_rate df !! i = crash_rate df !! j).
Proof.
  assert (Hrow : ∀ i r, df !! i = Some r →
    crash_rate df !! i =
    Some (Some (arithmetic_mean (Severity.severity_score <$> same_cell df r)))).
  { intros i r Hi. unfold crash_rate. rewrite list_lookup_fmap, Hi. cbn [fmap option_fmap option_map].
    rewrite group_totals_lookup by by eapply list_elem_of_lookup_2.
    cbn. unfold group_mean, arithmetic_mean. cbn [fst snd].
    by rewrite length_fmap. }
  split; [|split; [by vm_compute|split; [|split]]].
  - intros r. split; [done|]. unfold lat_rounded, lon_rounded, round3.
    destruct (round_half_even_near (latitude r * 1000)).
    destruct (round_half_even_near (longitude r * 1000)). done.
  - unfold crash_rate. apply length_fmap.
  - exact Hrow.
  - intros i j r r' Hi Hj Hcell. rewrite (Hrow i r Hi), (Hrow j r' Hj).
    unfold same_cell. by rewrite Hcell.
Qed.

End Location.

(** ** Alignment of one input row with the model's features ([app.py]) *)

Module Alignment.

(** *** The string methods the function calls *)

(** [s.startswith(p)] *)
Fixpoint startswith (s p : string) {struct p} : bool :=
  match p with
  | EmptyString => true
  | String a p' =>
      match s with
      | EmptyString => false
      | String b s' => if decide (a = b) then startswith s' p' else false
      end
  end.

(** [s.split(sep)] for a separator that is not empty: the text is read
    from the left, and each occurrence of the separator that does not
    overlap the one before it ends a field. [skip] counts the characters
    of an occurrence that are still to be passed over. *)
Fixpoint split_from (sep : string) (skip : nat) (s : string) : list string :=
  match s with
  | EmptyString => [EmptyString]
  | String c s' =>
      match skip with
      | S k => split_from sep k s'
      | O =>
          if startswith s sep
          then EmptyString :: split_from sep (String.length sep - 1) s'
          else match split_from sep 0 s' with
               | field :: fields => String c field :: fields
               | [] => [String c EmptyString]
               end
      end
  end.

Definition str_split (s sep : string) : list string := split_from sep 0 s.

(** The text before and the text after the last occurrence of the
    character [sep], when there is one. *)
Fixpoint rsplit_once (sep : ascii) (s : string) : option (string * string) :=
  match s with
  | EmptyString => None
  | String c s' =>
      match rsplit_once sep s' with
      | Some (before, after) => Some (String c before, after)
      | None => if decide (c = sep) then Some (EmptyString, s') else None
      end
  end.

(** [s.rsplit(sep, 1)] for a separator of one character. *)
Definition str_rsplit1 (s : string) (sep : ascii) : list string :=
  match rsplit_once sep s with
  | Some (before, after) => [before; after]
  | None => [s]
  end.

(** [l[i]] and [l[-1]] on a list. *)
Definition list_index {A : Type} (l : list A) (i : nat) : result A :=
  match l !! i with
  | Some x => Ok x
  | None => Raise IndexError
  end.

Definition list_last {A : Type} (l : list A) : result A :=
  match last l with
  | Some x => Ok x
  | None => Raise IndexError
  end.

(** [a, b = l]: the list must have exactly two elements. *)
Definition unpack2 {A : Type} (l : list A) : result (A * A) :=
  match l with
  | [a; b] => Ok (a, b)
  | _ => Raise ValueError
  end.

(** *** Frames of one row *)

(** The cells of the input row before they are turned into strings. *)
Inductive cell : Type :=
  | Str (s : string)
  | Int (n : Z)
  | Float (x : Q).

(** [frame[column]] on a frame of one row: [KeyError] when the column is
    missing. *)
Definition column_cell {V : Type} (frame : gmap string V) (column : string) : result V :=
  match frame !! column with
  | Some v => Ok v
  | None => Raise KeyError
  end.

(** [pd.DataFrame(0, index=[0], columns=feature_names, dtype='float64')] *)
Definition zeros (feature_names : list string) : gmap string Q :=
  foldr (λ f frame, <[f := 0%Q]> frame) ∅ feature_names.

(** [for x in xs: body], with the frame as the state of the loop. *)
Fixpoint for_each {S X : Type} (body : S → X → result S) (xs : list X) (s : S) : result S :=
  match xs with
  | [] => Ok s
  | x :: xs' => let* s' := body s x in for_each body xs' s'
  end.

(** *** How a feature name is read *)

(** The column of the input that a numerical feature is copied from. *)
Definition source_column (num_feature : string) : option string :=
  str_split num_feature "__" !! 1.

(** The column of the input that a one-hot feature belongs to (its
    group), and the value of that column that the feature stands for. *)
Definition onehot_column (cat_feature : string) : option string :=
  match str_split cat_feature "__" with
  | [_; category_name] => head (str_rsplit1 category_name "_")
  | _ => None
  end.

Definition onehot_value (cat_feature : string) : option string :=
  last (str_split cat_feature "_").

(** A name of the form [cat__<column>_<value>], as the one-hot encoder
    writes it: one separator ["__"], after the prefix, and an underscore
    between the column and the value. *)
Definition onehot_named (f : string) : Prop :=
  ∃ category_name column value,
    str_split f "__" = ["cat"; category_name] ∧
    rsplit_once "_" category_name = Some (column, value).

(** *** An instance of the conversions for the examples *)

(** The leading decimal digits of a string: their value, their number and
    the rest of the string. *)
Fixpoint read_digits_all (acc : Z) (count : nat) (s : string) : Z * nat * string :=
  match s with
  | EmptyString => (acc, count, s)
  | String c s' =>
      match Temporal.digit c with
      | Some d => read_digits_all (10 * acc + d)%Z (S count) s'
      | None => (acc, count, s)
      end
  end.

(** [float(s)] on a plain decimal numeral, with an optional sign and an
    optional fraction. *)
Definition float_decimal (s : string) : option Q :=
  let '(negative, s) :=
    match s with
    | String "-" s' => (true, s')
    | _ => (false, s)
    end in
  let sign := if negative : bool then (-1)%Z else 1%Z in
  let '(whole, n, rest) := read_digits_all 0 0 s in
  if decide (n = 0) then None
  else
    match rest with
    | EmptyString => Some (inject_Z (sign * whole))
    | String "." rest' =>
        let '(fraction, k, rest'') := read_digits_all 0 0 rest' in
        match rest'' with
        | EmptyString =>
            Some (Qred ((sign * (whole * 10 ^ Z.of_nat k + fraction))%Z #
                        Z.to_pos (10 ^ Z.of_nat k)))
        | _ => None
        end
    | _ => None
    end.

(** [str(x)] on a float with at most three decimals. *)
Definition str_decimal (x : Q) : string := Location.str_rounded x.

(** The feature names of a small model and an input row for it. *)
Definition example_features : list string :=
  ["num__latitude"; "num__longitude"; "num__crash_rate";
   "cat__borough_Manhattan"; "cat__borough_Queens";
   "cat__month_3"; "cat__month_4";
   "cat__day_of_week_Sunday"; "cat__vehicle_category_Passenger Vehicle"].

Definition example_input : gmap string cell :=
  list_to_map [("borough", Str "Manhattan"); ("month", Int 3);
               ("latitude", Float 40.713); ("crash_rate", Float 2.5);
               ("day_of_week", Str "Monday")].

(** One one-hot group and an input row that has its column. *)
Definition borough_features : list string :=
  ["cat__borough_Manhattan"; "cat__borough_Queens"].

Definition borough_input : gmap string cell := {["borough" := Str "Manhattan"]}.

Section alignment.

(** The built-in conversions of Python: [float(s)], which has no value
    on a string that is not a number, and [str(x)] on a float. *)
Variable py_float : string → option Q.
Variable py_str : Q → string.

(** [float(s)], with the [ValueError] it raises where it has no value. *)
Definition float_of (s : string) : result Q :=
  match py_float s with
  | Some x => Ok x
  | None => Raise ValueError
  end.

(** [input_data.astype(str)] on one cell. *)
Definition astype_str (c : cell) : string :=
  match c with
  | Str s => s
  | Int n => pretty n
  | Float x => py_str x
  end.

(** The body of the first loop, inside its [try]. *)
Definition num_body (input_data : gmap string string) (aligned_input : gmap string Q)
    (num_feature : string) : result (gmap string Q) :=
  let* feature_name := list_index (str_split num_feature "__") 1 in
  let* value := column_cell input_data feature_name in
  let* x := float_of value in
  Ok (<[num_feature := x]> aligned_input).

(** The body of the second loop, inside its [try]. *)
Definition cat_body (input_data : gmap string string) (aligned_input : gmap string Q)
    (cat_feature : string) : result (gmap string Q) :=
  let* (prefix, category_name) := unpack2 (str_split cat_feature "__") in
  let* column_name := list_index (str_rsplit1 category_name "_") 0 in
  if bool_decide (column_name ∈ dom input_data) then
    let* value := column_cell input_data column_name in
    let* category := list_last (str_split cat_feature "_") in
    if decide (value = category)
    then Ok (<[cat_feature := 1%Q]> aligned_input)
    else Ok aligned_input
  else Ok aligned_input.

Definition create_aligned_input (input_data : gmap string cell)
    (feature_names : list string) : result (gmap string Q) :=
  let aligned_input := zeros feature_names in
  let input_data := astype_str <$> input_data in
  let* aligned_input :=
    for_each (λ aligned_input num_feature,
                try_except (num_body input_data aligned_input num_feature)
                  KeyError (Ok aligned_input))
      (filter (λ f, startswith f "num__" = true) feature_names) aligned_input in
  let* aligned_input :=
    for_each (λ aligned_input cat_feature,
                try_except (cat_body input_data aligned_input cat_feature)
                  KeyError (Ok aligned_input))
      (filter (λ f, startswith f "cat__" = true) feature_names) aligned_input in
  Ok aligned_input.

(** [aligned_input.values]: the row as a vector, in the order of the
    feature names. *)
Definition values (feature_names : list string) (aligned_input : gmap string Q) :
    list (option Q) :=
  (λ f, aligned_input !! f) <$> feature_names.

(** The aligned frame given back as an input row. *)
Definition as_input (aligned_input : gmap string Q) : gmap string cell :=
  Float <$> aligned_input.

(** *** What the loops write *)

(** The number copied into a numerical feature: the cell of its source
    column, when the input has that column and the cell is a number. *)
Definition copied (input_data : gmap string string) (num_feature : string) : option Q :=
  name ← source_column num_feature;
  value ← input_data !! name;
  py_float value.

(** The input has the column of the one-hot feature, and its cell is the
    value the feature stands for. *)
Definition matched (input_data : gmap string string) (cat_feature : string) : bool :=
  match onehot_column cat_feature, onehot_value cat_feature with
  | Some column, Some value => bool_decide (input_data !! column = Some value)
  | _, _ => false
  end.

Definition aligned_cell (input_data : gmap string string) (f : string) : Q :=
  if startswith f "num__" then default 0%Q (copied input_data f)
  else if startswith f "cat__" then (if matched input_data f then 1%Q else 0%Q)
  else 0%Q.

(** *** Facts about the string methods *)

Lemma append_nil (b : string) : EmptyString +:+ b = b.
Proof. reflexivity. Qed.

Lemma append_cons (x : ascii) (a b : string) :
  String x a +:+ b = String x (a +:+ b).
Proof. reflexivity. Qed.

Lemma append_assoc (a b c : string) : (a +:+ b) +:+ c = a +:+ (b +:+ c).
Proof.
  induction a as [|x a IH]; [done|]. rewrite !append_cons. by rewrite IH.
Qed.

Lemma startswith_append (s p : string) :
  startswith s p = true → ∃ rest, s = p +:+ rest.
Proof.
  revert s. induction p as [|c p IH]; intros s Hp.
  - by exists s.
  - destruct s as [|c' s]; [done|]. cbn [startswith] in Hp.
    destruct (decide (c = c')) as [->|]; [|done].
    destruct (IH s Hp) as [rest ->]. by exists rest.
Qed.


Lemma split_from_nonempty (sep : string) (skip : nat) (s : string) :
  split_from sep skip s ≠ [].
Proof.
  revert skip. induction s as [|c s IH]; intros skip; [done|].
  destruct skip as [|k]; [|apply IH]. cbn [split_from].
  destruct (startswith (String c s) sep); [done|].
  by destruct (split_from sep 0 s).
Qed.

(** A split into one field found no separator: the field is the text. *)
Lemma split_from_single (sep s field : string) :
  split_from sep 0 s = [field] → field = s.
Proof.
  revert field. induction s as [|c s IH]; intros field; [by intros [= <-]|].
  cbn [split_from]. destruct (startswith (String c s) sep).
  - intros [= _ Hrest]. by apply split_from_nonempty in Hrest.
  - destruct (split_from sep 0 s) as [|field' fields] eqn:Hs;
      [by apply split_from_nonempty in Hs|].
    intros [= <- ->]. by rewrite (IH field').
Qed.

Lemma rsplit_once_Some (sep : ascii) (s before after : string) :
  rsplit_once sep s = Some (before, after) →
  s = before +:+ String sep after ∧ rsplit_once sep after = None.
Proof.
  revert before. induction s as [|c s IH]; intros before; [done|].
  cbn [rsplit_once]. destruct (rsplit_once sep s) as [[b a]|] eqn:Hs.
  - intros [= <- <-]. destruct (IH b eq_refl) as [-> Hnone]. done.
  - destruct (decide (c = sep)) as [->|]; [|done]. by intros [= <- <-].
Qed.

Lemma rsplit_once_append (sep : ascii) (p v : string) :
  rsplit_once sep (p +:+ String sep v) ≠ None.
Proof.
  induction p as [|c p IH]; rewrite ?append_nil, ?append_cons; cbn [rsplit_once].
  - destruct (rsplit_once sep v) as [[] |]; [done|]. by rewrite decide_True.
  - destruct (rsplit_once sep (p +:+ String sep v)) as [[] |]; done.
Qed.

Lemma prefix_char (sep c : ascii) (s : string) :
  startswith (String c s) (String sep EmptyString) = bool_decide (sep = c).
Proof.
  cbn [startswith]. destruct (decide (sep = c)) as [->|Hne].
  - by rewrite bool_decide_true.
  - by rewrite bool_decide_false.
Qed.

(** A text without the character is one field. *)
Lemma split_char_absent (sep : ascii) (v : string) :
  rsplit_once sep v = None → split_from (String sep EmptyString) 0 v = [v].
Proof.
  induction v as [|c v IH]; [done|]. cbn [rsplit_once split_from].
  destruct (rsplit_once sep v) as [[] |]; [done|].
  destruct (decide (c = sep)) as [|Hne]; [done|]. intros _.
  rewrite prefix_char, bool_decide_false by done. by rewrite IH.
Qed.

(** The last field of a split on a character is the text after its last
    occurrence. *)
Lemma split_char_last (sep : ascii) (p v : string) :
  rsplit_once sep v = None →
  last (split_from (String sep EmptyString) 0 (p +:+ String sep v)) = Some v.
Proof.
  intros Hv. induction p as [|c p IH].
  - rewrite append_nil. cbn [split_from]. rewrite prefix_char, bool_decide_true by done.
    cbn [String.length Nat.sub]. by rewrite split_char_absent.
  - rewrite append_cons. cbn [split_from]. rewrite prefix_char.
    destruct (bool_decide (sep = c)).
    + cbn [String.length Nat.sub].
      destruct (split_from _ 0 (p +:+ String sep v)) as [|field fields] eqn:Hs;
        [by apply split_from_nonempty in Hs|]. done.
    + destruct (split_from _ 0 (p +:+ String sep v)) as [|field fields] eqn:Hs;
        [by apply split_from_nonempty in Hs|].
      destruct fields as [|field' fields]; [|done].
      apply split_from_single in Hs. simpl in IH. injection IH as ->.
      pose proof (rsplit_once_append sep p v) as Hne. by rewrite <- Hs in Hne.
Qed.

Lemma for_each_writes (step : gmap string Q → string → result (gmap string Q))
    (value : string → option Q) (features : list string) (frame : gmap string Q) :
  (∀ m f, f ∈ features →
     step m f = Ok (match value f with Some v => <[f := v]> m | None => m end)) →
  ∃ frame',
    for_each step features frame = Ok frame' ∧
    ∀ k, frame' !! k =
         if decide (k ∈ features)
         then match value k with Some v => Some v | None => frame !! k end
         else frame !! k.
Proof.
  revert frame. induction features as [|f features IH]; intros frame Hstep.
  - exists frame. split; [done|]. intros k. rewrite decide_False; [done|].
    apply not_elem_of_nil.
  - cbn [for_each]. rewrite Hstep by apply list_elem_of_here. cbn [bind].
    destruct (IH (match value f with Some v => <[f := v]> frame | None => frame end))
      as (frame' & Hrun & Hlookup).
    { intros m g Hg. apply Hstep. by apply list_elem_of_further. }
    exists frame'. split; [done|]. intros k. rewrite Hlookup.
    assert (Hf : value k = None ∨ k ≠ f →
            (match value f with Some v => <[f := v]> frame | None => frame end) !! k =
            frame !! k).
    { intros [Hnone|Hne].
      - destruct (decide (k = f)) as [->|Hne]; [by rewrite Hnone|].
        destruct (value f); [by rewrite lookup_insert_ne|done].
      - destruct (value f); [by rewrite lookup_insert_ne|done]. }
    destruct (decide (k ∈ features)) as [Hin|Hnin].
    + rewrite decide_True by by apply list_elem_of_further.
      destruct (value k) as [v|] eqn:Hk; [done|]. apply Hf. by left.
    + destruct (decide (k = f)) as [->|Hne].
      * rewrite decide_True by apply list_elem_of_here.
        destruct (value f); [by rewrite lookup_insert_eq|done].
      * rewrite decide_False by (by intros [?|?]%elem_of_cons).
        apply Hf. by right.
Qed.

Lemma zeros_lookup (feature_names : list string) (k : string) :
  zeros feature_names !! k = if decide (k ∈ feature_names) then Some 0%Q else None.
Proof.
  induction feature_names as [|f feature_names IH]; cbn [zeros foldr].
  - rewrite lookup_empty, decide_False; [done|]. apply not_elem_of_nil.
  - fold (zeros feature_names). destruct (decide (k = f)) as [->|Hne].
    + rewrite lookup_insert_eq, decide_True; [done|]. apply list_elem_of_here.
    + rewrite lookup_insert_ne, IH by done.
      destruct (decide (k ∈ feature_names)) as [Hin|Hnin].
      * rewrite decide_True; [done|]. by apply list_elem_of_further.
      * rewrite decide_False; [done|]. by intros [?|?]%elem_of_cons.
Qed.

Lemma source_column_defined (f : string) :
  startswith f "num__" = true → is_Some (source_column f).
Proof.
  intros [rest ->]%startswith_append. unfold source_column, str_split.
  change (split_from "__" 0 ("num__" +:+ rest))
    with ("num" :: split_from "__" 0 rest).
  destruct (split_from "__" 0 rest) as [|name fields] eqn:Hs;
    [by apply split_from_nonempty in Hs|]. by exists name.
Qed.

(** A one-hot name is the prefix, its column, an underscore and its
    value. *)
Lemma onehot_named_parts (f : string) :
  startswith f "cat__" = true → onehot_named f →
  ∃ column value,
    onehot_column f = Some column ∧ onehot_value f = Some value ∧
    f = "cat__" +:+ column +:+ "_" +:+ value.
Proof.
  intros [rest ->]%startswith_append (category_name & column & value & Hsplit & Hr).
  unfold str_split in Hsplit.
  change (split_from "__" 0 ("cat__" +:+ rest))
    with ("cat" :: split_from "__" 0 rest) in Hsplit.
  injection Hsplit as Hrest. pose proof Hrest as Hone.
  apply split_from_single in Hrest as ->.
  destruct (rsplit_once_Some _ _ _ _ Hr) as [-> Hvalue].
  exists column, value. split; [|split; [|done]].
  - unfold onehot_column, str_split.
    change (split_from "__" 0 ("cat__" +:+ column +:+ String "_" value))
      with ("cat" :: split_from "__" 0 (column +:+ String "_" value)).
    rewrite Hone. unfold str_rsplit1. by rewrite Hr.
  - unfold onehot_value, str_split.
    change ("cat__" +:+ column +:+ String "_" value)
      with (("cat__" +:+ column) +:+ String "_" value).
    by apply split_char_last.
Qed.

Lemma num_iteration (input_data : gmap string string) (aligned_input : gmap string Q)
    (f : string) :
  startswith f "num__" = true →
  (∀ name value,
     source_column f = Some name → input_data !! name = Some value →
     is_Some (py_float value)) →
  try_except (num_body input_data aligned_input f) KeyError (Ok aligned_input) =
  Ok (match copied input_data f with
      | Some x => <[f := x]> aligned_input
      | None => aligned_input
      end).
Proof.
  intros Hnum Hfloat. destruct (source_column_defined f Hnum) as [name Hname].
  unfold num_body, copied, list_index. fold (source_column f). rewrite Hname.
  cbn [bind mbind option_bind]. unfold column_cell.
  destruct (input_data !! name) as [value|] eqn:Hvalue; [|done].
  destruct (Hfloat name value Hname Hvalue) as [x Hx].
  cbn [bind mbind option_bind]. unfold float_of. by rewrite Hx.
Qed.

Lemma cat_iteration (input_data : gmap string string) (aligned_input : gmap string Q)
    (f : string) :
  onehot_named f →
  try_except (cat_body input_data aligned_input f) KeyError (Ok aligned_input) =
  Ok (if matched input_data f then <[f := 1%Q]> aligned_input else aligned_input).
Proof.
  intros (category_name & column & value & Hsplit & Hr).
  unfold cat_body, matched, onehot_column, onehot_value, str_rsplit1.
  rewrite Hsplit, Hr. cbn [unpack2 bind]. rewrite Hr.
  cbn [bind list_index lookup list_lookup head].
  destruct (last (str_split f "_")) as [category|] eqn:Hlast.
  2:{ apply last_None in Hlast. by apply split_from_nonempty in Hlast. }
  unfold list_last, column_cell. rewrite Hlast.
  destruct (input_data !! column) as [v|] eqn:Hv.
  - rewrite (bool_decide_true (column ∈ dom input_data))
      by (apply elem_of_dom; by exists v).
    cbn [bind]. destruct (decide (v = category)) as [->|Hne].
    + by rewrite bool_decide_true.
    + rewrite bool_decide_false; [done|]. by intros [= ?].
  - rewrite (bool_decide_false (column ∈ dom input_data))
      by (rewrite elem_of_dom, Hv; by intros [? ?]).
    by rewrite bool_decide_false.
Qed.

Lemma num_is_not_cat (f : string) :
  startswith f "num__" = true → startswith f "cat__" = false.
Proof. by intros [rest ->]%startswith_append. Qed.

(** The cells of the aligned frame, for names read as the loops read
    them. *)
Lemma create_aligned_input_cells (input_data : gmap string cell)
    (feature_names : list string) :
  (∀ f, f ∈ feature_names → startswith f "cat__" = true → onehot_named f) →
  (∀ f name value,
     f ∈ feature_names → startswith f "num__" = true →
     source_column f = Some name →
     (astype_str <$> input_data) !! name = Some value →
     is_Some (py_float value)) →
  ∃ aligned_input,
    create_aligned_input input_data feature_names = Ok aligned_input ∧
    ∀ k, aligned_input !! k =
         if decide (k ∈ feature_names)
         then Some (aligned_cell (astype_str <$> input_data) k)
         else None.
Proof.
  intros Hcat Hnum. unfold create_aligned_input.
  set (input := astype_str <$> input_data) in *.
  destruct (for_each_writes
              (λ aligned_input num_feature,
                 try_except (num_body input aligned_input num_feature)
                   KeyError (Ok aligned_input))
              (copied input)
              (filter (λ f, startswith f "num__" = true) feature_names)
              (zeros feature_names)) as (frame1 & -> & Hframe1).
  { intros m f [Hf Hin]%list_elem_of_filter. apply num_iteration; [done|].
    intros name value. by apply Hnum. }
  cbn [bind].
  destruct (for_each_writes
              (λ aligned_input cat_feature,
                 try_except (cat_body input aligned_input cat_feature)
                   KeyError (Ok aligned_input))
              (λ f, if matched input f then Some 1%Q else None)
              (filter (λ f, startswith f "cat__" = true) feature_names)
              frame1) as (frame2 & -> & Hframe2).
  { intros m f [Hf Hin]%list_elem_of_filter. rewrite cat_iteration by by apply Hcat.
    by destruct (matched input f). }
  cbn [bind]. exists frame2. split; [done|]. intros k.
  rewrite Hframe2, Hframe1, zeros_lookup. unfold aligned_cell.
  destruct (decide (k ∈ feature_names)) as [Hin|Hnin].
  - destruct (startswith k "num__") eqn:Hknum.
    + rewrite (decide_False (P := k ∈ filter _ _)).
      2:{ intros [Hk _]%list_elem_of_filter. by rewrite num_is_not_cat in Hk. }
      rewrite decide_True by by apply list_elem_of_filter.
      by destruct (copied input k).
    + rewrite (decide_False (P := k ∈ filter (λ f, startswith f "num__" = true) _)).
      2:{ intros [Hk _]%list_elem_of_filter. by rewrite Hknum in Hk. }
      destruct (startswith k "cat__") eqn:Hkcat.
      * rewrite decide_True by by apply list_elem_of_filter.
        by destruct (matched input k).
      * rewrite decide_False; [done|].
        intros [Hk _]%list_elem_of_filter. by rewrite Hkcat in Hk.
  - rewrite !decide_False; [done| |]; by intros [_ ?]%list_elem_of_filter.
Qed.

(** C9, as the code has it. For unique feature names whose one-hot names
    have the form [cat__<column>_<value>], and an input row whose cells for
    the numerical features are numbers, the function returns a frame with
    exactly the feature names as columns, which is zero everywhere except:
    a numerical feature whose source column is in the input holds the
    number of that cell, and a one-hot feature holds 1 exactly when the
    input has its column with its value. So at most one position of a
    one-hot group holds 1, the position of the input's value holds it when
    the group has one, and a group without it stays at zero. Aligning the
    aligned frame again does not give it back: when no source column and no
    one-hot column is itself a feature name, every look-up misses and the
    result is the all-zero frame. *)
Theorem aligned_input_structure (input_data : gmap string cell)
    (feature_names : list string) :
  NoDup feature_names →
  (∀ f, f ∈ feature_names → startswith f "cat__" = true → onehot_named f) →
  (∀ f name value,
     f ∈ feature_names → startswith f "num__" = true →
     source_column f = Some name →
     (astype_str <$> input_data) !! name = Some value →
     is_Some (py_float value)) →
  ∃ aligned_input,
    create_aligned_input input_data feature_names = Ok aligned_input ∧
    (∀ k, is_Some (aligned_input !! k) ↔ k ∈ feature_names) ∧
    (∀ f, f ∈ feature_names →
       startswith f "num__" = false → startswith f "cat__" = false →
       aligned_input !! f = Some 0%Q) ∧
    (∀ f name value x,
       f ∈ feature_names → startswith f "num__" = true →
       source_column f = Some name →
       (astype_str <$> input_data) !! name = Some value →
       py_float value = Some x →
       aligned_input !! f = Some x) ∧
    (∀ f name,
       f ∈ feature_names → startswith f "num__" = true →
       source_column f = Some name →
       (astype_str <$> input_data) !! name = None →
       aligned_input !! f = Some 0%Q) ∧
    (∀ f, f ∈ feature_names → startswith f "cat__" = true →
       ∃ column value,
         onehot_column f = Some column ∧ onehot_value f = Some value ∧
         f = "cat__" +:+ column +:+ "_" +:+ value ∧
         aligned_input !! f =
           Some (if bool_decide ((astype_str <$> input_data) !! column = Some value)
                 then 1%Q else 0%Q)) ∧
    (∀ i j f1 f2 column,
       feature_names !! i = Some f1 → feature_names !! j = Some f2 →
       startswith f1 "cat__" = true → startswith f2 "cat__" = true →
       onehot_column f1 = Some column → onehot_column f2 = Some column →
       aligned_input !! f1 = Some 1%Q → aligned_input !! f2 = Some 1%Q →
       i = j) ∧
    ((∀ f name, f ∈ feature_names → startswith f "num__" = true →
        source_column f = Some name → name ∉ feature_names) →
     (∀ f column, f ∈ feature_names → startswith f "cat__" = true →
        onehot_column f = Some column → column ∉ feature_names) →
     create_aligned_input (as_input aligned_input) feature_names =
       Ok (zeros feature_names)).
Proof.
  intros Hnodup Hcat Hnum.
  destruct (create_aligned_input_cells input_data feature_names Hcat Hnum)
    as (aligned_input & Hrun & Hcells).
  set (input := astype_str <$> input_data) in *.
  assert (Hcell : ∀ f, f ∈ feature_names →
            aligned_input !! f = Some (aligned_cell input f)).
  { intros f Hf. by rewrite Hcells, decide_True. }
  assert (Hone : ∀ f, f ∈ feature_names → startswith f "cat__" = true →
            ∃ column value,
              onehot_column f = Some column ∧ onehot_value f = Some value ∧
              f = "cat__" +:+ column +:+ "_" +:+ value ∧
              aligned_input !! f =
                Some (if bool_decide (input !! column = Some value) then 1%Q else 0%Q)).
  { intros f Hf Hfcat.
    destruct (onehot_named_parts f Hfcat (Hcat f Hf Hfcat))
      as (column & value & Hcol & Hval & Heq).
    exists column, value. repeat (split; [done|]).
    rewrite (Hcell f Hf). unfold aligned_cell, matched.
    destruct (startswith f "num__") eqn:Hfnum.
    { apply num_is_not_cat in Hfnum. congruence. }
    by rewrite Hfcat, Hcol, Hval. }
  exists aligned_input. split; [done|]. split; [|split; [|split; [|split; [|split; [done|split]]]]].
  - intros k. rewrite Hcells. destruct (decide (k ∈ feature_names)); [done|].
    split; [by intros [? ?]|done].
  - intros f Hf Hfnum Hfcat. rewrite (Hcell f Hf). unfold aligned_cell.
    by rewrite Hfnum, Hfcat.
  - intros f name value x Hf Hfnum Hname Hvalue Hx. rewrite (Hcell f Hf).
    unfold aligned_cell, copied. rewrite Hfnum, Hname. cbn [mbind option_bind].
    rewrite Hvalue. cbn [mbind option_bind]. by rewrite Hx.
  - intros f name Hf Hfnum Hname Hvalue. rewrite (Hcell f Hf).
    unfold aligned_cell, copied. rewrite Hfnum, Hname. cbn [mbind option_bind].
    by rewrite Hvalue.
  - intros i j f1 f2 column Hi Hj Hcat1 Hcat2 Hcol1 Hcol2 Hset1 Hset2.
    apply (NoDup_lookup _ i j f1 Hnodup Hi).
    destruct (Hone f1 (list_elem_of_lookup_2 _ _ _ Hi) Hcat1)
      as (column1 & value1 & Hc1 & _ & Hf1 & Hv1).
    destruct (Hone f2 (list_elem_of_lookup_2 _ _ _ Hj) Hcat2)
      as (column2 & value2 & Hc2 & _ & Hf2 & Hv2).
    assert (column1 = column) as -> by congruence.
    assert (column2 = column) as -> by congruence.
    rewrite Hset1 in Hv1. rewrite Hset2 in Hv2.
    destruct (bool_decide_reflect (input !! column = Some value1)) as [E1|];
      [|by injection Hv1].
    destruct (bool_decide_reflect (input !! column = Some value2)) as [E2|];
      [|by injection Hv2].
    assert (value1 = value2) as -> by congruence.
    by rewrite Hj, Hf1, Hf2.
  - intros Hsource Hcolumn.
    assert (Hmiss : ∀ name, name ∉ feature_names →
              (astype_str <$> as_input aligned_input) !! name = None).
    { intros name Hname. unfold as_input. rewrite !lookup_fmap, Hcells.
      by rewrite decide_False. }
    destruct (create_aligned_input_cells (as_input aligned_input) feature_names Hcat)
      as (realigned & -> & Hrecells).
    { intros f name value Hf Hfnum Hname Hvalue.
      by rewrite (Hmiss name (Hsource f name Hf Hfnum Hname)) in Hvalue. }
    f_equal. apply map_eq. intros k. rewrite Hrecells, zeros_lookup.
    destruct (decide (k ∈ feature_names)) as [Hk|]; [|done]. f_equal.
    unfold aligned_cell. destruct (startswith k "num__") eqn:Hknum.
    + destruct (source_column_defined k Hknum) as [name Hname].
      unfold copied. rewrite Hname. cbn [mbind option_bind].
      by rewrite (Hmiss name (Hsource k name Hk Hknum Hname)).
    + destruct (startswith k "cat__") eqn:Hkcat; [|done].
      destruct (Hone k Hk Hkcat) as (column & value & Hcol & Hval & _ & _).
      unfold matched. rewrite Hcol, Hval.
      rewrite (Hmiss column (Hcolumn k column Hk Hkcat Hcol)).
      by rewrite bool_decide_false.
Qed.

End alignment.

Example create_aligned_input_example :
  (let* aligned_input :=
     create_aligned_input float_decimal str_decimal example_input example_features in
   Ok (values example_features aligned_input)) =
  Ok [Some 40.713%Q; Some 0%Q; Some (5 # 2)%Q; Some 1%Q; Some 0%Q;
      Some 1%Q; Some 0%Q; Some 0%Q; Some 0%Q].
Proof. vm_compute. reflexivity. Qed.

(** A row whose crash rate is missing: [float("None")] raises. *)
Example create_aligned_input_not_a_number :
  create_aligned_input float_decimal str_decimal
    (<["crash_rate" := Str "None"]> example_input) example_features =
  Raise ValueError.
Proof. vm_compute. reflexivity. Qed.

(** A one-hot name with a second separator cannot be unpacked. *)
Example create_aligned_input_two_separators :
  create_aligned_input float_decimal str_decimal example_input ["cat__a__b_c"] =
  Raise ValueError.
Proof. vm_compute. reflexivity. Qed.

Lemma example_features_named (f : string) :
  f ∈ example_features → startswith f "cat__" = true → onehot_named f.
Proof.
  unfold example_features. intros Hf Hcat.
  repeat (apply elem_of_cons in Hf as [->|Hf]); try done;
    try (do 3 eexists; split; reflexivity).
  by apply elem_of_nil in Hf.
Qed.

Lemma example_input_numbers (f name value : string) :
  f ∈ example_features → startswith f "num__" = true →
  source_column f = Some name →
  (astype_str str_decimal <$> example_input) !! name = Some value →
  is_Some (float_decimal value).
Proof.
  unfold example_features. intros Hf Hnum Hname Hvalue.
  repeat (apply elem_of_cons in Hf as [->|Hf]); try done;
    try (injection Hname as <-; vm_compute in Hvalue;
         first [discriminate|injection Hvalue as <-; vm_compute; eauto]).
  by apply elem_of_nil in Hf.
Qed.

Lemma aligned_input_structure_witness :
  NoDup example_features ∧
  ∃ aligned_input,
    create_aligned_input float_decimal str_decimal example_input example_features =
      Ok aligned_input ∧
    aligned_input !! "cat__borough_Manhattan" = Some 1%Q ∧
    aligned_input !! "num__longitude" = Some 0%Q.
Proof.
  assert (Hnodup : NoDup example_features).
  { apply (bool_decide_unpack _). vm_compute. reflexivity. }
  split; [exact Hnodup|].
  destruct (aligned_input_structure float_decimal str_decimal example_input
              example_features Hnodup example_features_named example_input_numbers)
    as (aligned_input & Hrun & _ & _ & _ & Hzero & Hcat & _).
  exists aligned_input. split; [exact Hrun|]. split.
  - destruct (Hcat "cat__borough_Manhattan") as (column & value & Hc & Hv & _ & ->).
    + unfold example_features. apply list_elem_of_In. simpl. tauto.
    + reflexivity.
    + vm_compute in Hc. vm_compute in Hv.
      injection Hc as <-. injection Hv as <-. reflexivity.
  - apply (Hzero "num__longitude" "longitude").
    + unfold example_features. apply list_elem_of_In. simpl. tauto.
    + reflexivity.
    + reflexivity.
    + reflexivity.
Defined.

(** C9 as stated fails on its last clause: alignment is not idempotent.
    The input row with borough "Manhattan" aligns to the vector (1, 0) over
    the two one-hot features of the borough; aligning that frame again,
    whose columns are the two feature names and no longer "borough", finds
    no column to match and gives (0, 0). *)
Lemma realignment_is_not_idempotent :
  ∃ aligned_input realigned,
    create_aligned_input float_decimal str_decimal borough_input borough_features =
      Ok aligned_input ∧
    values borough_features aligned_input = [Some 1%Q; Some 0%Q] ∧
    create_aligned_input float_decimal str_decimal (as_input aligned_input)
      borough_features = Ok realigned ∧
    values borough_features realigned = [Some 0%Q; Some 0%Q] ∧
    realigned ≠ aligned_input.
Proof.
  exists (<["cat__borough_Manhattan" := 1%Q]> (zeros borough_features)),
         (zeros borough_features).
  split; [vm_compute; reflexivity|]. split; [vm_compute; reflexivity|].
  split; [vm_compute; reflexivity|]. split; [vm_compute; reflexivity|].
  intros Heq.
  assert (zeros borough_features !! "cat__borough_Manhattan" = Some 1%Q) as Hone
    by (rewrite Heq; apply lookup_insert_eq).
  vm_compute in Hone. discriminate Hone.
Qed.

End Alignment.

(** ** Severity levels of the threshold analysis
    ([features_anaylsis/severity_threshold_analysis.py]) *)

Module SeverityLevels.

Definition low_threshold : Q := 4.0.
Definition medium_threshold : Q := 10.0.

(** [x < y] on numbers, as a test. *)
Definition Qlt_bool (x y : Q) : bool := negb (Qle_bool y x).

Definition assign_severity_level (score : Q) : string :=
  if Qle_bool score low_threshold then "Low"
  else if Qlt_bool low_threshold score && Qle_bool score medium_threshold then "Medium"
  else "High".

(** The level of a record, from the score column of the processed data. *)
Definition severity_level (r : collision) : string :=
  assign_severity_level (inject_Z (Severity.severity_score r)).

Lemma assign_severity_level_integer (score : Z) :
  assign_severity_level (inject_Z score) = Severity.aggregate_severity score.
Proof.
  unfold assign_severity_level, Severity.aggregate_severity, Qlt_bool.
  change low_threshold with (40 # 10)%Q. change medium_threshold with (100 # 10)%Q.
  unfold Qle_bool, inject_Z. cbn [Qnum Qden].
  destruct (Z.leb_spec (score * 10) (40 * 1)), (Z.leb_spec score 4); try lia; [done|].
  destruct (Z.leb_spec (40 * 1) (score * 10)); try lia. cbn [negb andb].
  destruct (Z.leb_spec (score * 10) (100 * 1)), (Z.leb_spec score 10); try lia; done.
Qed.

(** X1: the level that the threshold analysis assigns to a record is the
    category that the feature engineering gave it, whatever its counts. *)
Theorem severity_level_is_severity_category (r : collision) :
  severity_level r = Severity.severity_category r.
Proof. apply assign_severity_level_integer. Qed.

(** X2: on non-negative counts a record is "Low" exactly when nobody was
    killed and the injury columns add up to at most 4: one death is enough
    to leave "Low", and more than two deaths always give "High". *)
Theorem low_severity_means_no_death (r : collision) :
  Severity.counts_nonneg r →
  (Severity.severity_category r = "Low" ↔
     Severity.total_deaths r = 0%Z ∧ (Severity.total_injuries r ≤ 4)%Z) ∧
  ((1 ≤ Severity.total_deaths r)%Z → Severity.severity_category r ≠ "Low") ∧
  ((3 ≤ Severity.total_deaths r)%Z → Severity.severity_category r = "High").
Proof.
  intros (?&?&?&?&?&?&?&?).
  unfold Severity.severity_category, Severity.aggregate_severity,
    Severity.severity_score.
  assert (0 ≤ Severity.total_deaths r)%Z
    by (unfold Severity.total_deaths, Severity.sum_axis1; simpl; lia).
  assert (0 ≤ Severity.total_injuries r)%Z
    by (unfold Severity.total_injuries, Severity.sum_axis1; simpl; lia).
  generalize dependent (Severity.total_deaths r). intros deaths ?.
  generalize dependent (Severity.total_injuries r). intros injuries ?.
  destruct (Z.leb_spec (deaths * 5 + injuries) 4);
    [|destruct (Z.leb_spec (deaths * 5 + injuries) 10)];
    (split; [split; [intros; try done; lia|intros; try done; lia]|]);
    (split; intros; try done; lia).
Qed.

Lemma low_severity_means_no_death_witness :
  Severity.counts_nonneg Severity.scenario_row ∧
  Severity.severity_category Severity.scenario_row ≠ "Low".
Proof.
  assert (Hnn : Severity.counts_nonneg Severity.scenario_row).
  { unfold Severity.counts_nonneg, Severity.scenario_row, Severity.row_of_counts;
      simpl; lia. }
  split; [exact Hnn|].
  apply (proj1 (proj2 (low_severity_means_no_death Severity.scenario_row Hnn))).
  vm_compute. discriminate.
Defined.

End SeverityLevels.


(** ** Cleaning, step 3: duplicate rows ([data_cleaning.py]) *)

Module Duplicates.

Section duplicates.

Context {A : Type} `{EqDecision A}.

(** [df.duplicated()]: a row is marked when an equal row comes before
    it; rows are compared cell by cell, and two missing cells count as
    equal. *)
Fixpoint duplicated_from (seen : list A) (df : list A) : list bool :=
  match df with
  | [] => []
  | row :: df' => bool_decide (row ∈ seen) :: duplicated_from (row :: seen) df'
  end.

Definition duplicated (df : list A) : list bool := duplicated_from [] df.

(** [.sum()] of a boolean column. *)
Definition count_true (marks : list bool) : nat := length (filter (λ b, b = true) marks).

(** [df.drop_duplicates()]: the rows that are not marked, in order. *)
Fixpoint drop_duplicates_from (seen : list A) (df : list A) : list A :=
  match df with
  | [] => []
  | row :: df' =>
      if decide (row ∈ seen) then drop_duplicates_from seen df'
      else row :: drop_duplicates_from (row :: seen) df'
  end.

Definition drop_duplicates (df : list A) : list A := drop_duplicates_from [] df.

(** Step 3 of the script, with its guard. *)
Definition handle_duplicates (df : list A) : list A :=
  let duplicates := count_true (duplicated df) in
  if (0 <? duplicates)%nat then drop_duplicates df else df.

Lemma drop_duplicates_from_ext (seen1 seen2 df : list A) :
  (∀ x, x ∈ seen1 ↔ x ∈ seen2) →
  drop_duplicates_from seen1 df = drop_duplicates_from seen2 df.
Proof.
  revert seen1 seen2. induction df as [|row df IH]; intros seen1 seen2 Hseen; [done|].
  cbn [drop_duplicates_from].
  destruct (decide (row ∈ seen1)) as [H1|H1], (decide (row ∈ seen2)) as [H2|H2];
    try (by apply Hseen in H1); try (by apply Hseen in H2).
  - by apply IH.
  - f_equal. apply IH. intros x. rewrite !elem_of_cons, Hseen. done.
Qed.

Lemma drop_duplicates_from_filter (earlier seen df : list A) :
  drop_duplicates_from (earlier ++ seen) df =
  drop_duplicates_from seen (filter (λ row, row ∉ earlier) df).
Proof.
  revert seen. induction df as [|row df IH]; intros seen; [done|].
  cbn [drop_duplicates_from]. destruct (decide (row ∈ earlier)) as [He|He].
  - rewrite decide_True by (apply elem_of_app; by left).
    rewrite filter_cons_False by (by intros ?). apply IH.
  - rewrite filter_cons_True by done. cbn [drop_duplicates_from].
    destruct (decide (row ∈ seen)) as [Hs|Hs].
    + rewrite decide_True by (apply elem_of_app; by right). apply IH.
    + rewrite decide_False by (by intros [?|?]%elem_of_app).
      f_equal. rewrite <- IH. apply drop_duplicates_from_ext.
      intros x. rewrite !elem_of_cons, !elem_of_app, !elem_of_cons. tauto.
Qed.

Lemma drop_duplicates_from_spec (seen df : list A) :
  NoDup (drop_duplicates_from seen df) ∧
  (∀ row, row ∈ drop_duplicates_from seen df ↔ row ∈ df ∧ row ∉ seen) ∧
  drop_duplicates_from seen df `sublist_of` df ∧
  length df =
    length (drop_duplicates_from seen df) + count_true (duplicated_from seen df).
Proof.
  revert seen. induction df as [|row df IH]; intros seen.
  - split; [constructor|]. split; [|split; [constructor|done]].
    intros row. cbn [drop_duplicates_from]. rewrite elem_of_nil. tauto.
  - cbn [drop_duplicates_from duplicated_from].
    destruct (decide (row ∈ seen)) as [Hs|Hs].
    + rewrite bool_decide_true by done.
      destruct (IH seen) as (Hnd & Hin & Hsub & _).
      destruct (IH (row :: seen)) as (_ & _ & _ & Hlen').
      split; [done|]. split; [|split].
      * intros x. rewrite Hin, elem_of_cons. split; [tauto|].
        intros [[->|?] ?]; tauto.
      * by apply sublist_cons.
      * unfold count_true in *. rewrite filter_cons_True by done.
        cbn [length]. rewrite Hlen'.
        rewrite (drop_duplicates_from_ext (row :: seen) seen); [lia|].
        intros x. rewrite elem_of_cons. split; [by intros [->|?]|tauto].
    + rewrite bool_decide_false by done.
      destruct (IH (row :: seen)) as (Hnd & Hin & Hsub & Hlen).
      split; [|split; [|split]].
      * constructor; [|done]. rewrite Hin, elem_of_cons. tauto.
      * intros x. rewrite !elem_of_cons, Hin, elem_of_cons.
        split; [intros [->|[? ?]]; tauto|].
        intros [[->|?] ?]; [by left|].
        destruct (decide (x = row)) as [->|?]; [by left|right; tauto].
      * by apply sublist_skip.
      * unfold count_true in *. rewrite filter_cons_False by done.
        cbn [length]. lia.
Qed.

Lemma drop_duplicates_from_unmarked (seen df : list A) :
  count_true (duplicated_from seen df) = 0 → drop_duplicates_from seen df = df.
Proof.
  revert seen. induction df as [|row df IH]; intros seen; [done|].
  cbn [drop_duplicates_from duplicated_from]. unfold count_true.
  destruct (decide (row ∈ seen)) as [Hs|Hs].
  - rewrite bool_decide_true, filter_cons_True by done. done.
  - rewrite bool_decide_false, filter_cons_False by done.
    intros Hzero. f_equal. by apply IH.
Qed.

Lemma drop_duplicates_from_fresh (seen df : list A) :
  NoDup df → (∀ row, row ∈ df → row ∉ seen) →
  drop_duplicates_from seen df = df.
Proof.
  intros Hnd. revert seen. induction Hnd as [|row df Hrow Hnd IH]; intros seen Hfresh;
    [done|].
  cbn [drop_duplicates_from].
  rewrite decide_False by (apply Hfresh; by left). f_equal.
  apply IH. intros x Hx [->|?]%elem_of_cons; [done|].
  by apply (Hfresh x); [right|].
Qed.

(** X3: step 3 leaves a frame without equal rows that has the rows of the
    input, each at its first occurrence and in the input's order; the
    number of rows that go is the number the script prints; the guard of
    the script changes nothing, and a second pass changes nothing. *)
Theorem handle_duplicates_keeps_first_occurrences (df : list A) :
  handle_duplicates df = drop_duplicates df ∧
  NoDup (handle_duplicates df) ∧
  (∀ row, row ∈ handle_duplicates df ↔ row ∈ df) ∧
  handle_duplicates df `sublist_of` df ∧
  length df = length (handle_duplicates df) + count_true (duplicated df) ∧
  (∀ row df',
     handle_duplicates (row :: df') =
     row :: handle_duplicates (filter (λ row', row' ≠ row) df')) ∧
  (NoDup df → handle_duplicates df = df) ∧
  handle_duplicates (handle_duplicates df) = handle_duplicates df.
Proof.
  assert (Hguard : ∀ l : list A, handle_duplicates l = drop_duplicates l).
  { intros l. unfold handle_duplicates.
    destruct (Nat.ltb_spec 0 (count_true (duplicated l))) as [|Hzero]; [done|].
    symmetry. apply drop_duplicates_from_unmarked. unfold duplicated in Hzero. lia. }
  assert (Hfix : ∀ l : list A, NoDup l → drop_duplicates l = l).
  { intros l Hl. apply drop_duplicates_from_fresh; [done|].
    intros row _. apply not_elem_of_nil. }
  destruct (drop_duplicates_from_spec [] df) as (Hnd & Hin & Hsub & Hlen).
  rewrite !Hguard. split; [done|]. split; [done|]. split.
  { intros row. unfold drop_duplicates. rewrite Hin.
    split; [tauto|]. intros ?. split; [done|]. apply not_elem_of_nil. }
  split; [done|]. split; [done|]. split.
  { intros row df'. rewrite !Hguard. unfold drop_duplicates.
    cbn [drop_duplicates_from]. rewrite decide_False by apply not_elem_of_nil.
    f_equal. etrans; [exact (drop_duplicates_from_filter [row] [] df')|].
    f_equal. apply list_filter_iff. intros x. rewrite list_elem_of_singleton. done. }
  split; [apply Hfix|]. by apply Hfix.
Qed.

End duplicates.

End Duplicates.

(** ** Cleaning, step 4: column names ([data_cleaning.py]) *)

Module ColumnNames.

(** [c.isspace()] on the ASCII characters. *)
Definition is_space (c : ascii) : bool :=
  let n := nat_of_ascii c in
  ((9 <=? n)%nat && (n <=? 13)%nat) || ((28 <=? n)%nat && (n <=? 32)%nat).

Fixpoint lstrip (s : string) : string :=
  match s with
  | EmptyString => EmptyString
  | String c s' => if is_space c then lstrip s' else s
  end.

Fixpoint rstrip (s : string) : string :=
  match s with
  | EmptyString => EmptyString
  | String c s' =>
      match rstrip s' with
      | EmptyString => if is_space c then EmptyString else String c EmptyString
      | t => String c t
      end
  end.

(** [s.strip()] *)
Definition strip (s : string) : string := rstrip (lstrip s).

(** [s.replace(old, new)] for strings of one character. *)
Fixpoint replace_char (old new : ascii) (s : string) : string :=
  match s with
  | EmptyString => EmptyString
  | String c s' =>
      String (if decide (c = old) then new else c) (replace_char old new s')
  end.

(** [col.strip().lower().replace(" ", "_")] *)
Definition standardize (col : string) : string :=
  replace_char " " "_" (Remapping.lower (strip col)).

(** [df.columns = [... for col in df.columns]] *)
Definition standardize_columns (columns : list string) : list string :=
  standardize <$> columns.

(** The string has no white space at its start, and none at its end. *)
Definition starts_clean (s : string) : bool :=
  match s with
  | EmptyString => true
  | String c _ => negb (is_space c)
  end.

Fixpoint ends_clean (s : string) : bool :=
  match s with
  | EmptyString => true
  | String c EmptyString => negb (is_space c)
  | String _ s' => ends_clean s'
  end.

(** The characters of a string. *)
Fixpoint chars (s : string) : list ascii :=
  match s with
  | EmptyString => []
  | String c s' => c :: chars s'
  end.

Lemma lstrip_starts_clean (s : string) : starts_clean (lstrip s) = true.
Proof.
  induction s as [|c s IH]; [done|]. cbn [lstrip].
  destruct (is_space c) eqn:Hc; [done|]. cbn [starts_clean]. by rewrite Hc.
Qed.

Lemma lstrip_clean (s : string) : starts_clean s = true → lstrip s = s.
Proof.
  destruct s as [|c s]; [done|]. cbn [starts_clean lstrip].
  by destruct (is_space c).
Qed.

Lemma rstrip_ends_clean (s : string) : ends_clean (rstrip s) = true.
Proof.
  induction s as [|c s IH]; [done|]. cbn [rstrip].
  destruct (rstrip s) as [|c' t] eqn:Ht.
  - destruct (is_space c) eqn:Hc; [done|]. cbn [ends_clean]. by rewrite Hc.
  - done.
Qed.

Lemma rstrip_clean (s : string) : ends_clean s = true → rstrip s = s.
Proof.
  induction s as [|c s IH]; [done|]. cbn [rstrip].
  destruct s as [|c' s].
  - cbn [ends_clean rstrip]. by destruct (is_space c).
  - intros Hs. rewrite IH by done. done.
Qed.

Lemma rstrip_starts_clean (s : string) :
  starts_clean s = true → starts_clean (rstrip s) = true.
Proof.
  destruct s as [|c s]; [done|]. cbn [starts_clean rstrip]. intros Hc.
  destruct (rstrip s); [|done].
  destruct (is_space c) eqn:E; [done|]. cbn [starts_clean]. by rewrite E.
Qed.

Lemma lower_ascii_space (c : ascii) :
  is_space (Remapping.lower_ascii c) = is_space c.
Proof. destruct c as [[] [] [] [] [] [] [] []]; reflexivity. Qed.

Lemma lower_clean (s : string) :
  starts_clean (Remapping.lower s) = starts_clean s ∧
  ends_clean (Remapping.lower s) = ends_clean s.
Proof.
  split.
  - destruct s as [|c s]; [done|]. cbn. by rewrite lower_ascii_space.
  - induction s as [|c s IH]; [done|]. destruct s as [|c' s].
    + cbn. by rewrite lower_ascii_space.
    + exact IH.
Qed.

Lemma replace_space_clean (s : string) :
  (starts_clean s = true → starts_clean (replace_char " " "_" s) = true) ∧
  (ends_clean s = true → ends_clean (replace_char " " "_" s) = true).
Proof.
  split.
  - destruct s as [|c s]; [done|]. cbn [replace_char starts_clean].
    by destruct (decide (c = " "%char)) as [->|].
  - induction s as [|c s IH]; [done|]. destruct s as [|c' s].
    + cbn [replace_char ends_clean]. by destruct (decide (c = " "%char)) as [->|].
    + exact IH.
Qed.

Lemma replace_space_gone (s : string) :
  " "%char ∉ chars (replace_char " " "_" s).
Proof.
  induction s as [|c s IH]; cbn [replace_char chars]; [apply not_elem_of_nil|].
  intros [Hc|?]%elem_of_cons; [|done].
  by destruct (decide (c = " "%char)).
Qed.

Lemma replace_absent (old new : ascii) (s : string) :
  old ∉ chars s → replace_char old new s = s.
Proof.
  induction s as [|c s IH]; [done|]. cbn [replace_char chars].
  intros Hs. rewrite decide_False by (intros ->; apply Hs; by left).
  f_equal. apply IH. intros ?. apply Hs. by right.
Qed.

Lemma lower_replace_space (s : string) :
  Remapping.lower (replace_char " " "_" s) =
  replace_char " " "_" (Remapping.lower s).
Proof.
  induction s as [|c s IH]; [done|]. cbn [replace_char Remapping.lower].
  rewrite IH. f_equal.
  destruct (decide (c = " "%char)) as [->|Hc]; [done|].
  rewrite decide_False; [done|].
  destruct c as [[] [] [] [] [] [] [] []]; done.
Qed.

(** X4: a standardized name has no space and no upper-case letter of the
    ASCII alphabet, neither starts nor ends with white space, and is left
    as it is by a second standardization. *)
Theorem standardize_idempotent (col : string) :
  standardize (standardize col) = standardize col ∧
  (" "%char ∉ chars (standardize col)) ∧
  Remapping.lower (standardize col) = standardize col ∧
  strip (standardize col) = standardize col.
Proof.
  assert (Hstrip : strip (standardize col) = standardize col).
  { unfold strip, standardize.
    assert (starts_clean (strip col) = true ∧ ends_clean (strip col) = true)
      as [Hstart Hend].
    { unfold strip. split; [|apply rstrip_ends_clean].
      apply rstrip_starts_clean, lstrip_starts_clean. }
    destruct (lower_clean (strip col)) as [Hl1 Hl2].
    destruct (replace_space_clean (Remapping.lower (strip col))) as [Hr1 Hr2].
    rewrite lstrip_clean by (apply Hr1; congruence).
    apply rstrip_clean, Hr2. congruence. }
  assert (Hlower : Remapping.lower (standardize col) = standardize col).
  { unfold standardize.
    by rewrite lower_replace_space, Remapping.lower_idempotent. }
  split; [|split; [apply replace_space_gone|done]].
  unfold standardize at 1. rewrite Hstrip, Hlower.
  apply replace_absent, replace_space_gone.
Qed.

Example standardize_columns_example :
  standardize_columns ["CRASH DATE"; " ZIP CODE "; "NUMBER OF PERSONS INJURED";
                       "CONTRIBUTING FACTOR VEHICLE 1"; "latitude"] =
  ["crash_date"; "zip_code"; "number_of_persons_injured";
   "contributing_factor_vehicle_1"; "latitude"].
Proof. vm_compute. reflexivity. Qed.

End ColumnNames.

(** ** Cleaning, step 5: missing values ([data_cleaning.py]) *)

Module MissingValues.

(** A row of the raw frame after the renaming of the columns, with the
    columns that step 5 reads or fills; a missing cell is [None]. *)
Module Raw.

Record row : Type := {
  crash_date : option string;
  crash_time : option string;
  latitude : option Q;
  longitude : option Q;
  number_of_persons_injured : option Z;
  number_of_persons_killed : option Z;
  number_of_pedestrians_injured : option Z;
  number_of_pedestrians_killed : option Z;
  number_of_cyclist_injured : option Z;
  number_of_cyclist_killed : option Z;
  number_of_motorist_injured : option Z;
  number_of_motorist_killed : option Z;
  contributing_factor_vehicle_1 : option string;
  contributing_factor_vehicle_2 : option string;
  contributing_factor_vehicle_3 : option string;
  contributing_factor_vehicle_4 : option string;
  contributing_factor_vehicle_5 : option string;
  vehicle_type_code_1 : option string;
  vehicle_type_code_2 : option string;
  vehicle_type_code_3 : option string;
  vehicle_type_code_4 : option string;
  vehicle_type_code_5 : option string
}.

End Raw.

(** The cells of [injury_cols]. *)
Definition injury_cells (r : Raw.row) : list (option Z) :=
  [Raw.number_of_persons_injured r; Raw.number_of_persons_killed r;
   Raw.number_of_pedestrians_injured r; Raw.number_of_pedestrians_killed r;
   Raw.number_of_cyclist_injured r; Raw.number_of_cyclist_killed r;
   Raw.number_of_motorist_injured r; Raw.number_of_motorist_killed r].

(** The cells of the ten factor and vehicle columns of step 5.3. *)
Definition label_cells (r : Raw.row) : list (option string) :=
  [Raw.contributing_factor_vehicle_1 r; Raw.contributing_factor_vehicle_2 r;
   Raw.contributing_factor_vehicle_3 r; Raw.contributing_factor_vehicle_4 r;
   Raw.contributing_factor_vehicle_5 r; Raw.vehicle_type_code_1 r;
   Raw.vehicle_type_code_2 r; Raw.vehicle_type_code_3 r;
   Raw.vehicle_type_code_4 r; Raw.vehicle_type_code_5 r].

(** [fillna(value)] on one cell. *)
Definition fillna {V : Type} (value : V) (cell : option V) : option V :=
  match cell with
  | Some v => Some v
  | None => Some value
  end.

(** Step 5.1: [dropna(subset=['latitude', 'longitude'], how='any')] *)
Definition has_coordinates (r : Raw.row) : bool :=
  bool_decide (is_Some (Raw.latitude r)) && bool_decide (is_Some (Raw.longitude r)).

(** Step 5.3: the ten columns are filled with 'Unknown'. *)
Definition fill_unknown (r : Raw.row) : Raw.row :=
  {| Raw.crash_date := Raw.crash_date r;
     Raw.crash_time := Raw.crash_time r;
     Raw.latitude := Raw.latitude r;
     Raw.longitude := Raw.longitude r;
     Raw.number_of_persons_injured := Raw.number_of_persons_injured r;
     Raw.number_of_persons_killed := Raw.number_of_persons_killed r;
     Raw.number_of_pedestrians_injured := Raw.number_of_pedestrians_injured r;
     Raw.number_of_pedestrians_killed := Raw.number_of_pedestrians_killed r;
     Raw.number_of_cyclist_injured := Raw.number_of_cyclist_injured r;
     Raw.number_of_cyclist_killed := Raw.number_of_cyclist_killed r;
     Raw.number_of_motorist_injured := Raw.number_of_motorist_injured r;
     Raw.number_of_motorist_killed := Raw.number_of_motorist_killed r;
     Raw.contributing_factor_vehicle_1 :=
       fillna "Unknown" (Raw.contributing_factor_vehicle_1 r);
     Raw.contributing_factor_vehicle_2 :=
       fillna "Unknown" (Raw.contributing_factor_vehicle_2 r);
     Raw.contributing_factor_vehicle_3 :=
       fillna "Unknown" (Raw.contributing_factor_vehicle_3 r);
     Raw.contributing_factor_vehicle_4 :=
       fillna "Unknown" (Raw.contributing_factor_vehicle_4 r);
     Raw.contributing_factor_vehicle_5 :=
       fillna "Unknown" (Raw.contributing_factor_vehicle_5 r);
     Raw.vehicle_type_code_1 := fillna "Unknown" (Raw.vehicle_type_code_1 r);
     Raw.vehicle_type_code_2 := fillna "Unknown" (Raw.vehicle_type_code_2 r);
     Raw.vehicle_type_code_3 := fillna "Unknown" (Raw.vehicle_type_code_3 r);
     Raw.vehicle_type_code_4 := fillna "Unknown" (Raw.vehicle_type_code_4 r);
     Raw.vehicle_type_code_5 := fillna "Unknown" (Raw.vehicle_type_code_5 r) |}.

(** Step 5.4: [dropna(subset=injury_cols, how='all')] keeps the rows with
    at least one of the eight cells. *)
Definition has_injury_data (r : Raw.row) : bool :=
  bool_decide (Exists is_Some (injury_cells r)).

(** Step 5.4: the eight columns are filled with zeros. *)
Definition fill_zero (r : Raw.row) : Raw.row :=
  {| Raw.crash_date := Raw.crash_date r;
     Raw.crash_time := Raw.crash_time r;
     Raw.latitude := Raw.latitude r;
     Raw.longitude := Raw.longitude r;
     Raw.number_of_persons_injured := fillna 0%Z (Raw.number_of_persons_injured r);
     Raw.number_of_persons_killed := fillna 0%Z (Raw.number_of_persons_killed r);
     Raw.number_of_pedestrians_injured :=
       fillna 0%Z (Raw.number_of_pedestrians_injured r);
     Raw.number_of_pedestrians_killed :=
       fillna 0%Z (Raw.number_of_pedestrians_killed r);
     Raw.number_of_cyclist_injured := fillna 0%Z (Raw.number_of_cyclist_injured r);
     Raw.number_of_cyclist_killed := fillna 0%Z (Raw.number_of_cyclist_killed r);
     Raw.number_of_motorist_injured := fillna 0%Z (Raw.number_of_motorist_injured r);
     Raw.number_of_motorist_killed := fillna 0%Z (Raw.number_of_motorist_killed r);
     Raw.contributing_factor_vehicle_1 := Raw.contributing_factor_vehicle_1 r;
     Raw.contributing_factor_vehicle_2 := Raw.contributing_factor_vehicle_2 r;
     Raw.contributing_factor_vehicle_3 := Raw.contributing_factor_vehicle_3 r;
     Raw.contributing_factor_vehicle_4 := Raw.contributing_factor_vehicle_4 r;
     Raw.contributing_factor_vehicle_5 := Raw.contributing_factor_vehicle_5 r;
     Raw.vehicle_type_code_1 := Raw.vehicle_type_code_1 r;
     Raw.vehicle_type_code_2 := Raw.vehicle_type_code_2 r;
     Raw.vehicle_type_code_3 := Raw.vehicle_type_code_3 r;
     Raw.vehicle_type_code_4 := Raw.vehicle_type_code_4 r;
     Raw.vehicle_type_code_5 := Raw.vehicle_type_code_5 r |}.

(** Steps 5.1, 5.3 and 5.4, in the order of the script. *)
Definition handle_missing (df : list Raw.row) : list Raw.row :=
  let df := filter (λ r, has_coordinates r = true) df in
  let df := fill_unknown <$> df in
  let df := filter (λ r, has_injury_data r = true) df in
  fill_zero <$> df.

(** The row is kept by the two [dropna] steps. *)
Definition kept (r : Raw.row) : Prop :=
  is_Some (Raw.latitude r) ∧ is_Some (Raw.longitude r) ∧
  Exists is_Some (injury_cells r).

(** Both fillings on one row. *)
Definition filled (r : Raw.row) : Raw.row := fill_zero (fill_unknown r).

(** No cell that the cleaning looks at is missing. *)
Definition complete (r : Raw.row) : Prop :=
  is_Some (Raw.latitude r) ∧ is_Some (Raw.longitude r) ∧
  Forall is_Some (injury_cells r) ∧ Forall is_Some (label_cells r).

(** The row as the feature engineering reads it from the cleaned file.
    [crash_datetime] is the column that step 6 builds from the date and
    the time; its construction is not modelled and the value is given. *)
Definition to_features (crash_datetime : string) (r : Raw.row) : option collision :=
  lat ← Raw.latitude r; lon ← Raw.longitude r;
  pi ← Raw.number_of_persons_injured r; pk ← Raw.number_of_persons_killed r;
  di ← Raw.number_of_pedestrians_injured r; dk ← Raw.number_of_pedestrians_killed r;
  ci ← Raw.number_of_cyclist_injured r; ck ← Raw.number_of_cyclist_killed r;
  mi ← Raw.number_of_motorist_injured r; mk ← Raw.number_of_motorist_killed r;
  factor ← Raw.contributing_factor_vehicle_1 r;
  vehicle ← Raw.vehicle_type_code_1 r;
  Some {| crash_datetime := crash_datetime;
          latitude := lat; longitude := lon;
          number_of_persons_injured := pi; number_of_persons_killed := pk;
          number_of_pedestrians_injured := di; number_of_pedestrians_killed := dk;
          number_of_cyclist_injured := ci; number_of_cyclist_killed := ck;
          number_of_motorist_injured := mi; number_of_motorist_killed := mk;
          contributing_factor_vehicle_1 := factor;
          vehicle_type_code_1 := vehicle |}.

(** A raw row with the given coordinates, counts and first factor and
    vehicle type, and nothing else. *)
Definition raw_example (lat lon : option Q) (injured killed : option Z)
    (factor vehicle : option string) : Raw.row :=
  {| Raw.crash_date := Some "09/11/2021"; Raw.crash_time := Some "2:39";
     Raw.latitude := lat; Raw.longitude := lon;
     Raw.number_of_persons_injured := injured;
     Raw.number_of_persons_killed := killed;
     Raw.number_of_pedestrians_injured := None;
     Raw.number_of_pedestrians_killed := None;
     Raw.number_of_cyclist_injured := None;
     Raw.number_of_cyclist_killed := None;
     Raw.number_of_motorist_injured := None;
     Raw.number_of_motorist_killed := None;
     Raw.contributing_factor_vehicle_1 := factor;
     Raw.contributing_factor_vehicle_2 := None;
     Raw.contributing_factor_vehicle_3 := None;
     Raw.contributing_factor_vehicle_4 := None;
     Raw.contributing_factor_vehicle_5 := None;
     Raw.vehicle_type_code_1 := vehicle;
     Raw.vehicle_type_code_2 := None;
     Raw.vehicle_type_code_3 := None;
     Raw.vehicle_type_code_4 := None;
     Raw.vehicle_type_code_5 := None |}.

#[global] Instance kept_dec (r : Raw.row) : Decision (kept r).
Proof. unfold kept. apply _. Defined.

Lemma fillna_default {V : Type} (value : V) (cell : option V) :
  fillna value cell = Some (default value cell).
Proof. by destruct cell. Qed.

Lemma has_coordinates_spec (r : Raw.row) :
  has_coordinates r = true ↔ is_Some (Raw.latitude r) ∧ is_Some (Raw.longitude r).
Proof.
  unfold has_coordinates. by rewrite andb_true_iff, !bool_decide_eq_true.
Qed.

Lemma handle_missing_filter (df : list Raw.row) :
  handle_missing df = filled <$> filter kept df.
Proof.
  unfold handle_missing. induction df as [|r df IH]; [done|].
  rewrite !filter_cons. destruct (decide (has_coordinates r = true)) as [Hc|Hc].
  - rewrite fmap_cons, filter_cons.
    destruct (decide (has_injury_data (fill_unknown r) = true)) as [Hi|Hi].
    + rewrite decide_True.
      * rewrite !fmap_cons, IH. done.
      * apply has_coordinates_spec in Hc as [? ?].
        unfold has_injury_data in Hi. apply bool_decide_eq_true in Hi. done.
    + rewrite decide_False; [exact IH|].
      intros (_ & _ & He). apply Hi. unfold has_injury_data.
      by apply bool_decide_eq_true.
  - rewrite decide_False; [exact IH|].
    intros (? & ? & _). apply Hc. by apply has_coordinates_spec.
Qed.

Lemma filled_complete (r : Raw.row) : kept r → complete (filled r) ∧ kept (filled r).
Proof.
  intros (Hlat & Hlon & Hany). unfold complete, kept, filled.
  cbn [Raw.latitude Raw.longitude fill_zero fill_unknown].
  assert (Hall : Forall is_Some (injury_cells (fill_zero (fill_unknown r)))).
  { unfold injury_cells. cbn. rewrite !fillna_default. repeat constructor; eauto. }
  repeat split; try done.
  - unfold label_cells. cbn. rewrite !fillna_default. repeat constructor; eauto.
  - apply Exists_exists. exists (Raw.number_of_persons_injured (fill_zero (fill_unknown r))).
    split; [by left|]. cbn. rewrite fillna_default. eauto.
Qed.

Lemma filled_fixed (r : Raw.row) : complete r → filled r = r.
Proof.
  intros (_ & _ & Hinj & Hlab). destruct r. unfold filled, fill_zero, fill_unknown.
  unfold injury_cells, label_cells in *. cbn in *.
  repeat match goal with
         | H : Forall _ (_ :: _) |- _ => apply Forall_cons in H as [[? ->] H]
         end.
  reflexivity.
Qed.

(** X5: step 5 keeps, in their order, exactly the rows that have both
    coordinates and at least one of the eight counts, and gives each of
    them its fillings; no cell that the cleaning looks at is missing in the
    result; the coordinates, the date and the time of a kept row are not
    touched, a count that is missing becomes 0 and a count that is present
    stays, and likewise the factors and vehicle types with "Unknown". *)
Theorem handle_missing_complete (df : list Raw.row) :
  handle_missing df = filled <$> filter kept df ∧
  Forall complete (handle_missing df) ∧
  length (handle_missing df) ≤ length df ∧
  (∀ r,
     Raw.latitude (filled r) = Raw.latitude r ∧
     Raw.longitude (filled r) = Raw.longitude r ∧
     Raw.crash_date (filled r) = Raw.crash_date r ∧
     Raw.crash_time (filled r) = Raw.crash_time r ∧
     injury_cells (filled r) = (λ cell, Some (default 0%Z cell)) <$> injury_cells r ∧
     label_cells (filled r) = (λ cell, Some (default "Unknown" cell)) <$> label_cells r).
Proof.
  split; [apply handle_missing_filter|]. rewrite handle_missing_filter.
  split; [|split].
  - apply Forall_fmap, Forall_forall. intros r [Hr _]%list_elem_of_filter.
    by apply filled_complete.
  - rewrite length_fmap. apply length_filter.
  - intros r. unfold filled, injury_cells, label_cells. cbn.
    rewrite !fillna_default. done.
Qed.

(** X6: step 5 applied to its own result changes nothing: the rows it
    returns are all kept by a second pass, and none of their cells is filled
    again. *)
Theorem handle_missing_idempotent (df : list Raw.row) :
  handle_missing (handle_missing df) = handle_missing df.
Proof.
  rewrite (handle_missing_filter (handle_missing df)).
  assert (Hall : Forall (λ r, kept r ∧ complete r) (handle_missing df)).
  { rewrite handle_missing_filter. apply Forall_fmap, Forall_forall.
    intros r [Hr _]%list_elem_of_filter. cbn. by destruct (filled_complete r Hr). }
  induction Hall as [|r rows [Hkept Hcomplete] _ IH]; [done|].
  rewrite filter_cons_True by done.
  by rewrite fmap_cons, IH, filled_fixed.
Qed.

(** X7: a row that step 5 keeps is read by the feature engineering with a
    severity score in which each missing count weighs nothing; the score is
    not negative when the counts that are present are not; and a first
    factor or vehicle type that was missing ends in the categories
    "Unknown/Other" and "Unknown". *)
Theorem kept_row_features (crash_datetime : string) (r : Raw.row) :
  kept r →
  ∃ c,
    to_features crash_datetime (filled r) = Some c ∧
    Severity.severity_score c =
      (5 * (default 0 (Raw.number_of_persons_killed r) +
            default 0 (Raw.number_of_pedestrians_killed r) +
            default 0 (Raw.number_of_cyclist_killed r) +
            default 0 (Raw.number_of_motorist_killed r)) +
       (default 0 (Raw.number_of_persons_injured r) +
        default 0 (Raw.number_of_pedestrians_injured r) +
        default 0 (Raw.number_of_cyclist_injured r) +
        default 0 (Raw.number_of_motorist_injured r)))%Z ∧
    (Forall (λ cell, ∀ n, cell = Some n → (0 ≤ n)%Z) (injury_cells r) →
     (0 ≤ Severity.severity_score c)%Z) ∧
    (Raw.contributing_factor_vehicle_1 r = None →
     Remapping.contributing_factor_category c = Some "Unknown/Other") ∧
    (Raw.vehicle_type_code_1 r = None →
     Remapping.vehicle_category c = "Unknown").
Proof.
  intros ([lat Hlat] & [lon Hlon] & _).
  unfold to_features, filled. cbn. rewrite Hlat, Hlon, !fillna_default. cbn.
  eexists. split; [reflexivity|].
  unfold Severity.severity_score, Severity.total_deaths, Severity.total_injuries,
    Severity.sum_axis1. cbn.
  split; [lia|]. split; [|split].
  - unfold injury_cells. intros Hnn.
    repeat match goal with
           | H : Forall _ (_ :: _) |- _ => apply Forall_cons in H as [? H]
           end.
    repeat match goal with
           | H : ∀ n, ?cell = Some n → _ |- _ =>
               destruct cell; [specialize (H _ eq_refl)|clear H]
           end; cbn; lia.
  - intros ->. reflexivity.
  - intros ->. reflexivity.
Qed.

Lemma kept_row_features_witness :
  kept (raw_example (Some 40.7128%Q) (Some (-74.006)%Q) (Some 2%Z) None None None) ∧
  ∃ c,
    to_features "2021-09-11 02:39:00"
      (filled (raw_example (Some 40.7128%Q) (Some (-74.006)%Q) (Some 2%Z) None None None)) =
      Some c ∧
    Remapping.vehicle_category c = "Unknown".
Proof.
  assert (Hkept : kept (raw_example (Some 40.7128%Q) (Some (-74.006)%Q) (Some 2%Z)
                          None None None)).
  { split; [by eexists|]. split; [by eexists|]. apply Exists_cons_hd. by eexists. }
  split; [exact Hkept|].
  destruct (kept_row_features "2021-09-11 02:39:00" _ Hkept)
    as (c & Hc & _ & _ & _ & Hv).
  exists c. split; [exact Hc|]. apply Hv. reflexivity.
Defined.

End MissingValues.

(** ** Fallback for the primary contributing factor
    ([exploratory_data_analysis.py]) *)

Module Exploratory.

(** The five factor columns of a row of the cleaned data, where no cell is
    missing. *)
Module Cleaned.

Record row : Type := {
  contributing_factor_vehicle_1 : string;
  contributing_factor_vehicle_2 : string;
  contributing_factor_vehicle_3 : string;
  contributing_factor_vehicle_4 : string;
  contributing_factor_vehicle_5 : string
}.

End Cleaned.

(** The list of the two tests [not in ["Unknown", "Unspecified"]]. *)
Definition placeholders : list string := ["Unknown"; "Unspecified"].

(** The [for] loop over the secondary columns, with its early [return]. *)
Fixpoint first_informative (cells : list string) : option string :=
  match cells with
  | [] => None
  | cell :: rest =>
      if bool_decide (cell ∉ placeholders) then Some cell else first_informative rest
  end.

Definition determine_primary_contributing_factor (row : Cleaned.row) : string :=
  if bool_decide (Cleaned.contributing_factor_vehicle_1 row ∉ placeholders)
  then Cleaned.contributing_factor_vehicle_1 row
  else
    match first_informative [Cleaned.contributing_factor_vehicle_2 row;
                             Cleaned.contributing_factor_vehicle_3 row;
                             Cleaned.contributing_factor_vehicle_4 row;
                             Cleaned.contributing_factor_vehicle_5 row] with
    | Some cell => cell
    | None => Cleaned.contributing_factor_vehicle_1 row
    end.

(** [df.apply(determine_primary_contributing_factor, axis=1)] *)
Definition primary_contributing_factor (df : list Cleaned.row) : list string :=
  determine_primary_contributing_factor <$> df.

(** [value_counts().get('Unknown', 0)] and the same for 'Unspecified',
    added up. *)
Definition count_placeholders (column : list string) : nat :=
  length (filter (λ cell, cell ∈ placeholders) column).

(** The five factor cells of a row, in the order of the columns. *)
Definition factor_cells (row : Cleaned.row) : list string :=
  [Cleaned.contributing_factor_vehicle_1 row;
   Cleaned.contributing_factor_vehicle_2 row;
   Cleaned.contributing_factor_vehicle_3 row;
   Cleaned.contributing_factor_vehicle_4 row;
   Cleaned.contributing_factor_vehicle_5 row].

(** A frame for the examples: the first factor is informative, only a
    secondary one is, none is. *)
Definition factors_example : list Cleaned.row :=
  [{| Cleaned.contributing_factor_vehicle_1 := "Unsafe Speed";
      Cleaned.contributing_factor_vehicle_2 := "Unspecified";
      Cleaned.contributing_factor_vehicle_3 := "Unknown";
      Cleaned.contributing_factor_vehicle_4 := "Unknown";
      Cleaned.contributing_factor_vehicle_5 := "Unknown" |};
   {| Cleaned.contributing_factor_vehicle_1 := "Unspecified";
      Cleaned.contributing_factor_vehicle_2 := "Unknown";
      Cleaned.contributing_factor_vehicle_3 := "Glare";
      Cleaned.contributing_factor_vehicle_4 := "Texting";
      Cleaned.contributing_factor_vehicle_5 := "Unknown" |};
   {| Cleaned.contributing_factor_vehicle_1 := "Unspecified";
      Cleaned.contributing_factor_vehicle_2 := "Unknown";
      Cleaned.contributing_factor_vehicle_3 := "Unknown";
      Cleaned.contributing_factor_vehicle_4 := "Unknown";
      Cleaned.contributing_factor_vehicle_5 := "Unknown" |}].

Lemma first_informative_None (cells : list string) :
  first_informative cells = None ↔ Forall (λ cell, cell ∈ placeholders) cells.
Proof.
  induction cells as [|cell cells IH]; cbn [first_informative].
  - split; [constructor|done].
  - destruct (bool_decide_reflect (cell ∉ placeholders)) as [Hc|Hc].
    + split; [done|]. by intros [? _]%Forall_cons.
    + rewrite IH, Forall_cons. apply dec_stable in Hc. tauto.
Qed.

Lemma first_informative_Some (cells : list string) (cell : string) :
  first_informative cells = Some cell ↔
  ∃ i, cells !! i = Some cell ∧ (cell ∉ placeholders) ∧
       Forall (λ cell', cell' ∈ placeholders) (take i cells).
Proof.
  revert cell. induction cells as [|c cells IH]; intros cell; cbn [first_informative].
  - split; [done|]. by intros (i & ? & _).
  - destruct (bool_decide_reflect (c ∉ placeholders)) as [Hc|Hc].
    + split.
      * intros [= <-]. exists 0. by repeat split.
      * intros ([|i] & Hi & Hcell & Hbefore); [by injection Hi as ->|].
        cbn [take] in Hbefore. by apply Forall_cons in Hbefore as [? _].
    + apply dec_stable in Hc. rewrite IH. split.
      * intros (i & Hi & Hcell & Hbefore). exists (S i). repeat split; try done.
        cbn [take]. by constructor.
      * intros ([|i] & Hi & Hcell & Hbefore); [by injection Hi as ->|].
        exists i. cbn [take] in Hbefore. apply Forall_cons in Hbefore as [_ ?].
        done.
Qed.

(** The function looks at the five cells from the first to the last. *)
Lemma determine_first_informative (row : Cleaned.row) :
  determine_primary_contributing_factor row =
  default (Cleaned.contributing_factor_vehicle_1 row)
          (first_informative (factor_cells row)).
Proof.
  unfold determine_primary_contributing_factor, factor_cells.
  cbn [first_informative].
  destruct (bool_decide (Cleaned.contributing_factor_vehicle_1 row ∉ placeholders));
    [done|].
  by repeat match goal with |- context [bool_decide ?P] => destruct (bool_decide P) end.
Qed.

(** X8: the primary factor of a row is one of its five factor cells: the
    first one, in the order of the columns, that is neither "Unknown" nor
    "Unspecified", and the first cell when there is none. So it is a
    placeholder only when all five cells are, and over a frame the
    placeholders of the new column are at most as many as those of the first
    factor column. *)
Theorem primary_factor_is_first_informative (row : Cleaned.row) :
  determine_primary_contributing_factor row ∈ factor_cells row ∧
  (∀ i cell,
     factor_cells row !! i = Some cell → cell ∉ placeholders →
     Forall (λ cell', cell' ∈ placeholders) (take i (factor_cells row)) →
     determine_primary_contributing_factor row = cell) ∧
  (determine_primary_contributing_factor row ∈ placeholders ↔
   Forall (λ cell, cell ∈ placeholders) (factor_cells row)) ∧
  (Forall (λ cell, cell ∈ placeholders) (factor_cells row) →
   determine_primary_contributing_factor row =
   Cleaned.contributing_factor_vehicle_1 row) ∧
  (∀ df,
     length (primary_contributing_factor df) = length df ∧
     count_placeholders (primary_contributing_factor df) ≤
     count_placeholders (Cleaned.contributing_factor_vehicle_1 <$> df)).
Proof.
  assert (Hall : ∀ r, determine_primary_contributing_factor r ∈ placeholders ↔
                      Forall (λ cell, cell ∈ placeholders) (factor_cells r)).
  { intros r. rewrite determine_first_informative.
    destruct (first_informative (factor_cells r)) as [cell|] eqn:Hfirst; cbn [default].
    - apply first_informative_Some in Hfirst as (i & Hi & Hcell & _). split; [done|].
      intros Hcells. rewrite Forall_forall in Hcells.
      exfalso. apply Hcell, Hcells. by eapply list_elem_of_lookup_2.
    - apply first_informative_None in Hfirst. split; [done|]. intros _.
      by apply Forall_cons in Hfirst as [? _]. }
  rewrite determine_first_informative.
  split; [|split; [|split; [|split]]].
  - destruct (first_informative (factor_cells row)) as [cell|] eqn:Hfirst; cbn [default].
    + apply first_informative_Some in Hfirst as (i & Hi & _).
      by eapply list_elem_of_lookup_2.
    + apply list_elem_of_here.
  - intros i cell Hi Hcell Hbefore.
    assert (first_informative (factor_cells row) = Some cell) as ->; [|done].
    apply first_informative_Some. by exists i.
  - rewrite <- determine_first_informative. apply Hall.
  - intros Hcells. apply first_informative_None in Hcells. by rewrite Hcells.
  - intros df. unfold primary_contributing_factor, count_placeholders.
    split; [apply length_fmap|].
    induction df as [|r df IH]; [done|]. rewrite !fmap_cons, !filter_cons.
    destruct (decide (determine_primary_contributing_factor r ∈ placeholders)) as [Hp|Hp].
    + apply Hall in Hp. apply Forall_cons in Hp as [Hfirst _].
      rewrite decide_True by done. cbn [length]. lia.
    + destruct (decide (Cleaned.contributing_factor_vehicle_1 r ∈ placeholders));
        cbn [length]; lia.
Qed.

Example primary_contributing_factor_example :
  primary_contributing_factor factors_example =
    ["Unsafe Speed"; "Glare"; "Unspecified"] ∧
  count_placeholders (Cleaned.contributing_factor_vehicle_1 <$> factors_example) = 2 ∧
  count_placeholders (primary_contributing_factor factors_example) = 1.
Proof. by vm_compute. Qed.

End Exploratory.

(** ** Chunk sizes at the edges ([feature_engineering.py], step 7) *)

Module ChunkEdges.

Section edges.

Variable radians : Q → Q.
Variable DBSCAN_fit_labels : Q → Z → Clustering.metric → list (Q * Q) → list Z.

(** The whole frame clustered in one call of the library. *)
Definition cluster_at_once (dataframe : list collision) (eps : Q) (min_samples : Z) :
    list Z :=
  DBSCAN_fit_labels eps min_samples Clustering.haversine
    (Clustering.np_radians radians (Clustering.coordinates_of dataframe)).

(** X9: a chunk size of zero makes [range] raise [ValueError] on every
    frame; a negative chunk size gives no chunk, hence no label, whatever
    the frame holds; an empty frame gives no label and no call of the
    library; and a frame that is not empty and fits into one chunk is
    clustered by a single call on the whole frame. *)
Theorem cluster_in_chunks_edge_sizes (dataframe : list collision) (chunk_size : Z)
    (eps : Q) (min_samples : Z) :
  (chunk_size = 0%Z →
   Clustering.cluster_in_chunks radians DBSCAN_fit_labels dataframe chunk_size
     eps min_samples = Raise ValueError) ∧
  ((chunk_size < 0)%Z →
   Clustering.cluster_in_chunks radians DBSCAN_fit_labels dataframe chunk_size
     eps min_samples = Ok []) ∧
  (chunk_size ≠ 0%Z →
   Clustering.cluster_in_chunks radians DBSCAN_fit_labels [] chunk_size
     eps min_samples = Ok []) ∧
  (dataframe ≠ [] → (Z.of_nat (length dataframe) ≤ chunk_size)%Z →
   Clustering.cluster_in_chunks radians DBSCAN_fit_labels dataframe chunk_size
     eps min_samples = Ok (cluster_at_once dataframe eps min_samples)).
Proof.
  split; [|split; [|split]].
  - intros ->. reflexivity.
  - intros Hneg. unfold Clustering.cluster_in_chunks, Clustering.range,
      Clustering.range_length.
    destruct (Z.eqb_spec chunk_size 0) as [|_]; [lia|].
    destruct (Z.ltb_spec 0 chunk_size) as [|_]; [lia|].
    destruct (Z.ltb_spec (Z.of_nat (length dataframe)) 0) as [|_]; [lia|].
    reflexivity.
  - intros Hne. unfold Clustering.cluster_in_chunks, Clustering.range,
      Clustering.range_length.
    destruct (Z.eqb_spec chunk_size 0) as [|_]; [done|].
    cbn [length Z.of_nat]. rewrite !Z.ltb_irrefl.
    by destruct (0 <? chunk_size)%Z.
  - intros Hne Hfit.
    assert (Hsize : (0 < chunk_size)%Z) by (destruct dataframe; [done|simpl in *; lia]).
    rewrite Clustering.cluster_in_chunks_spec by done. f_equal.
    rewrite Clustering.spec_cluster_in_chunks_cons by (done || lia).
    rewrite take_ge, drop_ge by lia.
    unfold Clustering.spec_cluster_in_chunks.
    rewrite Clustering.partition_chunks_nil. cbn [fmap list_fmap concat].
    by rewrite app_nil_r.
Qed.

End edges.

Lemma cluster_in_chunks_edge_sizes_witness :
  Clustering.three_rows ≠ [] ∧
  (Z.of_nat (length Clustering.three_rows) ≤ 10000)%Z ∧
  Clustering.cluster_in_chunks Clustering.radians_example Clustering.all_noise
    Clustering.three_rows 10000 0.01 10 =
  Ok (cluster_at_once Clustering.radians_example Clustering.all_noise
        Clustering.three_rows 0.01 10).
Proof.
  assert (Hne : Clustering.three_rows ≠ []) by discriminate.
  assert (Hfit : (Z.of_nat (length Clustering.three_rows) ≤ 10000)%Z)
    by (vm_compute; discriminate).
  split; [exact Hne|]. split; [exact Hfit|].
  exact (proj2 (proj2 (proj2 (cluster_in_chunks_edge_sizes
           Clustering.radians_example Clustering.all_noise Clustering.three_rows
           10000 0.01 10))) Hne Hfit).
Defined.

End ChunkEdges.

(** ** Range of the crash rate ([feature_engineering.py], step 6) *)

Module CrashRateBounds.

(** The scores of the rows that share the cell of [r]. *)
Definition cell_scores (df : list collision) (r : collision) : list Z :=
  Severity.severity_score <$> Location.same_cell df r.

(** Two rows of one cell with the scores 0 and 2, and a row alone in its
    cell. *)
Definition row_at (lat lon : Q) (injured killed : Z) : collision :=
  {| crash_datetime := "2020-03-15 07:30:00";
     latitude := lat; longitude := lon;
     number_of_persons_injured := injured; number_of_persons_killed := killed;
     number_of_pedestrians_injured := 0; number_of_pedestrians_killed := 0;
     number_of_cyclist_injured := 0; number_of_cyclist_killed := 0;
     number_of_motorist_injured := 0; number_of_motorist_killed := 0;
     contributing_factor_vehicle_1 := "Unspecified";
     vehicle_type_code_1 := "Sedan" |}.

Definition rows_example : list collision :=
  [row_at 40.7128 (-74.006) 0 0;
   row_at 40.7131 (-74.0058) 2 0;
   row_at 40.6501 (-73.9496) 2 1].

Lemma sum_bounds (scores : list Z) (lo hi : Z) :
  Forall (λ s, (lo ≤ s ≤ hi)%Z) scores →
  (lo * Z.of_nat (length scores) ≤ foldr Z.add 0%Z scores ≤
   hi * Z.of_nat (length scores))%Z.
Proof.
  induction 1 as [|s scores Hs _ IH]; [simpl; lia|].
  cbn [foldr length]. lia.
Qed.

Lemma arithmetic_mean_bounds (scores : list Z) (lo hi : Z) :
  scores ≠ [] →
  Forall (λ s, (lo ≤ s ≤ hi)%Z) scores →
  (inject_Z lo <= Location.arithmetic_mean scores)%Q ∧
  (Location.arithmetic_mean scores <= inject_Z hi)%Q.
Proof.
  intros Hne Hall. unfold Location.arithmetic_mean.
  pose proof (sum_bounds scores lo hi Hall) as [Hlo Hhi].
  assert (Hpos : (0 < inject_Z (Z.of_nat (length scores)))%Q).
  { change 0%Q with (inject_Z 0). rewrite <- Zlt_Qlt.
    destruct scores; [done|simpl; lia]. }
  split.
  - apply Qle_shift_div_l; [done|]. rewrite <- inject_Z_mult. by rewrite <- Zle_Qle.
  - apply Qle_shift_div_r; [done|]. rewrite <- inject_Z_mult. by rewrite <- Zle_Qle.
Qed.

Lemma crash_rate_row (df : list collision) (i : nat) (r : collision) :
  df !! i = Some r →
  Location.crash_rate df !! i =
  Some (Some (Location.arithmetic_mean (cell_scores df r))).
Proof.
  intros Hi. unfold Location.crash_rate.
  rewrite list_lookup_fmap, Hi. cbn [fmap option_fmap option_map].
  rewrite Location.group_totals_lookup by by eapply list_elem_of_lookup_2.
  cbn. unfold Location.group_mean, Location.arithmetic_mean, cell_scores.
  cbn [fst snd]. by rewrite length_fmap.
Qed.

Lemma assign_severity_level_Qeq (x y : Q) :
  (x == y)%Q →
  SeverityLevels.assign_severity_level x = SeverityLevels.assign_severity_level y.
Proof.
  intros Hxy. unfold SeverityLevels.assign_severity_level, SeverityLevels.Qlt_bool.
  assert (H1 : ∀ a, Qle_bool x a = Qle_bool y a) by (intros a; by apply Qleb_comp).
  by rewrite !H1.
Qed.

(** X10: the crash rate of a row lies between the lowest and the highest
    severity score of the rows that share its cell; where those rows all
    have one score, as for a row alone in its cell, the crash rate is that
    score, and the thresholds of the severity levels applied to the crash
    rate give the severity category of the row. *)
Theorem crash_rate_within_cell_scores (df : list collision) (i : nat) (r : collision)
    (lo hi : Z) :
  df !! i = Some r →
  (∀ r', r' ∈ df → Location.location_grid r' = Location.location_grid r →
         (lo ≤ Severity.severity_score r' ≤ hi)%Z) →
  ∃ rate,
    Location.crash_rate df !! i = Some (Some rate) ∧
    (inject_Z lo <= rate)%Q ∧ (rate <= inject_Z hi)%Q ∧
    (lo = hi →
     (rate == inject_Z (Severity.severity_score r))%Q ∧
     SeverityLevels.assign_severity_level rate = Severity.severity_category r).
Proof.
  intros Hi Hcell. exists (Location.arithmetic_mean (cell_scores df r)).
  split; [by apply crash_rate_row|].
  assert (Hr : r ∈ Location.same_cell df r).
  { apply list_elem_of_filter. split; [done|]. by eapply list_elem_of_lookup_2. }
  destruct (arithmetic_mean_bounds (cell_scores df r) lo hi) as [Hlo Hhi].
  { unfold cell_scores. destruct (Location.same_cell df r); [|done].
    by apply elem_of_nil in Hr. }
  { unfold cell_scores. apply Forall_fmap, Forall_forall.
    intros r' [Hsame Hin]%list_elem_of_filter. by apply Hcell. }
  split; [done|]. split; [done|]. intros <-.
  assert (Hscore : Severity.severity_score r = lo).
  { apply list_elem_of_filter in Hr as [Hsame Hin].
    specialize (Hcell r Hin Hsame). lia. }
  assert (Hrate : (Location.arithmetic_mean (cell_scores df r) ==
                   inject_Z (Severity.severity_score r))%Q).
  { rewrite Hscore. by apply Qle_antisym. }
  split; [done|].
  rewrite (assign_severity_level_Qeq _ _ Hrate).
  apply SeverityLevels.assign_severity_level_integer.
Qed.

Lemma crash_rate_within_cell_scores_witness :
  rows_example !! 2 = Some (row_at 40.6501 (-73.9496) 2 1) ∧
  ∃ rate,
    Location.crash_rate rows_example !! 2 = Some (Some rate) ∧
    SeverityLevels.assign_severity_level rate = "Medium".
Proof.
  assert (Hi : rows_example !! 2 = Some (row_at 40.6501 (-73.9496) 2 1))
    by reflexivity.
  assert (Hcell : ∀ r', r' ∈ rows_example →
            Location.location_grid r' =
              Location.location_grid (row_at 40.6501 (-73.9496) 2 1) →
            (7 ≤ Severity.severity_score r' ≤ 7)%Z).
  { intros r' Hin Hsame. unfold rows_example in Hin.
    repeat (apply elem_of_cons in Hin as [->|Hin]);
      [vm_compute in Hsame; discriminate Hsame
      |vm_compute in Hsame; discriminate Hsame
      |vm_compute; split; discriminate
      |destruct (proj1 (elem_of_nil _) Hin)]. }
  split; [exact Hi|].
  destruct (crash_rate_within_cell_scores rows_example 2 _ 7 7 Hi Hcell)
    as (rate & Hrate & _ & _ & Hsame).
  exists rate. split; [exact Hrate|].
  destruct (Hsame eq_refl) as [_ ->]. reflexivity.
Defined.

Lemma sum_Permutation (l1 l2 : list Z) :
  l1 ≡ₚ l2 → foldr Z.add 0%Z l1 = foldr Z.add 0%Z l2.
Proof. induction 1; cbn [foldr]; lia. Qed.

(** X11: the crash rate does not depend on the order of the rows: two
    frames with the same rows give the same table of cells, and a row has
    the same crash rate at its place in the one and in the other. *)
Theorem crash_rate_ignores_row_order (df df' : list collision) :
  df ≡ₚ df' →
  Location.group_totals df = Location.group_totals df' ∧
  Location.crash_rate df ≡ₚ Location.crash_rate df' ∧
  ∀ i j r, df !! i = Some r → df' !! j = Some r →
           Location.crash_rate df !! i = Location.crash_rate df' !! j.
Proof.
  intros Hperm.
  assert (Htotals : Location.group_totals df = Location.group_totals df').
  { apply map_eq. intros cell. unfold Location.group_totals.
    rewrite !Location.foldl_accumulate_lookup.
    assert (Hcell : filter (λ r, Location.location_grid r = cell) df ≡ₚ
                    filter (λ r, Location.location_grid r = cell) df')
      by by rewrite Hperm.
    pose proof (Permutation_length Hcell) as Hlen.
    pose proof (sum_Permutation _ _ (fmap_Permutation Severity.severity_score _ _ Hcell))
      as Hsum.
    destruct (filter _ df) as [|r rows], (filter _ df') as [|r' rows'];
      try done.
    cbn [fmap list_fmap Location.add_scores] in *.
    rewrite lookup_empty. cbn [default]. cbn [length] in *.
    rewrite !length_fmap. by rewrite Hsum, Hlen. }
  split; [done|]. unfold Location.crash_rate. rewrite <- Htotals.
  split; [by apply fmap_Permutation|].
  intros i j r Hi Hj. by rewrite !list_lookup_fmap, Hi, Hj.
Qed.

Lemma crash_rate_ignores_row_order_witness :
  rows_example ≡ₚ reverse rows_example ∧
  Location.crash_rate rows_example !! 2 =
  Location.crash_rate (reverse rows_example) !! 0.
Proof.
  assert (Hperm : rows_example ≡ₚ reverse rows_example)
    by (symmetry; apply reverse_Permutation).
  split; [exact Hperm|].
  apply (proj2 (proj2 (crash_rate_ignores_row_order _ _ Hperm))
           2 0 (row_at 40.6501 (-73.9496) 2 1)); reflexivity.
Defined.

End CrashRateBounds.

(** ** Feature names of the trained model ([machine_learning.py]) and how
    the application reads them ([app.py]) *)

Module FeatureNames.

Definition categorical_features : list string :=
  ["day_of_week"; "time_of_day"; "month"; "vehicle_category";
   "contributing_factor_category"; "borough"].

Definition numerical_features : list string :=
  ["latitude"; "longitude"; "crash_rate"].

(** [preprocessor.get_feature_names_out()]: the column transformer puts
    the name of the transformer and two underscores before the name its
    transformer gives; the scaler keeps the name of the column, and the
    one-hot encoder writes the column, an underscore and the category. *)
Definition num_feature_name (column : string) : string := "num__" +:+ column.

Definition cat_feature_name (column value : string) : string :=
  "cat__" +:+ column +:+ "_" +:+ value.

Definition get_feature_names_out (categories : list (string * list string)) :
    list string :=
  (num_feature_name <$> numerical_features) ++
  concat ((λ group : string * list string, cat_feature_name group.1 <$> group.2)
          <$> categories).

(** The values that the feature engineering and the borough mapping can
    write into the categorical columns: the day names, the labels of the
    times of day, the months as the encoder prints them, the vehicle
    categories with the filling value, the factor categories and the
    boroughs. *)
Definition pipeline_categories : list (string * list string) :=
  [("day_of_week", Temporal.DAYS_FULL);
   ("time_of_day", ["Night"; "Morning"; "Afternoon"; "Evening"]);
   ("month", (λ m : nat, pretty (Z.of_nat m)) <$> seq 1 12);
   ("vehicle_category", "Unknown" :: Remapping.vehicle_entries.*2);
   ("contributing_factor_category", Remapping.factor_entries.*2);
   ("borough", Borough.borough_values)].

(** The text has no two underscores in a row. *)
Fixpoint no_double_underscore (s : string) : bool :=
  match s with
  | EmptyString => true
  | String _ s' => negb (Alignment.startswith s "__") && no_double_underscore s'
  end.

(** *** The file of the feature names *)

(** [sep.join(names)] *)
Fixpoint join (sep : string) (names : list string) : string :=
  match names with
  | [] => EmptyString
  | [name] => name
  | name :: names' => name +:+ sep +:+ join sep names'
  end.

(** The line boundaries of [str.splitlines] among the first 256 code
    points: line feed, vertical tab, form feed, carriage return, the three
    separators 28 to 30 and the next-line character 133. *)
Definition is_line_boundary (c : ascii) : bool :=
  bool_decide (nat_of_ascii c ∈ [10; 11; 12; 13; 28; 29; 30; 133]).

(** [text.splitlines()]: a boundary ends a line, a carriage return and
    the line feed after it count as one boundary, and the text after the
    last boundary is a line when it is not empty. [after_cr] tells that
    the character before was a carriage return. *)
Fixpoint splitlines_from (after_cr : bool) (text : string) : list string :=
  match text with
  | EmptyString => []
  | String c text' =>
      if after_cr && bool_decide (c = "010"%char) then splitlines_from false text'
      else if is_line_boundary c then
        EmptyString :: splitlines_from (bool_decide (c = "013"%char)) text'
      else
        match splitlines_from false text' with
        | line :: lines => String c line :: lines
        | [] => [String c EmptyString]
        end
  end.

Definition splitlines (text : string) : list string := splitlines_from false text.

(** What [machine_learning.py] writes and what [app.py] reads back. *)
Definition written (feature_names : list string) : string :=
  join (String "010" EmptyString) feature_names.

Definition read_back (feature_names : list string) : list string :=
  splitlines (written feature_names).

(** A name that can stand on a line of its own. *)
Definition one_line (name : string) : Prop :=
  name ≠ EmptyString ∧
  Forall (λ c, is_line_boundary c = false) (ColumnNames.chars name).


Lemma length_append (a b : string) :
  String.length (a +:+ b) = String.length a + String.length b.
Proof.
  induction a as [|c a IH]; [done|].
  rewrite Alignment.append_cons. cbn [String.length]. by rewrite IH.
Qed.

Lemma rsplit_once_absent (sep : ascii) (v : string) :
  sep ∉ ColumnNames.chars v → Alignment.rsplit_once sep v = None.
Proof.
  induction v as [|c v IH]; [done|]. cbn [ColumnNames.chars Alignment.rsplit_once].
  intros Hv. rewrite IH by (intros ?; apply Hv; by right).
  rewrite decide_False; [done|]. intros ->. apply Hv. by left.
Qed.

Lemma rsplit_once_present (sep : ascii) (v : string) :
  sep ∈ ColumnNames.chars v → is_Some (Alignment.rsplit_once sep v).
Proof.
  induction v as [|c v IH]; cbn [ColumnNames.chars Alignment.rsplit_once].
  - by intros ?%elem_of_nil.
  - intros [<-|Hv]%elem_of_cons.
    + destruct (Alignment.rsplit_once sep v) as [[] |]; [done|].
      by rewrite decide_True.
    + destruct (IH Hv) as [[b a] ->]. done.
Qed.

Lemma rsplit_once_longer (sep : ascii) (p v before after : string) :
  Alignment.rsplit_once sep v = Some (before, after) →
  Alignment.rsplit_once sep (p +:+ v) = Some (p +:+ before, after).
Proof.
  intros Hv. induction p as [|c p IH].
  - by rewrite !Alignment.append_nil.
  - rewrite !Alignment.append_cons. cbn [Alignment.rsplit_once]. by rewrite IH.
Qed.

Lemma rsplit_once_column (sep : ascii) (column value : string) :
  Alignment.rsplit_once sep value = None →
  Alignment.rsplit_once sep (column +:+ String sep value) = Some (column, value).
Proof.
  intros Hv.
  rewrite <- (Alignment.append_nil value) at 2.
  replace (Some (column, EmptyString +:+ value))
    with (Some (column +:+ EmptyString, EmptyString +:+ value)).
  2:{ do 2 f_equal. induction column as [|c column IH]; [done|].
      rewrite Alignment.append_cons. by rewrite IH. }
  rewrite Alignment.append_nil.
  apply rsplit_once_longer. cbn [Alignment.rsplit_once].
  by rewrite Hv, decide_True.
Qed.

Lemma split_double_absent (s : string) :
  no_double_underscore s = true → Alignment.split_from "__" 0 s = [s].
Proof.
  induction s as [|c s IH]; [done|].
  cbn [no_double_underscore]. intros [Hc Hs]%andb_true_iff.
  apply negb_true_iff in Hc.
  cbn [Alignment.split_from]. rewrite Hc. by rewrite IH.
Qed.

Lemma no_double_absent (v : string) :
  "_"%char ∉ ColumnNames.chars v →
  Alignment.startswith v "_" = false ∧ no_double_underscore v = true.
Proof.
  induction v as [|c v IH]; [done|]. cbn [ColumnNames.chars]. intros Hv.
  assert (Hc : "_"%char ≠ c) by (intros <-; apply Hv; by left).
  destruct IH as [_ IH]; [intros ?; apply Hv; by right|].
  cbn [Alignment.startswith no_double_underscore].
  rewrite !decide_False by done. by rewrite IH.
Qed.

Lemma startswith_cons (c a : ascii) (s p : string) :
  Alignment.startswith (String c s) (String a p) =
  if decide (a = c) then Alignment.startswith s p else false.
Proof. reflexivity. Qed.

Lemma startswith_first (a b : string) (c : ascii) :
  a ≠ EmptyString →
  Alignment.startswith (a +:+ b) (String c EmptyString) =
  Alignment.startswith a (String c EmptyString).
Proof. by destruct a. Qed.

Lemma no_double_column (column value : string) :
  no_double_underscore (column +:+ "_") = true →
  "_"%char ∉ ColumnNames.chars value →
  no_double_underscore (column +:+ String "_" value) = true.
Proof.
  intros Hcolumn Hvalue. destruct (no_double_absent value Hvalue) as [Hstart Hno].
  induction column as [|c column IH].
  - rewrite Alignment.append_nil. cbn [no_double_underscore].
    rewrite startswith_cons, decide_True by done. by rewrite Hstart, Hno.
  - rewrite Alignment.append_cons in *. cbn [no_double_underscore] in *.
    apply andb_true_iff in Hcolumn as [Hc Hrest]. rewrite IH by done.
    rewrite andb_true_r. apply negb_true_iff in Hc. apply negb_true_iff.
    rewrite startswith_cons in *. destruct (decide ("_"%char = c)); [|done].
    etrans; [|exact Hc].
    replace (column +:+ String "_" value) with ((column +:+ "_") +:+ value).
    + apply startswith_first. by destruct column.
    + by rewrite Alignment.append_assoc.
Qed.

Lemma categorical_features_plain :
  Forall (λ column, no_double_underscore (column +:+ "_") = true) categorical_features.
Proof. repeat constructor. Qed.

Lemma pipeline_categories_plain :
  Forall (λ group : string * list string,
            group.1 ∈ categorical_features ∧
            Forall (λ value, "_"%char ∉ ColumnNames.chars value) group.2)
         pipeline_categories.
Proof. apply (bool_decide_unpack _). vm_compute. reflexivity. Qed.

Lemma split_cat_prefix (rest : string) :
  Alignment.str_split ("cat__" +:+ rest) "__" =
  "cat" :: Alignment.split_from "__" 0 rest.
Proof. reflexivity. Qed.

(** X12: the application reads the names of the encoder back as they were
    built. For each categorical column of the model and each value without
    an underscore, the one-hot name is read as that column and that value;
    the numerical names are read as their columns; every value that the
    pipeline can write into a categorical column is without an underscore.
    A value with an underscore is never read as a value of its column: the
    column is cut at the last underscore of the name. *)
Theorem encoder_names_read_back :
  (∀ column value,
     column ∈ categorical_features → "_"%char ∉ ColumnNames.chars value →
     Alignment.startswith (cat_feature_name column value) "cat__" = true ∧
     Alignment.onehot_named (cat_feature_name column value) ∧
     Alignment.onehot_column (cat_feature_name column value) = Some column ∧
     Alignment.onehot_value (cat_feature_name column value) = Some value) ∧
  (∀ column value,
     "_"%char ∈ ColumnNames.chars value →
     Alignment.onehot_column (cat_feature_name column value) ≠ Some column) ∧
  (∀ column,
     column ∈ numerical_features →
     Alignment.startswith (num_feature_name column) "num__" = true ∧
     Alignment.source_column (num_feature_name column) = Some column) ∧
  (∀ column values value,
     (column, values) ∈ pipeline_categories → value ∈ values →
     column ∈ categorical_features ∧ "_"%char ∉ ColumnNames.chars value).
Proof.
  split; [|split; [|split]].
  - intros column value Hcolumn Hvalue.
    assert (Hsplit : Alignment.str_split (cat_feature_name column value) "__" =
                     ["cat"; column +:+ String "_" value]).
    { unfold cat_feature_name. rewrite split_cat_prefix. f_equal.
      apply split_double_absent, no_double_column; [|done].
      pose proof categorical_features_plain as Hplain.
      rewrite Forall_forall in Hplain. by apply Hplain. }
    assert (Hrsplit : Alignment.rsplit_once "_" (column +:+ String "_" value) =
                      Some (column, value))
      by by apply rsplit_once_column, rsplit_once_absent.
    split; [done|]. split; [|split].
    + by exists (column +:+ String "_" value), column, value.
    + unfold Alignment.onehot_column, Alignment.str_rsplit1.
      by rewrite Hsplit, Hrsplit.
    + unfold Alignment.onehot_value, Alignment.str_split, cat_feature_name.
      replace ("cat__" +:+ column +:+ "_" +:+ value)
        with (("cat__" +:+ column) +:+ String "_" value)
        by by rewrite Alignment.append_assoc.
      by apply Alignment.split_char_last, rsplit_once_absent.
  - intros column value Hvalue.
    unfold Alignment.onehot_column, cat_feature_name. rewrite split_cat_prefix.
    destruct (Alignment.split_from "__" 0 (column +:+ "_" +:+ value))
      as [|category_name [|? ?]] eqn:Hsplit; [done| |done].
    apply Alignment.split_from_single in Hsplit as ->.
    destruct (rsplit_once_present "_" value Hvalue) as [[before after] Hr].
    unfold Alignment.str_rsplit1.
    replace (column +:+ "_" +:+ value) with ((column +:+ "_") +:+ value)
      by by rewrite Alignment.append_assoc.
    rewrite (rsplit_once_longer _ _ _ _ _ Hr). cbn [head].
    intros [= Heq]. apply (f_equal String.length) in Heq.
    rewrite !length_append in Heq. cbn [String.length] in Heq. lia.
  - intros column Hcolumn. unfold numerical_features in Hcolumn.
    repeat (apply elem_of_cons in Hcolumn as [->|Hcolumn]); try done.
    destruct (proj1 (elem_of_nil _) Hcolumn).
  - intros column values value Hgroup Hvalue.
    pose proof pipeline_categories_plain as Hplain.
    rewrite Forall_forall in Hplain. destruct (Hplain _ Hgroup) as [Hc Hv].
    split; [done|]. rewrite Forall_forall in Hv. by apply Hv.
Qed.

Lemma splitlines_line (name text : string) :
  Forall (λ c, is_line_boundary c = false) (ColumnNames.chars name) →
  splitlines_from false (name +:+ String "010" text) =
  name :: splitlines_from false text.
Proof.
  induction name as [|c name IH]; intros Hname.
  - by rewrite Alignment.append_nil.
  - cbn [ColumnNames.chars] in Hname. apply Forall_cons in Hname as [Hc Hname].
    rewrite Alignment.append_cons. cbn [splitlines_from andb].
    by rewrite Hc, IH.
Qed.

Lemma splitlines_last (name : string) :
  name ≠ EmptyString →
  Forall (λ c, is_line_boundary c = false) (ColumnNames.chars name) →
  splitlines_from false name = [name].
Proof.
  induction name as [|c name IH]; [done|]. intros _ Hname.
  cbn [ColumnNames.chars] in Hname. apply Forall_cons in Hname as [Hc Hname].
  cbn [splitlines_from andb]. rewrite Hc.
  destruct name as [|c' name]; [done|]. by rewrite IH.
Qed.

(** X13: the feature names that the training writes into its file, one per
    line, are the names that the application reads from it, in the same
    order, when no name is empty and no name holds a line boundary. *)
Theorem feature_names_file_round_trip (feature_names : list string) :
  Forall one_line feature_names →
  read_back feature_names = feature_names.
Proof.
  unfold read_back, written, splitlines.
  induction 1 as [|name names [Hne Hname] Hnames IH]; [done|].
  destruct names as [|name' names].
  - by apply splitlines_last.
  - change (join _ (name :: name' :: names))
      with (name +:+ String "010" EmptyString +:+ join (String "010" EmptyString) (name' :: names)).
    rewrite Alignment.append_cons, Alignment.append_nil.
    by rewrite splitlines_line, IH.
Qed.

Lemma feature_names_file_round_trip_witness :
  Forall one_line (get_feature_names_out pipeline_categories) ∧
  read_back (get_feature_names_out pipeline_categories) =
  get_feature_names_out pipeline_categories.
Proof.
  assert (Hlines : Forall one_line (get_feature_names_out pipeline_categories)).
  { apply Forall_forall. intros name Hname. split.
    - intros ->. revert Hname. apply (bool_decide_unpack _). vm_compute. reflexivity.
    - revert name Hname. apply Forall_forall.
      apply (bool_decide_unpack _). vm_compute. reflexivity. }
  split; [exact Hlines|].
  exact (feature_names_file_round_trip _ Hlines).
Defined.

(** An empty name at the end of the list is lost, and a name with a line
    break comes back as two names. *)
Example read_back_not_one_line :
  read_back ["num__latitude"; ""] = ["num__latitude"] ∧
  read_back [""] = [] ∧
  read_back [String "a" (String "010" "b")] = ["a"; "b"].
Proof. by vm_compute. Qed.

End FeatureNames.

(** ** The dashboard: filters, queries and the prediction form ([app.py]) *)

Module Dashboard.

(** *** The filtered query of [load_filtered_data] *)

(** A value bound to a placeholder of a query. *)
Inductive sql_value : Type :=
  | Text (s : string)
  | Integer (n : Z).

Definition newline : string := String "010" EmptyString.

(** [','.join(['?'] * n)] *)
Definition question_marks (n : nat) : string :=
  FeatureNames.join "," (replicate n "?").

(** The text of the query up to the time filter, line by line. *)
Definition select_where (boroughs months days_of_week factors vehicles : nat) : string :=
  newline +:+
  "    SELECT " +:+ newline +:+
  "        latitude, longitude, severity_score, severity_category, borough," +:+ newline +:+
  "        day_of_week, time_of_day, crash_rate, contributing_factor_category," +:+ newline +:+
  "        vehicle_category, collision_cluster, month" +:+ newline +:+
  "    FROM Collisions" +:+ newline +:+
  "    WHERE borough IN (" +:+ question_marks boroughs +:+ ")" +:+ newline +:+
  "    AND month IN (" +:+ question_marks months +:+ ")" +:+ newline +:+
  "    AND day_of_week IN (" +:+ question_marks days_of_week +:+ ")" +:+ newline +:+
  "    AND contributing_factor_category IN (" +:+ question_marks factors +:+ ")" +:+ newline +:+
  "    AND vehicle_category IN (" +:+ question_marks vehicles +:+ ")" +:+ newline +:+
  "    ".

(** The query and the parameters that [load_filtered_data] hands to
    [pd.read_sql_query]. *)
Definition load_filtered_data (boroughs : list sql_value) (time_filter_type : string)
    (time_value months days_of_week factors vehicles : list sql_value) :
    string * list sql_value :=
  let query :=
    select_where (length boroughs) (length months) (length days_of_week)
      (length factors) (length vehicles) in
  if decide (time_filter_type = "Time of Day") then
    (query +:+ " AND time_of_day IN (" +:+ question_marks (length time_value) +:+ ")",
     boroughs ++ months ++ days_of_week ++ factors ++ vehicles ++ time_value)
  else
    (query +:+ " AND hour_of_day BETWEEN ? AND ?",
     boroughs ++ months ++ days_of_week ++ factors ++ vehicles ++ time_value).

(** The number of placeholders of a query: its question marks. *)
Fixpoint count_char (c : ascii) (s : string) : nat :=
  match s with
  | EmptyString => 0
  | String c' s' => (if decide (c' = c) then 1 else 0) + count_char c s'
  end.

(** The number of values selected in the five filters. *)
Definition selected (boroughs months days_of_week factors vehicles : list sql_value) :
    nat :=
  length boroughs + length months + length days_of_week + length factors +
  length vehicles.

(** *** The options of a filter: [get_unique_values] *)

(** The order of [ORDER BY] on text: byte by byte. *)
Definition text_le (a b : string) : Prop := String.leb a b = true.

#[global] Instance text_le_dec (a b : string) : Decision (text_le a b).
Proof. unfold text_le. apply _. Defined.

(** [SELECT DISTINCT column FROM Collisions ORDER BY column], without its
    missing value: the values of the column, each once, in order. *)
Definition get_unique_values (column : list (option string)) : list string :=
  merge_sort text_le (remove_dups (omap id column)).

(** [l.remove(x)]: the list without the first [x], and [ValueError] when
    there is none. *)
Fixpoint list_remove (x : string) (l : list string) : result (list string) :=
  match l with
  | [] => Raise ValueError
  | y :: l' =>
      if decide (y = x) then Ok l'
      else let* rest := list_remove x l' in Ok (y :: rest)
  end.

(** The [borough] column of the table, which [database_integration.py]
    fills from the coordinates of the rows. *)
Definition borough_column (points : list (Q * Q)) : list (option string) :=
  (λ p, Some (Borough.get_borough p.1 p.2)) <$> points.

(** [unique_boroughs = get_unique_values("borough")] followed by
    [unique_boroughs.remove("Unknown")]. *)
Definition unique_boroughs (points : list (Q * Q)) : result (list string) :=
  list_remove "Unknown" (get_unique_values (borough_column points)).

(** The point lies in one of the five boxes. *)
Definition in_some_box (p : Q * Q) : Prop :=
  Exists (λ item : string * Borough.bounds, Borough.in_bounds item.2 p.1 p.2 = true)
         Borough.borough_ranges.

#[global] Instance in_some_box_dec (p : Q * Q) : Decision (in_some_box p).
Proof. unfold in_some_box. apply _. Defined.

(** *** The sliders of the prediction form *)

(** The starting position of a slider: the middle of its range. *)
Definition slider_value (lo hi : Q) : Q := ((lo + hi) / 2)%Q.

(** Points for the examples: Times Square and a point in the ocean. *)
Definition points_example : list (Q * Q) := [(40.758, -73.9855)%Q; (40.3, -73.5)%Q].

Lemma count_char_append (c : ascii) (a b : string) :
  count_char c (a +:+ b) = count_char c a + count_char c b.
Proof.
  induction a as [|c' a IH]; [done|].
  rewrite Alignment.append_cons. cbn [count_char]. rewrite IH. lia.
Qed.

Lemma count_question_marks (n : nat) : count_char "?" (question_marks n) = n.
Proof.
  unfold question_marks. induction n as [|n IH]; [done|].
  destruct n as [|n]; [done|].
  change (FeatureNames.join "," (replicate (S (S n)) "?"))
    with ("?" +:+ "," +:+ FeatureNames.join "," (replicate (S n) "?")).
  rewrite !count_char_append, IH. done.
Qed.

Ltac count_literals :=
  repeat match goal with
         | |- context [count_char ?c ?s] =>
             let n := eval vm_compute in (count_char c s) in
             change (count_char c s) with n
         end.

Lemma count_select_where (boroughs months days_of_week factors vehicles : nat) :
  count_char "?" (select_where boroughs months days_of_week factors vehicles) =
  boroughs + months + days_of_week + factors + vehicles.
Proof.
  unfold select_where. rewrite !count_char_append, !count_question_marks.
  count_literals. lia.
Qed.

(** X14: the query of the filter has one placeholder for each selected
    value of the five filters, and then one for each selected time of day,
    or two for the range of hours. With the filter on the time of day the
    parameters are always as many as the placeholders; with the range they
    are so exactly when the range has two ends, as the slider gives it. *)
Theorem load_filtered_data_bindings (boroughs : list sql_value)
    (time_filter_type : string)
    (time_value months days_of_week factors vehicles : list sql_value) :
  count_char "?"
    (load_filtered_data boroughs time_filter_type time_value months days_of_week
       factors vehicles).1 =
    selected boroughs months days_of_week factors vehicles +
    (if decide (time_filter_type = "Time of Day") then length time_value else 2) ∧
  (load_filtered_data boroughs time_filter_type time_value months days_of_week
     factors vehicles).2 =
    boroughs ++ months ++ days_of_week ++ factors ++ vehicles ++ time_value ∧
  length (load_filtered_data boroughs time_filter_type time_value months
            days_of_week factors vehicles).2 =
    selected boroughs months days_of_week factors vehicles + length time_value ∧
  (count_char "?"
     (load_filtered_data boroughs time_filter_type time_value months days_of_week
        factors vehicles).1 =
   length (load_filtered_data boroughs time_filter_type time_value months
             days_of_week factors vehicles).2 ↔
   time_filter_type = "Time of Day" ∨ length time_value = 2).
Proof.
  unfold load_filtered_data, selected.
  destruct (decide (time_filter_type = "Time of Day")) as [Htod|Hrange]; cbn [fst snd];
    rewrite !count_char_append, count_select_where, ?count_question_marks,
      !length_app; count_literals.
  - split; [lia|]. split; [done|]. split; [lia|]. split; [by left|lia].
  - split; [lia|]. split; [done|]. split; [lia|].
    split; [intros; right; lia|]. intros [?|?]; [done|lia].
Qed.

Lemma list_remove_absent (x : string) (l : list string) :
  x ∉ l → list_remove x l = Raise ValueError.
Proof.
  induction l as [|y l IH]; [done|]. intros Hx. cbn [list_remove].
  rewrite decide_False by (intros ->; apply Hx; by left).
  by rewrite IH by (intros ?; apply Hx; by right).
Qed.

Lemma list_remove_present (x : string) (l : list string) :
  x ∈ l → NoDup l →
  ∃ rest, list_remove x l = Ok rest ∧ rest = filter (λ y, y ≠ x) l.
Proof.
  induction l as [|y l IH]; [by intros ?%elem_of_nil|].
  intros Hx [Hy Hl]%NoDup_cons. cbn [list_remove].
  destruct (decide (y = x)) as [->|Hne].
  - exists l. split; [done|]. rewrite filter_cons_False by (by intros ?).
    symmetry. apply Balancing.filter_all, Forall_forall. by intros z Hz ->.
  - apply elem_of_cons in Hx as [->|Hx]; [done|].
    destruct (IH Hx Hl) as (rest & -> & ->). eexists. split; [done|].
    by rewrite filter_cons_True.
Qed.

Lemma get_unique_values_spec (column : list (option string)) :
  NoDup (get_unique_values column) ∧
  Sorted text_le (get_unique_values column) ∧
  ∀ v, v ∈ get_unique_values column ↔ Some v ∈ column.
Proof.
  unfold get_unique_values. split; [|split].
  - rewrite merge_sort_Permutation. apply NoDup_remove_dups.
  - assert (Htotal : Total text_le) by (intros a b; apply String.leb_total).
    apply (Sorted_merge_sort text_le).
  - intros v. rewrite merge_sort_Permutation, elem_of_remove_dups, list_elem_of_omap.
    split; [by intros ([w|] & Hw & [= ->])|]. intros Hv. by exists (Some v).
Qed.

Lemma get_borough_unknown (lat lon : Q) :
  Borough.get_borough lat lon = "Unknown" ↔ ¬ in_some_box (lat, lon).
Proof.
  unfold in_some_box, Borough.get_borough. cbn [fst snd].
  assert (Hnames : "Unknown" ∉ Borough.borough_ranges.*1).
  { apply (bool_decide_unpack _). vm_compute. reflexivity. }
  revert Hnames. generalize Borough.borough_ranges.
  induction l as [|[name b] items IH]; intros Hnames.
  - split; [|done]. by intros _ ?%Exists_nil.
  - cbn [Borough.get_borough_from]. rewrite Exists_cons. cbn [snd].
    rewrite fmap_cons, not_elem_of_cons in Hnames. destruct Hnames as [Hname Hnames].
    destruct (Borough.in_bounds b lat lon).
    + split; [by intros ->|]. intros Hno. exfalso. apply Hno. by left.
    + rewrite (IH Hnames). cbn [fst]. split; [by intros ? [?|?]|tauto].
Qed.

(** X15: the boroughs offered to the filter are the distinct boroughs of
    the table in order, without "Unknown"; removing "Unknown" raises
    [ValueError] exactly when no row of the table lies outside the five
    boxes, an empty table included. *)
Theorem unique_boroughs_needs_unknown (points : list (Q * Q)) :
  (Forall in_some_box points ↔ unique_boroughs points = Raise ValueError) ∧
  (¬ Forall in_some_box points →
   ∃ boroughs,
     unique_boroughs points = Ok boroughs ∧
     NoDup boroughs ∧
     boroughs = filter (λ b, b ≠ "Unknown") (get_unique_values (borough_column points)) ∧
     ∀ b, b ∈ boroughs ↔
          b ≠ "Unknown" ∧ ∃ p, p ∈ points ∧ Borough.get_borough p.1 p.2 = b).
Proof.
  destruct (get_unique_values_spec (borough_column points)) as (Hnd & _ & Hin).
  assert (Hcol : ∀ b, Some b ∈ borough_column points ↔
                      ∃ p, p ∈ points ∧ Borough.get_borough p.1 p.2 = b).
  { intros b. unfold borough_column. rewrite list_elem_of_fmap.
    split; intros (p & Hp & Hb); exists p; split; congruence. }
  assert (Hunknown : "Unknown" ∈ get_unique_values (borough_column points) ↔
                     ¬ Forall in_some_box points).
  { rewrite Hin, Hcol, <- Exists_Forall_neg, Exists_exists
      by (intros p; destruct (decide (in_some_box p)); tauto).
    split; intros ([lat lon] & Hp & Hb); exists (lat, lon); (split; [done|]);
      by apply get_borough_unknown. }
  unfold unique_boroughs. split.
  - split.
    + intros Hall. apply list_remove_absent. rewrite Hunknown. tauto.
    + intros Hraise. destruct (decide (Forall in_some_box points)) as [|Hno]; [done|].
      apply Hunknown in Hno.
      destruct (list_remove_present _ _ Hno Hnd) as (rest & Hrest & _).
      rewrite Hrest in Hraise. discriminate.
  - intros Hno. apply Hunknown in Hno.
    destruct (list_remove_present _ _ Hno Hnd) as (rest & Hrest & ->).
    eexists. split; [exact Hrest|]. split; [by apply NoDup_filter|].
    split; [done|]. intros b. rewrite list_elem_of_filter, Hin, Hcol. done.
Qed.

Lemma unique_boroughs_needs_unknown_witness :
  ¬ Forall in_some_box points_example ∧
  ∃ boroughs, unique_boroughs points_example = Ok boroughs ∧ NoDup boroughs.
Proof.
  assert (Hno : ¬ Forall in_some_box points_example).
  { intros Hall. apply Forall_cons in Hall as [_ Hall].
    apply Forall_cons in Hall as [Hbox _].
    apply (get_borough_unknown 40.3 (-73.5)) in Hbox; [done|]. reflexivity. }
  split; [exact Hno|].
  destruct (proj2 (unique_boroughs_needs_unknown points_example) Hno)
    as (boroughs & Hrun & Hnd & _).
  exists boroughs. split; [exact Hrun|exact Hnd].
Defined.

Lemma get_borough_from_before (pre post : list (string * Borough.bounds))
    (name : string) (b : Borough.bounds) (lat lon : Q) :
  Borough.in_bounds b lat lon = true →
  Borough.get_borough_from (pre ++ (name, b) :: post) lat lon ∈ pre.*1 ++ [name].
Proof.
  intros Hb. induction pre as [|[name' b'] pre IH]; cbn.
  - rewrite Hb. apply list_elem_of_here.
  - destruct (Borough.in_bounds b' lat lon); [apply list_elem_of_here|].
    by apply list_elem_of_further.
Qed.

(** X16: a position of the sliders of the selected borough, which lies in
    the box of that borough, is never labelled "Unknown" by the borough
    mapping: it gets the selected borough or one that is listed before it.
    At the starting position of the sliders, the middle of the box, it gets
    the selected borough, for each of the five. *)
Theorem slider_positions_are_labelled :
  (∀ pre post name b lat lon,
     Borough.borough_ranges = pre ++ (name, b) :: post →
     Borough.in_bounds b lat lon = true →
     Borough.get_borough lat lon ∈ pre.*1 ++ [name] ∧
     Borough.get_borough lat lon ≠ "Unknown") ∧
  (∀ name b,
     (name, b) ∈ Borough.borough_ranges →
     Borough.in_bounds b
       (slider_value (Borough.lat_min b) (Borough.lat_max b))
       (slider_value (Borough.lon_min b) (Borough.lon_max b)) = true ∧
     Borough.get_borough
       (slider_value (Borough.lat_min b) (Borough.lat_max b))
       (slider_value (Borough.lon_min b) (Borough.lon_max b)) = name).
Proof.
  split.
  - intros pre post name b lat lon Hranges Hb. split.
    + unfold Borough.get_borough. rewrite Hranges. by apply get_borough_from_before.
    + rewrite get_borough_unknown. intros Hno. apply Hno.
      unfold in_some_box. rewrite Hranges. apply Exists_app. right. by left.
  - intros name b Hin. unfold Borough.borough_ranges in Hin.
    repeat (apply elem_of_cons in Hin as [[= -> ->]|Hin]);
      [split; vm_compute; reflexivity ..|].
    destruct (proj1 (elem_of_nil _) Hin).
Qed.

End Dashboard.

(** ** Inputs that the alignment refuses ([app.py]) *)

Module AlignmentErrors.

(** A model with a crash rate and the one-hot group of the boroughs, and
    the input row of a prediction for which the table had no crash rate:
    the average of no row is [None], which [astype(str)] prints as
    "None". *)
Definition crash_rate_features : list string :=
  ["num__latitude"; "num__crash_rate"; "cat__borough_Manhattan"].

Definition no_crash_rate_input : gmap string Alignment.cell :=
  list_to_map [("borough", Alignment.Str "Manhattan");
               ("latitude", Alignment.Float 40.713);
               ("crash_rate", Alignment.Str "None")].

Section errors.

Variable py_float : string → option Q.
Variable py_str : Q → string.

(** A loop whose steps can only raise [e] raises [e] as soon as one step
    does. *)
Lemma for_each_raises {S X : Type} (e : exn) (body : S → X → result S)
    (xs : list X) (x : X) (s : S) :
  (∀ s' x', x' ∈ xs → body s' x' = Raise e ∨ ∃ s'', body s' x' = Ok s'') →
  x ∈ xs → (∀ s', body s' x = Raise e) →
  Alignment.for_each body xs s = Raise e.
Proof.
  intros Hsteps Hx Hraise. revert s.
  induction xs as [|x' xs IH]; intros s; [by apply elem_of_nil in Hx|].
  cbn [Alignment.for_each].
  destruct (Hsteps s x' ltac:(by left)) as [->|[s'' Hok]]; [done|].
  apply elem_of_cons in Hx as [->|Hx].
  - by rewrite Hraise in Hok.
  - rewrite Hok. cbn [bind]. apply IH; [|done].
    intros s' y Hy. apply Hsteps. by right.
Qed.

Lemma num_step_outcome (input_data : gmap string string)
    (aligned_input : gmap string Q) (f : string) :
  Alignment.startswith f "num__" = true →
  try_except (Alignment.num_body py_float input_data aligned_input f) KeyError
    (Ok aligned_input) = Raise ValueError ∨
  ∃ aligned_input',
    try_except (Alignment.num_body py_float input_data aligned_input f) KeyError
      (Ok aligned_input) = Ok aligned_input'.
Proof.
  intros Hnum. destruct (Alignment.source_column_defined f Hnum) as [name Hname].
  unfold Alignment.num_body, Alignment.list_index.
  fold (Alignment.source_column f). rewrite Hname. cbn [bind].
  unfold Alignment.column_cell. destruct (input_data !! name) as [value|]; [|by eauto].
  cbn [bind]. unfold Alignment.float_of.
  destruct (py_float value); [by eauto|by left].
Qed.

Lemma num_step_raises (input_data : gmap string string)
    (aligned_input : gmap string Q) (f name value : string) :
  Alignment.source_column f = Some name →
  input_data !! name = Some value → py_float value = None →
  try_except (Alignment.num_body py_float input_data aligned_input f) KeyError
    (Ok aligned_input) = Raise ValueError.
Proof.
  intros Hname Hvalue Hfloat.
  unfold Alignment.num_body, Alignment.list_index.
  fold (Alignment.source_column f). rewrite Hname. cbn [bind].
  unfold Alignment.column_cell. rewrite Hvalue. cbn [bind].
  unfold Alignment.float_of. by rewrite Hfloat.
Qed.

Lemma cat_step_outcome (input_data : gmap string string)
    (aligned_input : gmap string Q) (f : string) :
  try_except (Alignment.cat_body input_data aligned_input f) KeyError
    (Ok aligned_input) = Raise ValueError ∨
  ∃ aligned_input',
    try_except (Alignment.cat_body input_data aligned_input f) KeyError
      (Ok aligned_input) = Ok aligned_input'.
Proof.
  unfold Alignment.cat_body.
  destruct (Alignment.unpack2 (Alignment.str_split f "__")) as [[prefix category_name]|e] eqn:Hunpack.
  2:{ left. unfold Alignment.unpack2 in Hunpack.
      destruct (Alignment.str_split f "__") as [|? [|? [|? ?]]];
        first [discriminate Hunpack|by injection Hunpack as <-]. }
  right. cbn [bind].
  assert (Hfirst : ∃ column,
            Alignment.list_index (Alignment.str_rsplit1 category_name "_") 0 = Ok column).
  { unfold Alignment.str_rsplit1.
    destruct (Alignment.rsplit_once "_" category_name) as [[] |]; by eexists. }
  destruct Hfirst as [column ->]. cbn [bind].
  destruct (bool_decide_reflect (column ∈ dom input_data)) as [Hdom|_]; [|by eauto].
  apply elem_of_dom in Hdom as [value Hvalue].
  unfold Alignment.column_cell. rewrite Hvalue. cbn [bind].
  unfold Alignment.list_last.
  destruct (last (Alignment.str_split f "_")) as [category|] eqn:Hlast.
  - cbn [bind]. destruct (decide (value = category)); by eauto.
  - apply last_None in Hlast. by apply Alignment.split_from_nonempty in Hlast.
Qed.

Lemma cat_step_raises (input_data : gmap string string)
    (aligned_input : gmap string Q) (f : string) :
  length (Alignment.str_split f "__") ≠ 2 →
  try_except (Alignment.cat_body input_data aligned_input f) KeyError
    (Ok aligned_input) = Raise ValueError.
Proof.
  intros Hlen. unfold Alignment.cat_body, Alignment.unpack2.
  by destruct (Alignment.str_split f "__") as [|? [|? [|? ?]]].
Qed.

(** X17: the alignment has no answer for a row with a cell that is not a
    number under a numerical feature: [float] raises [ValueError], which
    the function does not catch, whatever the other features and cells
    are. The same happens, when the numerical cells are numbers, for a
    one-hot name that does not split into two parts at its double
    underscores. *)
Theorem create_aligned_input_refuses (input_data : gmap string Alignment.cell)
    (feature_names : list string) :
  (∀ f name value,
     f ∈ feature_names → Alignment.startswith f "num__" = true →
     Alignment.source_column f = Some name →
     (Alignment.astype_str py_str <$> input_data) !! name = Some value →
     py_float value = None →
     Alignment.create_aligned_input py_float py_str input_data feature_names =
     Raise ValueError) ∧
  (∀ f,
     (∀ g name value,
        g ∈ feature_names → Alignment.startswith g "num__" = true →
        Alignment.source_column g = Some name →
        (Alignment.astype_str py_str <$> input_data) !! name = Some value →
        is_Some (py_float value)) →
     f ∈ feature_names → Alignment.startswith f "cat__" = true →
     length (Alignment.str_split f "__") ≠ 2 →
     Alignment.create_aligned_input py_float py_str input_data feature_names =
     Raise ValueError).
Proof.
  split.
  - intros f name value Hf Hnum Hname Hvalue Hfloat.
    unfold Alignment.create_aligned_input.
    rewrite (for_each_raises ValueError _ _ f); [done| | |].
    + intros s' g [Hg _]%list_elem_of_filter. by apply num_step_outcome.
    + by apply list_elem_of_filter.
    + intros s'. by eapply num_step_raises.
  - intros f Hnumbers Hf Hcat Hlen.
    unfold Alignment.create_aligned_input.
    destruct (Alignment.for_each_writes
                (λ aligned_input num_feature,
                   try_except
                     (Alignment.num_body py_float
                        (Alignment.astype_str py_str <$> input_data)
                        aligned_input num_feature)
                     KeyError (Ok aligned_input))
                (Alignment.copied py_float (Alignment.astype_str py_str <$> input_data))
                (filter (λ f, Alignment.startswith f "num__" = true) feature_names)
                (Alignment.zeros feature_names)) as (frame1 & -> & _).
    { intros m g [Hg Hin]%list_elem_of_filter.
      apply Alignment.num_iteration; [done|].
      intros name value. by apply Hnumbers. }
    cbn [bind].
    rewrite (for_each_raises ValueError _ _ f); [done| | |].
    + intros s' g _. apply cat_step_outcome.
    + by apply list_elem_of_filter.
    + intros s'. by apply cat_step_raises.
Qed.

End errors.

Lemma create_aligned_input_refuses_witness :
  Alignment.float_decimal "None" = None ∧
  Alignment.create_aligned_input Alignment.float_decimal Alignment.str_decimal
    no_crash_rate_input crash_rate_features = Raise ValueError.
Proof.
  assert (Hfloat : Alignment.float_decimal "None" = None) by reflexivity.
  split; [exact Hfloat|].
  apply (proj1 (create_aligned_input_refuses Alignment.float_decimal
                  Alignment.str_decimal no_crash_rate_input crash_rate_features)
           "num__crash_rate" "crash_rate" "None").
  - unfold crash_rate_features. apply list_elem_of_In. simpl. tauto.
  - reflexivity.
  - reflexivity.
  - vm_compute. reflexivity.
  - exact Hfloat.
Defined.

End AlignmentErrors.

(** ** Fetching the data files ([download_files.py]) *)

Module Downloads.

(** The files that exist, and the calls of [gdown.download] so far, each
    with its address and its output path. *)
Record world : Type := {
  files : gset string;
  fetched : list (string * string)
}.

(** The dictionary [FILES], in the order of its items. *)
Definition FILES : list (string * string) :=
  [("raw_dataset.csv",
    "https://drive.google.com/uc?id=15QJIa6AxucXFIwCEITNL_uioh8cEj8Er");
   ("clean_collision_data.csv",
    "https://drive.google.com/uc?id=12YVvDoTXSMhq65jYXiDpLW0pvLY-J8M1");
   ("random_forest_model.pkl",
    "https://drive.google.com/uc?id=1dwqypIt_eLYZM1tM8UR7g7HBuwxy17df")].

(** [os.path.join(folder, filename)] for a relative file name. *)
Definition path_join (folder filename : string) : string :=
  folder +:+ "/" +:+ filename.

(** [os.path.exists(path)] *)
Definition path_exists (path : string) (w : world) : bool :=
  bool_decide (path ∈ files w).

(** [gdown.download(url, output)], when it succeeds: the file is written
    at the output path. *)
Definition gdown_download (url output : string) (w : world) : world :=
  {| files := {[output]} ∪ files w; fetched := fetched w ++ [(url, output)] |}.

Definition download_files (file_mapping : list (string * string))
    (destination_folder : string) (w : world) : world :=
  foldl (λ w (item : string * string),
           let output_path := path_join destination_folder item.1 in
           if negb (path_exists output_path w)
           then gdown_download item.2 output_path w
           else w)
        w file_mapping.

Definition check_and_download_file (filepath url : string) (w : world) : world :=
  if negb (path_exists filepath w) then gdown_download url filepath w else w.

(** [{k: FILES[k] for i, k in enumerate(FILES) if i < 2}] and its
    counterpart with [i >= 2]. *)
Definition enumerate {A : Type} (l : list A) : list (nat * A) := imap pair l.

Definition files_data : list (string * string) :=
  snd <$> filter (λ entry : nat * (string * string), entry.1 < 2) (enumerate FILES).

Definition files_models : list (string * string) :=
  snd <$> filter (λ entry : nat * (string * string), 2 ≤ entry.1) (enumerate FILES).

(** The block under [__main__]. *)
Definition main (w : world) : world :=
  download_files files_models "models" (download_files files_data "data" w).

(** What a run has to fetch: the items whose file is missing. *)
Definition missing (file_mapping : list (string * string)) (folder : string)
    (w : world) : list (string * string) :=
  filter (λ item, path_join folder item.1 ∉ files w) file_mapping.

(** A machine on which nothing has been fetched yet. *)
Definition fresh : world := {| files := ∅; fetched := [] |}.

Lemma append_inj (a b c : string) : a +:+ b = a +:+ c → b = c.
Proof.
  induction a as [|x a IH]; [done|].
  rewrite !Alignment.append_cons. intros [= ?]. by apply IH.
Qed.

Lemma path_join_inj (folder a b : string) :
  path_join folder a = path_join folder b → a = b.
Proof. unfold path_join. by intros ?%append_inj%append_inj. Qed.

Lemma download_files_cons (item : string * string) (rest : list (string * string))
    (folder : string) (w : world) :
  download_files (item :: rest) folder w =
  download_files rest folder
    (check_and_download_file (path_join folder item.1) item.2 w).
Proof. reflexivity. Qed.

Lemma check_and_download_file_files (filepath url : string) (w : world) :
  files (check_and_download_file filepath url w) = {[filepath]} ∪ files w.
Proof.
  unfold check_and_download_file, path_exists.
  destruct (bool_decide_reflect (filepath ∈ files w)) as [Hin|Hout]; cbn; [|done].
  apply leibniz_equiv. intros path. rewrite elem_of_union, elem_of_singleton.
  split; [tauto|]. by intros [->|?].
Qed.

Lemma download_files_files (file_mapping : list (string * string)) (folder : string)
    (w : world) :
  files (download_files file_mapping folder w) =
  files w ∪ list_to_set (path_join folder <$> file_mapping.*1).
Proof.
  revert w. induction file_mapping as [|item rest IH]; intros w.
  - cbn. by rewrite (right_id_L ∅ (∪)).
  - rewrite download_files_cons, IH, check_and_download_file_files.
    rewrite !fmap_cons, list_to_set_cons. apply leibniz_equiv. intros path.
    rewrite !elem_of_union. tauto.
Qed.

Lemma download_files_present (file_mapping : list (string * string)) (folder : string)
    (w : world) :
  Forall (λ item, path_join folder item.1 ∈ files w) file_mapping →
  download_files file_mapping folder w = w.
Proof.
  induction 1 as [|item rest Hitem _ IH]; [done|].
  rewrite download_files_cons. unfold check_and_download_file, path_exists.
  by rewrite bool_decide_true.
Qed.

Lemma filter_agree {A : Type} (P1 P2 : A → Prop) `{!∀ x, Decision (P1 x)}
    `{!∀ x, Decision (P2 x)} (l : list A) :
  (∀ x, x ∈ l → P1 x ↔ P2 x) → filter P1 l = filter P2 l.
Proof.
  induction l as [|x l IH]; [done|]. intros Hl.
  rewrite !filter_cons, IH by (intros y Hy; apply Hl; by right).
  destruct (decide (P1 x)) as [H1|H1], (decide (P2 x)) as [H2|H2]; try done.
  - by apply Hl in H1; [|left].
  - by apply Hl in H2; [|left].
Qed.

Lemma download_files_fetched (file_mapping : list (string * string)) (folder : string)
    (w : world) :
  NoDup file_mapping.*1 →
  fetched (download_files file_mapping folder w) =
  fetched w ++
  ((λ item, (item.2, path_join folder item.1)) <$> missing file_mapping folder w).
Proof.
  revert w. induction file_mapping as [|item rest IH]; intros w Hnd.
  - cbn. by rewrite app_nil_r.
  - rewrite fmap_cons in Hnd. apply NoDup_cons in Hnd as [Hitem Hnd].
    rewrite download_files_cons, IH by done.
    assert (Hrest : missing rest folder
                      (check_and_download_file (path_join folder item.1) item.2 w) =
                    missing rest folder w).
    { unfold missing. apply filter_agree. intros other Hother.
      rewrite check_and_download_file_files.
      rewrite not_elem_of_union, not_elem_of_singleton.
      split; [tauto|]. intros Hout. split; [|done].
      intros Heq%path_join_inj. apply Hitem. rewrite <- Heq.
      apply list_elem_of_fmap. by exists other. }
    rewrite Hrest. unfold missing at 2. rewrite filter_cons.
    unfold check_and_download_file, path_exists.
    destruct (decide (path_join folder item.1 ∉ files w)) as [Hout|Hin].
    + rewrite bool_decide_false by done. cbn. by rewrite <- app_assoc.
    + apply dec_stable in Hin. by rewrite bool_decide_true.
Qed.

(** X18: provided that each download writes its file, a run of
    [download_files] leaves every file of the mapping in the folder; it
    fetches the files that were missing, each once and in the order of the
    mapping, and no file that was there; a second run fetches nothing. *)
Theorem download_files_fetches_missing (file_mapping : list (string * string))
    (folder : string) (w : world) :
  NoDup file_mapping.*1 →
  files (download_files file_mapping folder w) =
    files w ∪ list_to_set (path_join folder <$> file_mapping.*1) ∧
  (∀ item, item ∈ file_mapping →
     path_exists (path_join folder item.1) (download_files file_mapping folder w) =
     true) ∧
  fetched (download_files file_mapping folder w) =
    fetched w ++
    ((λ item, (item.2, path_join folder item.1)) <$> missing file_mapping folder w) ∧
  (∀ url path,
     path ∈ files w → (url, path) ∈ fetched (download_files file_mapping folder w) →
     (url, path) ∈ fetched w) ∧
  download_files file_mapping folder (download_files file_mapping folder w) =
    download_files file_mapping folder w.
Proof.
  intros Hnd.
  assert (Hthere : ∀ item, item ∈ file_mapping →
            path_join folder item.1 ∈ files (download_files file_mapping folder w)).
  { intros item Hitem. rewrite download_files_files.
    apply elem_of_union_r, elem_of_list_to_set, list_elem_of_fmap.
    exists item.1. split; [done|]. apply list_elem_of_fmap. by exists item. }
  split; [apply download_files_files|]. split; [|split; [|split]].
  - intros item Hitem. unfold path_exists. apply bool_decide_eq_true. by apply Hthere.
  - by apply download_files_fetched.
  - intros url path Hpath. rewrite download_files_fetched by done.
    intros [?|Hnew]%elem_of_app; [done|].
    apply list_elem_of_fmap in Hnew as (item & [= -> ->] & [Hout _]%list_elem_of_filter).
    done.
  - apply download_files_present, Forall_forall. exact Hthere.
Qed.

Lemma download_files_fetches_missing_witness :
  NoDup FILES.*1 ∧
  fetched (download_files FILES "data"
             {| files := {["data/raw_dataset.csv"]}; fetched := [] |}) =
  [("https://drive.google.com/uc?id=12YVvDoTXSMhq65jYXiDpLW0pvLY-J8M1",
    "data/clean_collision_data.csv");
   ("https://drive.google.com/uc?id=1dwqypIt_eLYZM1tM8UR7g7HBuwxy17df",
    "data/random_forest_model.pkl")].
Proof.
  assert (Hnd : NoDup FILES.*1).
  { apply (bool_decide_unpack _). vm_compute. reflexivity. }
  split; [exact Hnd|].
  destruct (download_files_fetches_missing FILES "data"
              {| files := {["data/raw_dataset.csv"]}; fetched := [] |} Hnd)
    as (_ & _ & -> & _).
  vm_compute. reflexivity.
Defined.

(** The block under [__main__] splits [FILES] into its first two items and
    the rest, and on a fresh machine fetches the two data files into
    [data] and the model into [models]. *)
Example main_on_fresh_machine :
  files_data ++ files_models = FILES ∧
  length files_data = 2 ∧
  fetched (main fresh) =
  [("https://drive.google.com/uc?id=15QJIa6AxucXFIwCEITNL_uioh8cEj8Er",
    "data/raw_dataset.csv");
   ("https://drive.google.com/uc?id=12YVvDoTXSMhq65jYXiDpLW0pvLY-J8M1",
    "data/clean_collision_data.csv");
   ("https://drive.google.com/uc?id=1dwqypIt_eLYZM1tM8UR7g7HBuwxy17df",
    "models/random_forest_model.pkl")] ∧
  main (main fresh) = main fresh.
Proof.
  split; [reflexivity|]. split; [reflexivity|]. split; [vm_compute; reflexivity|].
  unfold main.
  rewrite (download_files_present files_data "data").
  - apply download_files_present. apply Forall_forall. intros item Hitem.
    rewrite download_files_files. apply elem_of_union_r, elem_of_list_to_set.
    apply list_elem_of_fmap. exists item.1. split; [done|].
    apply list_elem_of_fmap. by exists item.
  - apply Forall_forall. intros item Hitem.
    rewrite !download_files_files. apply elem_of_union_l, elem_of_union_r.
    apply elem_of_list_to_set, list_elem_of_fmap. exists item.1. split; [done|].
    apply list_elem_of_fmap. by exists item.
Qed.

End Downloads.

(** ** Severity distribution of the global statistics
    ([database_integration.py], step 6) *)

Module GlobalStatistics.

(** [COUNT( * )] of one group: the rows of the column with the value. *)
Definition count_rows (value : string) (column : list string) : nat :=
  length (filter (λ cell, cell = value) column).

(** [GROUP BY severity_category]: one group for each value of the column,
    in the order of the values. *)
Definition groups (column : list string) : list string :=
  merge_sort Dashboard.text_le (remove_dups column).

(** [COUNT( * ) * 100.0 / (SELECT COUNT( * ) FROM Collisions)] *)
Definition share (column : list string) (value : string) : Q :=
  (inject_Z (Z.of_nat (count_rows value column)) * 100 /
   inject_Z (Z.of_nat (length column)))%Q.

(** [round(x, 1)]: to the nearest tenth, ties to the even one. *)
Definition round1 (x : Q) : Q :=
  (inject_Z (Location.round_half_even (x * 10)) / 10)%Q.

(** [{row[0]: round(row[1], 1) for row in cursor.fetchall()}], in the order
    of the rows. *)
Definition severity_distribution (column : list string) : list (string * Q) :=
  (λ value, (value, round1 (share column value))) <$> groups column.

(** The sum of a list of numbers. *)
Definition total (xs : list Q) : Q := foldr Qplus 0%Q xs.

(** The categories of a small table. *)
Definition column_example : list string :=
  ["Low"; "High"; "Low"; "Medium"; "Low"; "Low"; "Medium"].

Lemma count_rows_cons (value cell : string) (column : list string) :
  count_rows value (cell :: column) =
  (if decide (cell = value) then 1 else 0) + count_rows value column.
Proof.
  unfold count_rows. rewrite filter_cons. by destruct (decide (cell = value)).
Qed.

Lemma sum_indicator (keys : list string) (cell : string) :
  NoDup keys → cell ∈ keys →
  foldr Nat.add 0 ((λ key, if decide (cell = key) then 1 else 0) <$> keys) = 1.
Proof.
  induction 1 as [|key keys Hkey Hnd IH]; [by intros ?%elem_of_nil|].
  rewrite fmap_cons. cbn [foldr]. intros [->|Hin]%elem_of_cons.
  - rewrite decide_True by done.
    assert (foldr Nat.add 0
              ((λ key', if decide (key = key') then 1 else 0) <$> keys) = 0) as ->;
      [|done].
    clear IH Hnd. induction keys as [|key' keys IH]; [done|].
    rewrite fmap_cons. cbn [foldr]. rewrite not_elem_of_cons in Hkey.
    destruct Hkey as [Hne Hkey]. by rewrite decide_False, IH.
  - rewrite decide_False by (intros ->; done). by rewrite IH.
Qed.

(** The groups share out the rows. *)
Lemma count_rows_total (keys column : list string) :
  NoDup keys → (∀ cell, cell ∈ column → cell ∈ keys) →
  foldr Nat.add 0 ((λ key, count_rows key column) <$> keys) = length column.
Proof.
  intros Hnd. induction column as [|cell column IH]; intros Hkeys.
  - clear Hnd Hkeys. induction keys as [|key keys IH]; [done|].
    rewrite fmap_cons. cbn [foldr]. by rewrite IH.
  - assert (Hsplit : ∀ l : list string,
              foldr Nat.add 0 ((λ key, count_rows key (cell :: column)) <$> l) =
              foldr Nat.add 0 ((λ key, if decide (cell = key) then 1 else 0) <$> l) +
              foldr Nat.add 0 ((λ key, count_rows key column) <$> l)).
    { induction l as [|key l IHl]; [done|].
      rewrite !fmap_cons. cbn [foldr]. rewrite IHl, count_rows_cons. lia. }
    rewrite Hsplit, sum_indicator, IH; [done| |done|].
    + intros c Hc. apply Hkeys. by right.
    + apply Hkeys. by left.
Qed.

Lemma groups_spec (column : list string) :
  NoDup (groups column) ∧ ∀ value, value ∈ groups column ↔ value ∈ column.
Proof.
  unfold groups. split.
  - rewrite merge_sort_Permutation. apply NoDup_remove_dups.
  - intros value. by rewrite merge_sort_Permutation, elem_of_remove_dups.
Qed.

Lemma total_shares (column keys : list string) :
  column ≠ [] →
  (total (share column <$> keys) ==
   inject_Z (Z.of_nat (foldr Nat.add 0%nat ((λ key, count_rows key column) <$> keys))) *
   100 / inject_Z (Z.of_nat (length column)))%Q.
Proof.
  intros Hne.
  assert (Hlen : ¬ (inject_Z (Z.of_nat (length column)) == 0)%Q).
  { change 0%Q with (inject_Z 0). rewrite inject_Z_injective.
    destruct column; [done|]. cbn [length]. lia. }
  induction keys as [|key keys IH].
  - cbn. field. exact Hlen.
  - rewrite !fmap_cons. cbn [total foldr]. fold (total (share column <$> keys)).
    rewrite IH. unfold share. rewrite Nat2Z.inj_add, inject_Z_plus.
    field. exact Hlen.
Qed.

Lemma round1_near (x : Q) :
  (round1 x - (1 # 20) <= x)%Q ∧ (x <= round1 x + (1 # 20))%Q.
Proof.
  unfold round1. destruct (Location.round_half_even_near (x * 10)) as [Hlo Hhi].
  generalize dependent (inject_Z (Location.round_half_even (x * 10))).
  intros r Hlo Hhi. unfold Qdiv. change (/ 10)%Q with (1 # 10)%Q. split; lra.
Qed.

Lemma total_rounded (column keys : list string) :
  (total (share column <$> keys) - inject_Z (Z.of_nat (length keys)) * (1 # 20) <=
   total ((λ key, round1 (share column key)) <$> keys))%Q ∧
  (total ((λ key, round1 (share column key)) <$> keys) <=
   total (share column <$> keys) + inject_Z (Z.of_nat (length keys)) * (1 # 20))%Q.
Proof.
  induction keys as [|key keys [IHlo IHhi]].
  - cbn [fmap list_fmap total foldr length Z.of_nat].
    change (inject_Z (Z.of_nat 0)) with 0%Q. split; lra.
  - rewrite !fmap_cons. cbn [total foldr length].
    fold (total (share column <$> keys)).
    fold (total ((λ key, round1 (share column key)) <$> keys)).
    rewrite Nat2Z.inj_succ, <- Z.add_1_r, inject_Z_plus.
    change (inject_Z 1) with 1%Q.
    destruct (round1_near (share column key)) as [Hlo Hhi].
    split; lra.
Qed.

(** X19: for a table that is not empty, the distribution has one entry
    for each severity category of the table; the shares add up to 100
    before they are rounded, each rounded share is within a twentieth of
    its share, and so the stored shares add up to 100 within a twentieth
    for each category of the table. *)
Theorem severity_distribution_adds_up (column : list string) :
  column ≠ [] →
  NoDup (severity_distribution column).*1 ∧
  (∀ value, value ∈ (severity_distribution column).*1 ↔ value ∈ column) ∧
  (total (share column <$> groups column) == 100)%Q ∧
  (∀ value rounded,
     (value, rounded) ∈ severity_distribution column →
     (rounded - (1 # 20) <= share column value)%Q ∧
     (share column value <= rounded + (1 # 20))%Q) ∧
  (100 - inject_Z (Z.of_nat (length (groups column))) * (1 # 20) <=
   total (severity_distribution column).*2)%Q ∧
  (total (severity_distribution column).*2 <=
   100 + inject_Z (Z.of_nat (length (groups column))) * (1 # 20))%Q.
Proof.
  intros Hne. destruct (groups_spec column) as [Hnd Hin].
  assert (Hkeys : (severity_distribution column).*1 = groups column).
  { unfold severity_distribution. rewrite <- list_fmap_compose.
    apply list_fmap_id. }
  assert (Hvalues : (severity_distribution column).*2 =
                    (λ key, round1 (share column key)) <$> groups column).
  { unfold severity_distribution. by rewrite <- list_fmap_compose. }
  assert (Hsum : (total (share column <$> groups column) == 100)%Q).
  { rewrite total_shares by done.
    rewrite count_rows_total by (done || (intros cell; by rewrite Hin)).
    field. change 0%Q with (inject_Z 0). rewrite inject_Z_injective.
    destruct column; [done|]. cbn [length]. lia. }
  rewrite Hkeys, Hvalues.
  split; [done|]. split; [done|]. split; [done|]. split.
  - intros value rounded Hentry. unfold severity_distribution in Hentry.
    apply list_elem_of_fmap in Hentry as (key & [= -> ->] & _).
    apply round1_near.
  - destruct (total_rounded column (groups column)) as [Hlo Hhi].
    rewrite Hsum in Hlo, Hhi. done.
Qed.

Lemma severity_distribution_adds_up_witness :
  column_example ≠ [] ∧
  (total (severity_distribution column_example).*2 <=
   100 + inject_Z (Z.of_nat (length (groups column_example))) * (1 # 20))%Q.
Proof.
  assert (Hne : column_example ≠ []) by discriminate.
  split; [exact Hne|].
  exact (proj2 (proj2 (proj2 (proj2 (proj2
           (severity_distribution_adds_up column_example Hne)))))).
Defined.

Example severity_distribution_example :
  severity_distribution column_example =
  [("High", (143 # 10)%Q); ("Low", (571 # 10)%Q); ("Medium", (286 # 10)%Q)].
Proof. vm_compute. reflexivity. Qed.

End GlobalStatistics.
